(** * scrape.py: incremental mirror of a paginated mod catalog

    A shallow embedding of [backend/scrape.py] and the properties of its
    store ([Database]), its credential refresh ([update_cookies]), its three
    fetch operations ([fetch_page], [fetch_total_count], [fetch_details]) and
    its driver ([main]).

    Conventions of the embedding
    - Python values that come out of [json.loads] / [response.json()] are
      values of [json]; floating point numbers are left out.
    - A Python function that performs effects is a function
      [World -> result A * World]; an exception is the [Raise] result.
    - Console output ([print]) is not modelled.
*)

From stdpp Require Import base option list gmap strings pretty.

Open Scope Z_scope.

(** ** Python values and exceptions *)

Set Warnings "-register-all".

Inductive json : Type :=
| JNull
| JBool (b : bool)
| JInt (z : Z)
| JStr (s : string)
| JList (l : list json)
| JDict (d : list (string * json)).

(** The exceptions the script can meet.  All of them are subclasses of
    [Exception]; [InvalidCookiesException] is the script's own (line 26).
    [Unmodelled] is not a Python exception: it marks an input on which the
    embedding does not follow SQLite (a value whose JSON kind differs from
    the declared column type, where SQLite would coerce by column affinity
    or refuse the binding).  No theorem below depends on what happens
    there. *)
Inductive exn : Type :=
| InvalidCookiesException
| Exception (msg : string)
| KeyError (key : string)
| TypeError
| OverflowError
| JSONDecodeError
| FileNotFoundError (path : string)
| PermissionError (path : string)
| CalledProcessError (returncode : Z)
| RequestException
| Unmodelled.

Inductive result (A : Type) : Type :=
| Ok (a : A)
| Raise (e : exn).
Arguments Ok {A} a.
Arguments Raise {A} e.

(** [d[key]] on a parsed JSON value: only a dict can be indexed by a
    string; a list, a string, a number, a boolean or [None] raise
    [TypeError]. *)
Fixpoint assoc (key : string) (d : list (string * json)) : option json :=
  match d with
  | [] => None
  | (k, v) :: d' => if String.eqb k key then Some v else assoc key d'
  end.

Definition subscript (j : json) (key : string) : result json :=
  match j with
  | JDict d => match assoc key d with
               | Some v => Ok v
               | None => Raise (KeyError key)
               end
  | _ => Raise TypeError
  end.

(** Iteration ([for x in j], [list.extend(j)]): a list yields its elements,
    a dict its keys, a string its characters; the other kinds are not
    iterable. *)
Fixpoint chars (s : string) : list json :=
  match s with
  | EmptyString => []
  | String c s' => JStr (String c EmptyString) :: chars s'
  end.

Definition py_iter (j : json) : result (list json) :=
  match j with
  | JList l => Ok l
  | JDict d => Ok (map (fun kv => JStr (fst kv)) d)
  | JStr s => Ok (chars s)
  | _ => Raise TypeError
  end.

(** [range(a, b)] *)
Definition range (a b : Z) : list Z := seqZ a (b - a).

(** [str(z)] for a Python int. *)
Definition str (z : Z) : string := pretty z.

(** ** Effects: state and exceptions

    A computation over a state [S] returns a value or raises, and leaves a
    new state in both cases (what was written before an exception stays
    written). *)

Definition M (S A : Type) : Type := S -> result A * S.

Definition ret {S A} (a : A) : M S A := fun s => (Ok a, s).

Definition raise {S A} (e : exn) : M S A := fun s => (Raise e, s).

Definition lift {S A} (r : result A) : M S A := fun s => (r, s).

Definition bind {S A B} (m : M S A) (k : A -> M S B) : M S B :=
  fun s => match m s with
           | (Ok a, s') => k a s'
           | (Raise e, s') => (Raise e, s')
           end.

Notation "x <- m ;; k" := (bind m (fun x => k))
  (at level 100, m at next level, right associativity).

(** [try: body except ...: handler] *)
Definition try_except {S A} (body : M S A) (handler : exn -> M S A) : M S A :=
  fun s => match body s with
           | (Ok a, s') => (Ok a, s')
           | (Raise e, s') => handler e s'
           end.

(** A [for] loop whose body can [return] from the enclosing function:
    the body yields [Some a] for [return a] and [None] to go on with the
    next element; [orelse] is the code after the loop. *)
Fixpoint for_ {S X A} (xs : list X) (body : X -> M S (option A))
  (orelse : M S A) : M S A :=
  match xs with
  | [] => orelse
  | x :: xs' =>
      fun s => match body x s with
               | (Ok (Some a), s') => (Ok a, s')
               | (Ok None, s') => for_ xs' body orelse s'
               | (Raise e, s') => (Raise e, s')
               end
  end.

(** A [for] loop run for its effects only. *)
Fixpoint for_each {S X} (xs : list X) (body : X -> M S unit) : M S unit :=
  match xs with
  | [] => ret tt
  | x :: xs' => _ <- body x ;; for_each xs' body
  end.

(** ** Module constants (lines 16-23) *)

Definition PAGE_SIZE : Z := 1000.
Definition RETRIES : Z := 3.
Definition FIND_URL : string := "https://api.ageofempires.com/api/v4/mods/Find".
Definition DETAILS_URL (mod_id : Z) : string :=
  "https://api.ageofempires.com/api/v4/mods/Detail/" +:+ str mod_id.
Definition TMP_FILE : string := "all_the_mods_tmp.json".
Definition MOD_LIST_FILE : string := "all_the_mods.json".

(** ** The store (class [Database], lines 30-74) *)

Module Database.

(** A row of [mods_raw], with SQLite's implicit [rowid]; columns at their
    declared types ([int] is a 64-bit signed integer, [TEXT] a string). *)
Record Row : Type := mkRow {
  rowid : Z;
  modId : Z;
  modName : string;
  modTypeId : Z;
  createDate : string;
  lastUpdate : string;
  json_text : string
}.

Record TagRow : Type := mkTag {
  modRowId : Z;
  tag : Z
}.

(** Both tables, in insertion order. *)
Record t : Type := mkDb {
  mods_raw : list Row;
  mod_tags : list TagRow
}.

(** [CREATE TABLE IF NOT EXISTS]: a store that does not exist yet is the
    store with two empty tables; an existing one is left as it is. *)
Definition empty : t := mkDb [] [].
Definition _init_db (db : t) : t := db.

Definition in_int64 (z : Z) : bool :=
  (- 2 ^ 63 <=? z) && (z <? 2 ^ 63).

(** Binding a Python int to a statement parameter: sqlite3 raises
    [OverflowError] outside 64 bits. *)
Definition bind_int (z : Z) : result Z :=
  if in_int64 z then Ok z else Raise OverflowError.

(** A JSON field bound to a column of declared type [int] / [TEXT]. *)
Definition int_column (j : json) : result Z :=
  match j with
  | JInt z => bind_int z
  | _ => Raise Unmodelled
  end.

Definition text_column (j : json) : result string :=
  match j with
  | JStr s => Ok s
  | _ => Raise Unmodelled
  end.

(** [SELECT MAX(rowid) FROM rows], 0 on no rows. *)
Definition max_rowid (rows : list Row) : Z :=
  foldr (fun r acc => Z.max (rowid r) acc) 0 rows.

(** The rowid SQLite gives to an inserted row: one more than the largest
    rowid in the table (1 in an empty table).  A table that has used up
    the 64-bit rowids is left out. *)
Definition next_rowid (rows : list Row) : Z := max_rowid rows + 1.

(** The view [mods] (lines 50-54):
    [WHERE rowid IN (SELECT MAX(rowid) FROM mods_raw GROUP BY modId)]. *)
Definition group (rows : list Row) (m : Z) : list Row :=
  filter (fun r => modId r = m) rows.

Definition group_keys (rows : list Row) : list Z :=
  remove_dups (map modId rows).

Definition max_rowids (rows : list Row) : list Z :=
  map (fun m => max_rowid (group rows m)) (group_keys rows).

Definition mods (db : t) : list Row :=
  filter (fun r => rowid r ∈ max_rowids (mods_raw db)) (mods_raw db).

(** [should_update] (lines 56-62): is there no row with this [modId] and
    this [lastUpdate]? *)
Definition matches (mod_id : Z) (last_update : string) (r : Row) : bool :=
  (modId r =? mod_id) && String.eqb (lastUpdate r) last_update.

Definition should_update (db : t) (mod_id : Z) (last_update : string)
  : result bool :=
  match bind_int mod_id with
  | Raise e => Raise e
  | Ok m =>
      match filter (fun r => matches m last_update r = true) (mods_raw db) with
      | [] => Ok true           (* fetchone() is None *)
      | _ :: _ => Ok false
      end
  end.

(** [add] (lines 64-71).  The connection is opened with
    [isolation_level=None]: every statement is committed as it runs, so
    the row of [mods_raw] stays when a later step raises. *)
Section Add.
Variable json_dumps : json -> string.   (* json.dumps(_, indent=2) *)

Definition insert_mod (row : Z -> Row) : M t Z :=
  fun db =>
    let row_id := next_rowid (mods_raw db) in
    (Ok row_id, mkDb (mods_raw db ++ [row row_id]) (mod_tags db)).

Definition insert_tag (row_id : Z) (tg : json) : M t unit :=
  v <- lift (int_column tg) ;;
  fun db => (Ok tt, mkDb (mods_raw db) (mod_tags db ++ [mkTag row_id v])).

Definition add (mod_json : json) : M t unit :=
  p_modId <- lift (subscript mod_json "modId") ;;
  p_modName <- lift (subscript mod_json "modName") ;;
  p_modTypeId <- lift (subscript mod_json "modTypeId") ;;
  p_createDate <- lift (subscript mod_json "createDate") ;;
  p_lastUpdate <- lift (subscript mod_json "lastUpdate") ;;
  let p_json := json_dumps mod_json in
  c_modId <- lift (int_column p_modId) ;;
  c_modName <- lift (text_column p_modName) ;;
  c_modTypeId <- lift (int_column p_modTypeId) ;;
  c_createDate <- lift (text_column p_createDate) ;;
  c_lastUpdate <- lift (text_column p_lastUpdate) ;;
  row_id <- insert_mod (fun id => mkRow id c_modId c_modName c_modTypeId
                                    c_createDate c_lastUpdate p_json) ;;
  tags <- lift (subscript mod_json "modTagIds") ;;
  params <- lift (py_iter tags) ;;
  for_each params (insert_tag row_id).
End Add.

End Database.

(** ** The world the script runs in *)

Inductive Method : Type := GET | POST.

(** A call of [requests.get] / [requests.post]: the URL, the JSON body of a
    POST and the cookies sent along. *)
Record Request : Type := mkRequest {
  method : Method;
  url : string;
  body : option json;
  cookies : json
}.

(** A [requests.Response]: [json_body] is what [response.json()] returns,
    [None] when it raises. *)
Record Response : Type := mkResponse {
  status_code : Z;
  text : string;
  json_body : option json
}.

(** What a network call does: it raises, or a response arrives. *)
Inductive Outcome : Type :=
| Failed
| Replied (r : Response).

(** What a call of [subprocess.run] does: the program runs, changes the
    files and exits with a return code, or it cannot be started (no such
    file, no permission) and the call raises. *)
Inductive Run : Type :=
| Exited (returncode : Z) (fs : gmap string string)
| NotStarted (e : exn).

(** What the script did to its surroundings, oldest first: a network
    call, a sleep, a run of a program, a program that could not be
    started. *)
Inductive Event : Type :=
| ERequest (r : Request)
| ESleep (seconds : Z)
| ERun (program : string)
| ENotStarted (program : string).

(** The module globals read from [config.json] (lines 12-15), the mutable
    global [COOKIES], the files next to the script, the store, the events so
    far, and the two things outside the script's control: how the remote
    answers the [n]-th network call, and what the [n]-th call of the
    refresh script does. *)
Record World : Type := mkWorld {
  COOKIE_PATH : string;
  COOKIE_REFRESH_SCRIPT : string;
  COOKIES : json;
  files : gmap string string;
  db : Database.t;
  trace : list Event;
  remote : nat -> Request -> Outcome;
  refresh_script : nat -> gmap string string -> Run
}.

Definition set_COOKIES (c : json) (w : World) : World :=
  mkWorld (COOKIE_PATH w) (COOKIE_REFRESH_SCRIPT w) c (files w) (db w)
          (trace w) (remote w) (refresh_script w).

Definition set_files (fs : gmap string string) (w : World) : World :=
  mkWorld (COOKIE_PATH w) (COOKIE_REFRESH_SCRIPT w) (COOKIES w) fs (db w)
          (trace w) (remote w) (refresh_script w).

Definition set_db (d : Database.t) (w : World) : World :=
  mkWorld (COOKIE_PATH w) (COOKIE_REFRESH_SCRIPT w) (COOKIES w) (files w) d
          (trace w) (remote w) (refresh_script w).

Definition log (e : Event) (w : World) : World :=
  mkWorld (COOKIE_PATH w) (COOKIE_REFRESH_SCRIPT w) (COOKIES w) (files w) (db w)
          (trace w ++ [e]) (remote w) (refresh_script w).

(** The calls of [subprocess.run], whether the program started or not. *)
Definition is_run (e : Event) : bool :=
  match e with ERun _ | ENotStarted _ => true | _ => false end.

(** The network calls in a trace, in order. *)
Fixpoint requests (tr : list Event) : list Request :=
  match tr with
  | [] => []
  | ERequest r :: tr' => r :: requests tr'
  | _ :: tr' => requests tr'
  end.

(** The sleeps in a trace, in order. *)
Fixpoint sleeps (tr : list Event) : list Z :=
  match tr with
  | [] => []
  | ESleep s :: tr' => s :: sleeps tr'
  | _ :: tr' => sleeps tr'
  end.

Definition n_requests (w : World) : nat := length (requests (trace w)).

Definition n_runs (w : World) : nat :=
  length (List.filter is_run (trace w)).

(** *** Primitive effects *)

Definition http (m : Method) (u : string) (b : option json) : M World Response :=
  fun w =>
    let req := mkRequest m u b (COOKIES w) in
    match remote w (n_requests w) req with
    | Failed => (Raise RequestException, log (ERequest req) w)
    | Replied r => (Ok r, log (ERequest req) w)
    end.

Definition requests_post (u : string) (b : json) : M World Response :=
  http POST u (Some b).

Definition requests_get (u : string) : M World Response :=
  http GET u None.

Definition response_json (r : Response) : result json :=
  match json_body r with
  | Some j => Ok j
  | None => Raise JSONDecodeError
  end.

Definition sleep (seconds : Z) : M World unit :=
  fun w => (Ok tt, log (ESleep seconds) w).

Definition is_file (path : string) : M World bool :=
  fun w => (Ok (bool_decide (is_Some (files w !! path))), w).

Definition read_text (path : string) : M World string :=
  fun w => match files w !! path with
           | Some t => (Ok t, w)
           | None => (Raise (FileNotFoundError path), w)
           end.

Definition write_text (path content : string) : M World unit :=
  fun w => (Ok tt, set_files (<[path := content]> (files w)) w).

(** [Path.rename], as on POSIX: a file that is already at [dst] is
    replaced. *)
Definition rename (src dst : string) : M World unit :=
  fun w => match files w !! src with
           | Some t => (Ok tt, set_files (<[dst := t]> (delete src (files w))) w)
           | None => (Raise (FileNotFoundError src), w)
           end.

(** [subprocess.run([COOKIE_REFRESH_SCRIPT], check=True)] *)
Definition subprocess_run_check : M World unit :=
  fun w =>
    match refresh_script w (n_runs w) (files w) with
    | NotStarted e => (Raise e, log (ENotStarted (COOKIE_REFRESH_SCRIPT w)) w)
    | Exited status fs =>
        let w' := log (ERun (COOKIE_REFRESH_SCRIPT w)) (set_files fs w) in
        if status =? 0 then (Ok tt, w')
        else (Raise (CalledProcessError status), w')
    end.

(** A method of the store run on the store of the world. *)
Definition on_db {A} (m : M Database.t A) : M World A :=
  fun w => let '(r, d) := m (db w) in (r, set_db d w).

(** ** The script *)

Section Script.

(** [json.loads] ([None] when it raises) and [json.dumps(_, indent=2)]. *)
Variable json_loads : string -> option json.
Variable json_dumps : json -> string.

Definition loads (s : string) : result json :=
  match json_loads s with
  | Some j => Ok j
  | None => Raise JSONDecodeError
  end.

(** [update_cookies] (lines 77-80) *)
Definition update_cookies : M World unit :=
  _ <- subprocess_run_check ;;
  s <- (fun w => read_text (COOKIE_PATH w) w) ;;
  c <- lift (loads s) ;;
  fun w => (Ok tt, set_COOKIES c w).

(** The body of the POST to the search endpoint. *)
Definition find_query (start count : Z) : json :=
  JDict [("start", JInt start); ("count", JInt count); ("q", JStr EmptyString);
         ("game", JInt 2); ("modid", JInt 0); ("status", JStr EmptyString);
         ("sort", JStr "createDate"); ("order", JStr "ASC")].

(** The two [except] clauses shared by the three fetch loops: refresh on
    [InvalidCookiesException], otherwise sleep; both go on with the next
    iteration of the loop. *)
Definition on_failure {A} (pause : Z) (e : exn) : M World (option A) :=
  match e with
  | InvalidCookiesException => _ <- update_cookies ;; ret None
  | _ => _ <- sleep pause ;; ret None
  end.

(** [fetch_page] (lines 106-128): one iteration of the loop, the loop over
    a given list of iterations, and the function. *)
Definition fetch_page_attempt (i : Z) : M World (option json) :=
  try_except
    (response <- requests_post FIND_URL (find_query i PAGE_SIZE) ;;
     if status_code response =? 401 then raise InvalidCookiesException
     else
       rj <- lift (response_json response) ;;
       mod_list <- lift (subscript rj "modList") ;;
       ret (Some mod_list))
    (on_failure 5).

Definition fetch_page_loop (i : Z) (attempts : list Z) : M World json :=
  for_ attempts (fun _ => fetch_page_attempt i)
    (raise (Exception ("Max retries exceeded for page " +:+ str i))).

Definition fetch_page (i : Z) : M World json :=
  fetch_page_loop i (range 0 RETRIES).

(** [fetch_total_count] (lines 131-151) *)
Definition fetch_total_count_attempt (i : Z) : M World (option json) :=
  try_except
    (response <- requests_post FIND_URL (find_query 1 1) ;;
     if status_code response =? 401 then raise InvalidCookiesException
     else
       rj <- lift (response_json response) ;;
       total_count <- lift (subscript rj "totalCount") ;;
       match total_count with
       | JNull =>
           _ <- write_text ("response" +:+ str i +:+ "_tmp.json") (text response) ;;
           _ <- sleep (5 * i) ;;
           ret None
       | _ => ret (Some total_count)
       end)
    (on_failure (5 * i)).

Definition fetch_total_count_loop (attempts : list Z) : M World json :=
  for_ attempts fetch_total_count_attempt
    (raise (Exception "Max retries exceeded when fetching total count")).

Definition fetch_total_count : M World json :=
  fetch_total_count_loop (range 1 (RETRIES * 10)).

(** [fetch_details] (lines 154-166) *)
Definition fetch_details_attempt (mod_id : Z) : M World (option json) :=
  try_except
    (response <- requests_get (DETAILS_URL mod_id) ;;
     if status_code response =? 401 then raise InvalidCookiesException
     else
       rj <- lift (response_json response) ;;
       ret (Some rj))
    (on_failure 5).

Definition fetch_details_loop (mod_id : Z) (attempts : list Z) : M World json :=
  for_ attempts (fun _ => fetch_details_attempt mod_id)
    (raise (Exception ("Max retries exceeded for mod_id " +:+ str mod_id))).

Definition fetch_details (mod_id : Z) : M World json :=
  fetch_details_loop mod_id (range 0 RETRIES).

(** [main] (lines 82-103), in its three parts. *)

(** An operand of [total_count - 1]: an int, or a bool counted as 0 or 1. *)
Definition as_number (j : json) : result Z :=
  match j with
  | JInt z => Ok z
  | JBool b => Ok (Z.b2z b)
  | _ => Raise TypeError
  end.

Definition pages_count (total_count : Z) : Z :=
  (total_count - 1) `div` PAGE_SIZE + 1.

(** Lines 91-94: the pages of the given indices, fetched one after the
    other and appended to [mod_list]. *)
Fixpoint fetch_pages (indices : list Z) (mod_list : list json)
  : M World (list json) :=
  match indices with
  | [] => ret mod_list
  | i :: rest =>
      page <- fetch_page i ;;
      entries <- lift (py_iter page) ;;
      fetch_pages rest (mod_list ++ entries)
  end.

(** Lines 88-95: the index is built from the remote and saved. *)
Definition build_index : M World json :=
  total_count <- fetch_total_count ;;
  n <- lift (as_number total_count) ;;
  mod_list <- fetch_pages (range 1 (pages_count n + 1)) [] ;;
  _ <- write_text TMP_FILE (json_dumps (JList mod_list)) ;;
  ret (JList mod_list).

(** Lines 85-95: the saved index if there is one, a new one otherwise. *)
Definition load_or_build_index : M World json :=
  saved <- is_file TMP_FILE ;;
  if saved : bool then
    s <- read_text TMP_FILE ;;
    lift (loads s)
  else build_index.

(** The arguments of [should_update] and [fetch_details] at their
    annotated types, [mod_id: int] and [last_update: str]. *)
Definition as_int (j : json) : result Z :=
  match j with JInt z => Ok z | _ => Raise Unmodelled end.

Definition as_str (j : json) : result string :=
  match j with JStr s => Ok s | _ => Raise Unmodelled end.

Definition should_update (mod_id : Z) (last_update : string) : M World bool :=
  fun w => (Database.should_update (db w) mod_id last_update, w).

(** Lines 97-102: the body of the loop over the index. *)
Definition process_entry (mod_ : json) : M World unit :=
  mod_id <- lift (subscript mod_ "modId") ;;
  last_update <- lift (subscript mod_ "lastUpdate") ;;
  m <- lift (as_int mod_id) ;;
  l <- lift (as_str last_update) ;;
  changed <- should_update m l ;;
  if changed : bool then
    details <- fetch_details m ;;
    on_db (Database.add json_dumps details)
  else ret tt.

(** Lines 96-102 *)
Definition process_entries (mod_list : json) : M World unit :=
  entries <- lift (py_iter mod_list) ;;
  for_each entries process_entry.

Definition main : M World unit :=
  _ <- (fun w => (Ok tt, set_db (Database._init_db (db w)) w)) ;;
  mod_list <- load_or_build_index ;;
  _ <- process_entries mod_list ;;
  rename TMP_FILE MOD_LIST_FILE.

End Script.

(** ** Vocabulary of the properties *)

Module Store.
Import Database.

(** The rowids of a table are positive and pairwise different. *)
Definition keyed (rows : list Row) : Prop :=
  NoDup (map rowid rows) ∧ Forall (fun r => 0 < rowid r) rows.

(** [j] has an integer under [key] that fits a column of type [int]. *)
Definition has_int (j : json) (key : string) (z : Z) : Prop :=
  subscript j key = Ok (JInt z) ∧ in_int64 z = true.

Definition has_str (j : json) (key : string) (s : string) : Prop :=
  subscript j key = Ok (JStr s).

(** A detail record of item [m] last updated at [l]: the five columns and
    the tag list are there, at the types of the schema. *)
Record detail_record (j : json) (m : Z) (l : string) : Prop := {
  dr_modId : has_int j "modId" m;
  dr_modName : ∃ s, has_str j "modName" s;
  dr_modTypeId : ∃ z, has_int j "modTypeId" z;
  dr_createDate : ∃ s, has_str j "createDate" s;
  dr_lastUpdate : has_str j "lastUpdate" l;
  dr_modTagIds : ∃ ts, subscript j "modTagIds" = Ok (JList (map JInt ts))
                       ∧ Forall (fun z => in_int64 z = true) ts
}.

Section Reach.
Variable json_dumps : json -> string.

(** The stores that calls of [add], failed or not, make of a new store. *)
Inductive reachable : t -> Prop :=
| reach_empty : reachable empty
| reach_add (j : json) (db : t) :
    reachable db -> reachable (add json_dumps j db).2.

(** [add] called on each record in turn. *)
Definition add_all (js : list json) : M t unit :=
  for_each js (add json_dumps).
End Reach.
End Store.

Module Net.

(** The three requests the script sends, with the cookies of the moment. *)
Definition page_request (i : Z) (w : World) : Request :=
  mkRequest POST FIND_URL (Some (find_query i PAGE_SIZE)) (COOKIES w).

Definition count_request (w : World) : Request :=
  mkRequest POST FIND_URL (Some (find_query 1 1)) (COOKIES w).

Definition details_request (mod_id : Z) (w : World) : Request :=
  mkRequest GET (DETAILS_URL mod_id) None (COOKIES w).

(** The answer the remote gives to the next network call. *)
Definition answer (w : World) (req : Request) : Outcome :=
  remote w (n_requests w) req.

(** The answer is an HTTP 401. *)
Definition unauthorized (o : Outcome) : bool :=
  match o with
  | Failed => false
  | Replied r => status_code r =? 401
  end.

(** A transient failure of an attempt of [fetch_page]: the call raises,
    or the response is no 401 and its body is no JSON or has no
    [modList]. *)
Definition page_transient (o : Outcome) : bool :=
  match o with
  | Failed => true
  | Replied r =>
      negb (status_code r =? 401)
      && match json_body r with
         | None => true
         | Some j => match subscript j "modList" with
                     | Ok _ => false
                     | Raise _ => true
                     end
         end
  end.

(** A transient failure of an attempt of [fetch_details]. *)
Definition details_transient (o : Outcome) : bool :=
  match o with
  | Failed => true
  | Replied r =>
      negb (status_code r =? 401)
      && match json_body r with None => true | Some _ => false end
  end.

(** The response has a JSON body whose [totalCount] is null. *)
Definition null_count (r : Response) : bool :=
  negb (status_code r =? 401)
  && match json_body r with
     | Some j => match subscript j "totalCount" with
                 | Ok JNull => true
                 | _ => false
                 end
     | None => false
     end.

(** The entries of the page an answer carries, when the attempt of
    [fetch_page] that receives it succeeds and the page can be appended
    to the index. *)
Definition served_page (o : Outcome) : option (list json) :=
  match o with
  | Failed => None
  | Replied r =>
      if status_code r =? 401 then None
      else match json_body r with
           | None => None
           | Some j => match subscript j "modList" with
                       | Ok page => match py_iter page with
                                    | Ok entries => Some entries
                                    | Raise _ => None
                                    end
                       | Raise _ => None
                       end
           end
  end.

(** The total count an answer carries, when the attempt of
    [fetch_total_count] that receives it returns. *)
Definition served_count (o : Outcome) : option json :=
  match o with
  | Failed => None
  | Replied r =>
      if status_code r =? 401 then None
      else match json_body r with
           | None => None
           | Some j => match subscript j "totalCount" with
                       | Ok JNull => None
                       | Ok total_count => Some total_count
                       | Raise _ => None
                       end
           end
  end.

(** The world after the calls for the pages of the given indices, each
    answered at the first attempt. *)
Definition paged (indices : list Z) (w : World) : World :=
  foldl (fun w' i => log (ERequest (page_request i w')) w') w indices.

(** A request for the details of some item. *)
Definition is_details_request (r : Request) : Prop :=
  method r = GET ∧ body r = None ∧ ∃ m, url r = DETAILS_URL m.

(** The world after an attempt that failed and slept. *)
Definition failed_attempt (req : Request) (pause : Z) (w : World) : World :=
  log (ESleep pause) (log (ERequest req) w).

(** The world after a 401 whose refresh went through: the request, the
    run of the script that left the files [fs], the new cookies [c]. *)
Definition refreshed (req : Request) (fs : gmap string string) (c : json)
    (w : World) : World :=
  set_COOKIES c
    (log (ERun (COOKIE_REFRESH_SCRIPT w)) (set_files fs (log (ERequest req) w))).

(** The world after an attempt of [fetch_total_count] number [i] that got
    a null count in the response [r]. *)
Definition null_attempt (i : Z) (r : Response) (w : World) : World :=
  log (ESleep (5 * i))
    (set_files (<["response" +:+ str i +:+ "_tmp.json" := text r]> (files w))
       (log (ERequest (count_request w)) w)).

(** The world after attempts of the given numbers that got the null
    counts of the given responses, one after the other. *)
Fixpoint null_attempts (attempts : list Z) (rs : list Response) (w : World)
  : World :=
  match attempts, rs with
  | i :: attempts', r :: rs' => null_attempts attempts' rs' (null_attempt i r w)
  | _, _ => w
  end.

(** The network calls made from [w] to [w'] are [extra]. *)
Definition calls (w w' : World) (extra : list Request) : Prop :=
  requests (trace w') = requests (trace w) ++ extra.

(** An entry of the index whose id and timestamp are in the store. *)
Definition stored (d : Database.t) (entry : json) : Prop :=
  ∃ (m : Z) (l : string),
    subscript entry "modId" = Ok (JInt m)
    ∧ subscript entry "lastUpdate" = Ok (JStr l)
    ∧ Database.in_int64 m = true
    ∧ ∃ r, r ∈ Database.mods_raw d
           ∧ Database.modId r = m ∧ Database.lastUpdate r = l.


(** A computation whose only network calls ask for details. *)
Definition only_details {A} (m : M World A) : Prop :=
  ∀ w, ∃ extra, calls w (m w).2 extra ∧ Forall is_details_request extra.

(** The reading of "a 401 does not use up an attempt of [fetch_page]":
    after the 401 and the refresh, the loop has the attempts it had. *)
Definition unauthorized_is_free : Prop :=
  ∀ (json_loads : string -> option json) (w : World) (i a : Z)
    (rest : list Z) (fs : gmap string string) (s : string) (c : json),
    (∀ req, unauthorized (answer w req) = true) →
    refresh_script w (n_runs w) (files w) = Exited 0 fs →
    fs !! COOKIE_PATH w = Some s →
    json_loads s = Some c →
    fetch_page_loop json_loads i (a :: rest) w
    = fetch_page_loop json_loads i (a :: rest)
        (refreshed (page_request i w) fs c w).

End Net.

(** ** Concrete worlds, for the examples *)

Module Sample.

(** A [json.loads] that knows the texts of the examples, and a
    [json.dumps] that writes nothing. *)
Definition loads (s : string) : option json :=
  if String.eqb s "{}" then Some (JDict [])
  else if String.eqb s "[]" then Some (JList [])
  else None.

Definition dumps (j : json) : string := EmptyString.

(** A new installation: a cookie file, an empty store, a refresh script
    that succeeds and leaves the files alone. *)
Definition world (remote : nat -> Request -> Outcome) : World :=
  mkWorld "cookies.json" "refresh.sh" (JDict [])
    (<["cookies.json" := "{}"]> ∅) Database.empty [] remote
    (fun _ fs => Exited 0 fs).

Definition reply (status : Z) (j : json) : Outcome :=
  Replied (mkResponse status EmptyString (Some j)).

Definition detail (m : Z) (l : string) : json :=
  JDict [("modId", JInt m); ("modName", JStr "a mod"); ("modTypeId", JInt 1);
         ("createDate", JStr "2023-01-01"); ("lastUpdate", JStr l);
         ("modTagIds", JList [JInt 3; JInt 5])].

Definition entry (m : Z) (l : string) : json :=
  JDict [("modId", JInt m); ("lastUpdate", JStr l)].

(** A remote whose first answer is a 401, whose next two calls fail and
    which then serves an empty page. *)
Definition flaky (n : nat) (req : Request) : Outcome :=
  match n with
  | O => Replied (mkResponse 401 EmptyString None)
  | S O | S (S O) => Failed
  | _ => reply 200 (JDict [("modList", JList [])])
  end.

(** A remote that answers every call with a 500 whose body has the
    fields of a detail record. *)
Definition broken (n : nat) (req : Request) : Outcome :=
  reply 500 (detail 42 "2024-01-01").

(** Remotes that answer every call the same way: with a 401, with no
    answer at all, with a null count, and with a count of 2500 and a page
    of one entry. *)
Definition locked (n : nat) (req : Request) : Outcome :=
  Replied (mkResponse 401 EmptyString None).

Definition offline (n : nat) (req : Request) : Outcome := Failed.

Definition null_reply : Response :=
  mkResponse 200 "{totalCount: null}" (Some (JDict [("totalCount", JNull)])).

Definition undecided (n : nat) (req : Request) : Outcome := Replied null_reply.

Definition catalog (n : nat) (req : Request) : Outcome :=
  reply 200 (JDict [("totalCount", JInt 2500);
                    ("modList", JList [entry 7 "2024-03-01"])]).

(** The world of a run that finds a saved index. *)
Definition resumed (remote : nat -> Request -> Outcome) : World :=
  set_files (<[TMP_FILE := "[]"]> (files (world remote))) (world remote).

(** A world whose store has one version of item 42. *)
Definition stocked (remote : nat -> Request -> Outcome) : World :=
  set_db (Database.mkDb
            [Database.mkRow 1 42 "a mod" 1 "2023-01-01" "2024-01-01" EmptyString] [])
    (world remote).

End Sample.

(** ** Further vocabulary: the integrity of the store, recovery *)

Module Integrity.
Import Database.

(** The keys [add] reads for the columns of [mods_raw], in the order it
    reads them (line 65). *)
Definition columns : list string :=
  ["modId"; "modName"; "modTypeId"; "createDate"; "lastUpdate"].

(** The rowids of a table are 1, 2, ..., in the order of insertion. *)
Definition numbered (rows : list Row) : Prop :=
  map rowid rows = seqZ 1 (Z.of_nat (length rows)).

(** Every row of [mod_tags] points to a row of [mods_raw]. *)
Definition tags_refer (db : t) : Prop :=
  ∀ tg, tg ∈ mod_tags db → ∃ r, r ∈ mods_raw db ∧ rowid r = modRowId tg.

(** [SELECT tag FROM mod_tags WHERE modRowId = row_id] *)
Definition tags_of (db : t) (row_id : Z) : list Z :=
  map tag (filter (fun tg => modRowId tg = row_id) (mod_tags db)).

End Integrity.

Module Recovery.

(** What an attempt of [fetch_page] returns on this answer, if it
    returns: the [modList] of the body. *)
Definition page_of (o : Outcome) : option json :=
  match o with
  | Failed => None
  | Replied r =>
      if status_code r =? 401 then None
      else match json_body r with
           | None => None
           | Some j => match subscript j "modList" with
                       | Ok page => Some page
                       | Raise _ => None
                       end
           end
  end.

(** What an attempt of [fetch_details] returns on this answer, if it
    returns: the body. *)
Definition details_of (o : Outcome) : option json :=
  match o with
  | Failed => None
  | Replied r => if status_code r =? 401 then None else json_body r
  end.

(** The world after a 401 whose refresh failed: the request and the run of
    the script, which left the files [fs]. *)
Definition refused (req : Request) (fs : gmap string string) (w : World)
  : World :=
  log (ERun (COOKIE_REFRESH_SCRIPT w)) (set_files fs (log (ERequest req) w)).

(** A remote that answers every call with a 401 while every refresh goes
    through: whatever the files are, the script starts, exits with 0 and
    leaves a cookie file that parses. *)
Definition locked_out (json_loads : string -> option json) (w : World) : Prop :=
  (∀ n req, Net.unauthorized (remote w n req) = true)
  ∧ (∀ n fs, ∃ fs' s c,
       refresh_script w n fs = Exited 0 fs'
       ∧ fs' !! COOKIE_PATH w = Some s ∧ json_loads s = Some c).

(** From [w] to [w'] the script made [k] network calls and [k] calls of
    the refresh script, never slept and left the store alone. *)
Definition refreshed_times (k : nat) (w w' : World) : Prop :=
  sleeps (trace w') = sleeps (trace w)
  ∧ n_requests w' = (k + n_requests w)%nat
  ∧ n_runs w' = (k + n_runs w)%nat
  ∧ db w' = db w.

(** A computation that leaves the store as it is. *)
Definition keeps_store {A} (m : M World A) : Prop :=
  ∀ w, db (m w).2 = db w.

End Recovery.

(** ** More concrete worlds *)

Module Cases.

(** A saved index of two entries, and one with an entry that has no id
    between them. *)
Definition index : json :=
  JList [Sample.entry 42 "2024-01-01"; Sample.entry 43 "2024-05-05"].

Definition damaged_index : json :=
  JList [Sample.entry 42 "2024-01-01"; JDict []; Sample.entry 43 "2024-05-05"].

Definition loads (s : string) : option json :=
  if String.eqb s "index" then Some index
  else if String.eqb s "damaged index" then Some damaged_index
  else Sample.loads s.

(** A remote whose first two calls fail and which then answers with a
    body that has a count, a page and the fields of a record. *)
Definition full_body : json :=
  JDict [("totalCount", JInt 2500);
         ("modList", JList [Sample.entry 7 "2024-03-01"]);
         ("modId", JInt 42); ("modName", JStr "a mod"); ("modTypeId", JInt 1);
         ("createDate", JStr "2023-01-01"); ("lastUpdate", JStr "2024-01-01");
         ("modTagIds", JList [JInt 3; JInt 5])].

Definition recovering (n : nat) (req : Request) : Outcome :=
  match n with
  | O | S O => Failed
  | _ => Sample.reply 200 full_body
  end.

(** A remote that has no count for the first two calls. *)
Definition hesitant (n : nat) (req : Request) : Outcome :=
  match n with
  | O | S O => Replied Sample.null_reply
  | _ => Sample.reply 200 full_body
  end.

(** A remote that serves the details of item 42. *)
Definition detailed (n : nat) (req : Request) : Outcome :=
  Sample.reply 200 (Sample.detail 42 "2024-01-01").

(** A remote with an empty catalog. *)
Definition bare (n : nat) (req : Request) : Outcome :=
  Sample.reply 200 (JDict [("totalCount", JInt 0); ("modList", JList [])]).

(** A remote that answers the call for the count and the call for the
    first page, and none after. *)
Definition fading (n : nat) (req : Request) : Outcome :=
  match n with
  | O | S O => Sample.reply 200 full_body
  | _ => Failed
  end.

(** A world whose refresh script exits with 1. *)
Definition unrefreshable (remote : nat -> Request -> Outcome) : World :=
  mkWorld "cookies.json" "refresh.sh" (JDict [])
    (<["cookies.json" := "{}"]> ∅) Database.empty [] remote
    (fun _ fs => Exited 1 fs).

(** A world whose refresh script deletes the cookie file. *)
Definition forgetful (remote : nat -> Request -> Outcome) : World :=
  mkWorld "cookies.json" "refresh.sh" (JDict [])
    (<["cookies.json" := "{}"]> ∅) Database.empty [] remote
    (fun _ fs => Exited 0 (delete "cookies.json" fs)).

(** A world with a saved index whose text is [s] and a store that has one
    version of item 42. *)
Definition interrupted (s : string) (remote : nat -> Request -> Outcome)
  : World :=
  set_files (<[TMP_FILE := s]> (files (Sample.stocked remote)))
    (Sample.stocked remote).

(** A world whose store has the one entry of the catalog. *)
Definition mirrored (remote : nat -> Request -> Outcome) : World :=
  set_db (Database.mkDb
            [Database.mkRow 1 7 "a mod" 1 "2023-01-01" "2024-03-01" EmptyString] [])
    (Sample.world remote).

(** A record without a name, and one without tags. *)
Definition nameless : json :=
  JDict [("modId", JInt 42); ("modTypeId", JInt 1);
         ("createDate", JStr "2023-01-01"); ("lastUpdate", JStr "2024-01-01");
         ("modTagIds", JList [])].

Definition untagged : json :=
  JDict [("modId", JInt 42); ("modName", JStr "a mod"); ("modTypeId", JInt 1);
         ("createDate", JStr "2023-01-01"); ("lastUpdate", JStr "2024-01-01")].

(** The store after one record of item 42. *)
Definition one_version : Database.t :=
  (Database.add Sample.dumps (Sample.detail 42 "2024-01-01") Database.empty).2.

End Cases.

(** ** Worlds whose refresh script does something *)

Module Scenes.

(** The cookies the script writes, and a [json.loads] that knows their
    text. *)
Definition fresh_cookies : json := JDict [("session", JStr "fresh")].

Definition loads (s : string) : option json :=
  if String.eqb s "fresh" then Some fresh_cookies else Sample.loads s.

(** A world whose refresh script writes new cookies to the cookie file. *)
Definition renewing (remote : nat -> Request -> Outcome) : World :=
  mkWorld "cookies.json" "refresh.sh" (JDict [])
    (<["cookies.json" := "{}"]> ∅) Database.empty [] remote
    (fun _ fs => Exited 0 (<["cookies.json" := "fresh"]> fs)).

(** A world whose refresh script may not be executed. *)
Definition unstartable (remote : nat -> Request -> Outcome) : World :=
  mkWorld "cookies.json" "refresh.sh" (JDict [])
    (<["cookies.json" := "{}"]> ∅) Database.empty [] remote
    (fun _ _ => NotStarted (PermissionError "refresh.sh")).

(** A remote that has no count at first, then the count, then fails once
    and serves every page after. *)
Definition stuttering (n : nat) (req : Request) : Outcome :=
  match n with
  | O => Replied Sample.null_reply
  | S O => Sample.reply 200 Cases.full_body
  | S (S O) => Failed
  | _ => Sample.reply 200 Cases.full_body
  end.

End Scenes.

(** ** Vocabulary of the index *)

Module Paging.

(** From [w], the calls of [fetch_page] for the given indices, each made
    in the world the one before left, return pages whose entries are
    [pages], and leave [w']. *)
Inductive pages_fetched (json_loads : string -> option json)
  : list Z -> World -> list (list json) -> World -> Prop :=
| fetched_none (w : World) : pages_fetched json_loads [] w [] w
| fetched_next (i : Z) (rest : list Z) (w w1 w2 : World) (page : json)
    (entries : list json) (pages : list (list json)) :
    fetch_page json_loads i w = (Ok page, w1) ->
    py_iter page = Ok entries ->
    pages_fetched json_loads rest w1 pages w2 ->
    pages_fetched json_loads (i :: rest) w (entries :: pages) w2.

End Paging.

(** * Properties *)

(** ** The store *)

Module StoreFacts.
Import Database Store.

Lemma max_rowid_ge rows r : r ∈ rows → rowid r ≤ max_rowid rows.
Proof.
  induction rows as [|r0 rows IH]; intros Hin.
  - by apply not_elem_of_nil in Hin.
  - apply elem_of_cons in Hin as [->|Hin]; simpl; [lia|].
    specialize (IH Hin). lia.
Qed.

Lemma max_rowid_nonneg rows : 0 ≤ max_rowid rows.
Proof. induction rows as [|r0 rows IH]; simpl; lia. Qed.

Lemma max_rowid_attained rows :
  rows ≠ [] → Forall (fun r => 0 < rowid r) rows →
  ∃ r, r ∈ rows ∧ rowid r = max_rowid rows.
Proof.
  induction rows as [|r0 rows IH]; [done|]. intros _ Hpos.
  apply Forall_cons in Hpos as [Hr0 Hpos].
  destruct rows as [|r1 rows].
  - exists r0. split; [by apply list_elem_of_here|]. simpl. lia.
  - destruct (IH ltac:(done) Hpos) as (r & Hin & Hr).
    destruct (Z.le_gt_cases (rowid r0) (max_rowid (r1 :: rows))).
    + exists r. split; [by apply list_elem_of_further|]. change (max_rowid (r0 :: r1 :: rows))
        with (Z.max (rowid r0) (max_rowid (r1 :: rows))). lia.
    + exists r0. split; [by apply list_elem_of_here|]. change (max_rowid (r0 :: r1 :: rows))
        with (Z.max (rowid r0) (max_rowid (r1 :: rows))). lia.
Qed.

Lemma keyed_nil : keyed [].
Proof. split; [constructor|constructor]. Qed.

Lemma keyed_snoc rows r :
  keyed rows → rowid r = next_rowid rows → keyed (rows ++ [r]).
Proof.
  intros [Hnd Hpos] Hr. split.
  - rewrite map_app. apply NoDup_app. split_and!; [done| |apply NoDup_singleton].
    intros x Hx Hx'. apply list_elem_of_singleton in Hx'. subst x.
    apply list_elem_of_fmap in Hx as (r' & Heq & Hin).
    apply max_rowid_ge in Hin. unfold next_rowid in Hr. lia.
  - apply Forall_app. split; [done|]. apply Forall_singleton.
    pose proof (max_rowid_nonneg rows). unfold next_rowid in Hr. lia.
Qed.

Lemma keyed_inj rows r1 r2 :
  keyed rows → r1 ∈ rows → r2 ∈ rows → rowid r1 = rowid r2 → r1 = r2.
Proof.
  intros [Hnd _] H1 H2 Heq.
  apply list_elem_of_lookup in H1 as [i Hi], H2 as [k Hk].
  assert (i = k) as ->.
  { apply (NoDup_lookup (map rowid rows) i k (rowid r1) Hnd).
    - by rewrite list_lookup_fmap, Hi.
    - rewrite list_lookup_fmap, Hk. simpl. by rewrite Heq. }
  congruence.
Qed.

Lemma keyed_NoDup rows : keyed rows → NoDup rows.
Proof. intros [Hnd _]. by eapply NoDup_fmap_1. Qed.

Lemma NoDup_all_eq {A} (l : list A) (a : A) :
  NoDup l → a ∈ l → (∀ x, x ∈ l → x = a) → l = [a].
Proof.
  intros Hnd Hin Hall. destruct l as [|x l]; [by apply not_elem_of_nil in Hin|].
  assert (x = a) as -> by (apply Hall, list_elem_of_here).
  destruct l as [|y l]; [done|].
  assert (y = a) as -> by (apply Hall, list_elem_of_further, list_elem_of_here).
  apply NoDup_cons in Hnd as [Hnotin _]. exfalso. apply Hnotin, list_elem_of_here.
Qed.

Lemma group_spec rows m r : r ∈ group rows m ↔ modId r = m ∧ r ∈ rows.
Proof. unfold group. by rewrite list_elem_of_filter. Qed.

Lemma group_max rows m :
  keyed rows → m ∈ map modId rows →
  ∃ r, r ∈ rows ∧ modId r = m ∧ rowid r = max_rowid (group rows m).
Proof.
  intros [_ Hpos] Hm. apply list_elem_of_fmap in Hm as (r0 & -> & Hr0).
  destruct (max_rowid_attained (group rows (modId r0))) as (r & Hr & Hmax).
  - intros Hnil. assert (r0 ∈ group rows (modId r0)) as Hin by by apply group_spec.
    rewrite Hnil in Hin. by apply not_elem_of_nil in Hin.
  - apply Forall_forall. intros x [_ Hx]%group_spec.
    by eapply Forall_forall in Hpos.
  - apply group_spec in Hr as [? ?]. by exists r.
Qed.

Lemma elem_of_max_rowids rows x :
  x ∈ max_rowids rows ↔
  ∃ m, m ∈ map modId rows ∧ x = max_rowid (group rows m).
Proof.
  unfold max_rowids, group_keys. rewrite list_elem_of_fmap.
  split; intros (m & ? & ?); exists m.
  - split; [by apply elem_of_remove_dups|done].
  - split; [done|by apply elem_of_remove_dups].
Qed.

(** The view keeps, of each item, the row with the largest rowid and no
    other. *)
Lemma mods_latest db m :
  keyed (mods_raw db) → m ∈ map modId (mods_raw db) →
  ∃ r, group (mods db) m = [r] ∧ r ∈ mods_raw db ∧ modId r = m
       ∧ rowid r = max_rowid (group (mods_raw db) m).
Proof.
  intros Hk Hm. destruct (group_max _ _ Hk Hm) as (r & Hr & Hrm & Hmax).
  exists r. split_and!; try done.
  apply NoDup_all_eq.
  - unfold group, mods. by apply NoDup_filter, NoDup_filter, keyed_NoDup.
  - apply group_spec. split; [done|]. unfold mods. apply list_elem_of_filter.
    split; [|done]. apply elem_of_max_rowids. exists m. by rewrite Hmax.
  - intros r' Hr'. apply group_spec in Hr' as [Hm' Hr'].
    unfold mods in Hr'. apply list_elem_of_filter in Hr' as [Hx Hr'].
    apply elem_of_max_rowids in Hx as (m' & Hm'in & Hx).
    destruct (group_max _ _ Hk Hm'in) as (r'' & Hr'' & Hr''m & Hmax'').
    assert (r'' = r') as -> by (eapply keyed_inj; eauto; congruence).
    eapply keyed_inj; eauto. congruence.
Qed.

Section Add.
Variable json_dumps : json -> string.

Lemma insert_tags_mods_raw params row_id db :
  mods_raw (for_each params (insert_tag row_id) db).2 = mods_raw db.
Proof.
  revert db. induction params as [|p params IH]; intros db; [done|].
  simpl. unfold bind at 1. unfold insert_tag at 1, bind, lift.
  destruct (int_column p) as [v|e]; [|done].
  rewrite IH. done.
Qed.

Lemma insert_tags_ok ts row_id db :
  Forall (fun z => in_int64 z = true) ts →
  for_each (map JInt ts) (insert_tag row_id) db
  = (Ok tt, mkDb (mods_raw db) (mod_tags db ++ map (mkTag row_id) ts)).
Proof.
  revert db. induction ts as [|z ts IH]; intros db Hts.
  - simpl. rewrite app_nil_r. by destruct db.
  - apply Forall_cons in Hts as [Hz Hts]. simpl.
    unfold bind at 1. unfold insert_tag at 1, bind, lift. simpl.
    unfold bind_int. rewrite Hz. rewrite IH by done. simpl.
    by rewrite <- app_assoc.
Qed.

Lemma add_mods_raw j db :
  mods_raw (add json_dumps j db).2 = mods_raw db
  ∨ ∃ r, mods_raw (add json_dumps j db).2 = mods_raw db ++ [r]
         ∧ rowid r = next_rowid (mods_raw db).
Proof.
  unfold add, bind, lift.
  repeat (case_match; simplify_eq/=; eauto).
  all: right; eexists; rewrite ?insert_tags_mods_raw; simpl; split; reflexivity.
Qed.

Lemma add_detail j m l db :
  detail_record j m l →
  ∃ n t c ts,
    add json_dumps j db
    = (Ok tt,
       mkDb (mods_raw db
             ++ [mkRow (next_rowid (mods_raw db)) m n t c l (json_dumps j)])
            (mod_tags db ++ map (mkTag (next_rowid (mods_raw db))) ts)).
Proof.
  intros [[Hm Hm64] [n Hn] [t [Ht Ht64]] [c Hc] Hl (ts & Hts & Hts64)].
  exists n, t, c, ts. unfold has_str in *.
  unfold add, bind, lift. rewrite Hm, Hn, Ht, Hc, Hl. simpl.
  unfold bind_int. rewrite Hm64, Ht64. unfold insert_mod.
  rewrite Hts. simpl. by rewrite insert_tags_ok.
Qed.

Lemma reachable_keyed db : reachable json_dumps db → keyed (mods_raw db).
Proof.
  induction 1 as [|j db _ IH]; [apply keyed_nil|].
  destruct (add_mods_raw j db) as [->|(r & -> & Hr)]; [done|].
  by apply keyed_snoc.
Qed.
End Add.
End StoreFacts.

Section StoreTheorems.
Import Database Store StoreFacts.
Variable json_dumps : json -> string.

(** C1.  For an item id that fits the [int] column and any timestamp,
    [should_update] returns a boolean, and it returns [false] exactly when
    the store has a row with this very id and this very timestamp; so it
    returns [true] for an id the store has never seen, and [true] for a
    known id with a timestamp not stored for it.  The comparison is
    equality of strings, not an order on dates. *)
Theorem should_update_exact (db : Database.t) (mod_id : Z) (last_update : string) :
in_int64 mod_id = true →
∃ b : bool,
  Database.should_update db mod_id last_update = Ok b
  ∧ (b = false ↔
     ∃ r, r ∈ mods_raw db ∧ modId r = mod_id ∧ lastUpdate r = last_update)
  ∧ ((∀ r, r ∈ mods_raw db → modId r ≠ mod_id) → b = true)
  ∧ ((∀ r, r ∈ mods_raw db → modId r = mod_id → lastUpdate r ≠ last_update)
     → b = true).
Proof.
intros H64. unfold Database.should_update, bind_int. rewrite H64.
assert (Hmatch : ∀ r, matches mod_id last_update r = true
                      ↔ modId r = mod_id ∧ lastUpdate r = last_update).
{ intros r. unfold matches. rewrite andb_true_iff, Z.eqb_eq, String.eqb_eq. done. }
destruct (filter _ (mods_raw db)) as [|r0 found] eqn:Hsel.
- assert (Hnone : ∀ r, r ∈ mods_raw db →
                       ¬ (modId r = mod_id ∧ lastUpdate r = last_update)).
  { intros r Hr Hr'. apply Hmatch in Hr'.
    assert (r ∈ filter (λ r, matches mod_id last_update r = true) (mods_raw db)) as Hin
      by by apply list_elem_of_filter.
    rewrite Hsel in Hin. by apply not_elem_of_nil in Hin. }
  exists true. split_and!; try done.
  split; [done|]. intros (r & Hr & ? & ?). exfalso. by eapply Hnone.
- assert (r0 ∈ filter (λ r, matches mod_id last_update r = true) (mods_raw db)) as Hin
    by (rewrite Hsel; apply list_elem_of_here).
  apply list_elem_of_filter in Hin as [Hr0 Hin]. apply Hmatch in Hr0 as [Hm Hl].
  exists false. split_and!; try done.
  + split; [|done]. intros _. by exists r0.
  + intros Hnew. exfalso. by eapply Hnew.
  + intros Hnew. exfalso. by eapply Hnew.
Qed.

Lemma add_all_details db m js ls :
  Forall2 (fun j l => detail_record j m l) js ls →
  ∃ new tags,
    add_all json_dumps js db
    = (Ok tt, mkDb (mods_raw db ++ new) (mod_tags db ++ tags))
    ∧ Forall (fun r => modId r = m) new
    ∧ map lastUpdate new = ls.
Proof.
  intros Hjs. revert db. induction Hjs as [|j l js ls Hj _ IH]; intros db.
  - exists [], []. rewrite !app_nil_r. by destruct db.
  - destruct (add_detail json_dumps j m l db Hj) as (n & t & c & ts & Hadd).
    destruct (IH (mkDb (mods_raw db
               ++ [mkRow (next_rowid (mods_raw db)) m n t c l (json_dumps j)])
              (mod_tags db ++ map (mkTag (next_rowid (mods_raw db))) ts)))
      as (new & tags & Hall & Hnew & Hls).
    exists (mkRow (next_rowid (mods_raw db)) m n t c l (json_dumps j) :: new),
           (map (mkTag (next_rowid (mods_raw db))) ts ++ tags).
    split_and!.
    + unfold add_all in *. cbn [for_each]. unfold bind at 1. rewrite Hadd.
      rewrite Hall. cbn [mods_raw mod_tags]. by rewrite <- !app_assoc.
    + by apply Forall_cons.
    + cbn [map lastUpdate]. by rewrite Hls.
Qed.

Lemma add_all_reachable js db :
  reachable json_dumps db → reachable json_dumps (add_all json_dumps js db).2.
Proof.
  revert db. induction js as [|j js IH]; intros db Hdb; [done|].
  unfold add_all. simpl. unfold bind.
  pose proof (reach_add json_dumps j db Hdb) as Hstep.
  destruct (add json_dumps j db) as [[[]|e] db1]; simpl in *; [|done].
  by apply IH.
Qed.

(** C2.  Starting from a store that calls of [add] have built, adding [N]
    detail records of the same item [m] succeeds, leaves the rows that were
    there in place (the old table is a prefix of the new one), and gives
    item [m] exactly [N] more rows, carrying the [N] timestamps in order
    (whether they differ or not).  In the store that results, the view
    [mods] has, for every item id present, exactly one row, and that row
    has the largest rowid among the rows of the item. *)
Theorem append_only_latest_view (db : Database.t) (m : Z) (js : list json)
    (ls : list string) :
  reachable json_dumps db →
  Forall2 (fun j l => detail_record j m l) js ls →
  ∃ db',
    add_all json_dumps js db = (Ok tt, db')
    ∧ mods_raw db `prefix_of` mods_raw db'
    ∧ length (group (mods_raw db') m)
      = (length (group (mods_raw db) m) + length js)%nat
    ∧ map lastUpdate (group (mods_raw db') m)
      = map lastUpdate (group (mods_raw db) m) ++ ls
    ∧ ∀ k, k ∈ map modId (mods_raw db') →
           ∃ r, group (mods db') k = [r]
                ∧ r ∈ mods_raw db' ∧ modId r = k
                ∧ ∀ r', r' ∈ mods_raw db' → modId r' = k → rowid r' ≤ rowid r.
Proof.
  intros Hdb Hjs.
  destruct (add_all_details db m js ls Hjs) as (new & tags & Hall & Hnew & Hls).
  pose proof (add_all_reachable js db Hdb) as Hreach. rewrite Hall in Hreach.
  simpl in Hreach. eexists. split; [exact Hall|]. simpl.
  assert (Hgroup : group (mods_raw db ++ new) m = group (mods_raw db) m ++ new).
  { unfold group. rewrite filter_app. f_equal.
    clear -Hnew. induction Hnew as [|r new Hr _ IH]; [done|].
    rewrite filter_cons_True by done. by rewrite IH. }
  split_and!.
  - by apply prefix_app_r.
  - rewrite Hgroup, length_app. f_equal. rewrite <- (length_map lastUpdate new), Hls.
    symmetry. by eapply Forall2_length.
  - by rewrite Hgroup, map_app, Hls.
  - intros k Hk. apply reachable_keyed in Hreach.
    destruct (mods_latest _ k Hreach Hk) as (r & Hview & Hr & Hrk & Hmax).
    exists r. split_and!; try done.
    intros r' Hr' Hr'k. simpl in Hmax. rewrite Hmax. apply max_rowid_ge.
    by apply group_spec.
Qed.
End StoreTheorems.

(** ** Traces and retry loops *)

Module TraceFacts.
Lemma requests_app tr tr' : requests (tr ++ tr') = requests tr ++ requests tr'.
Proof.
  induction tr as [|e tr IH]; [done|].
  destruct e; simpl; by rewrite IH.
Qed.

Lemma sleeps_app tr tr' : sleeps (tr ++ tr') = sleeps tr ++ sleeps tr'.
Proof.
  induction tr as [|e tr IH]; [done|].
  destruct e; simpl; by rewrite IH.
Qed.

Lemma n_requests_log_request r w :
  n_requests (log (ERequest r) w) = S (n_requests w).
Proof.
  unfold n_requests. simpl. rewrite requests_app, length_app. simpl. lia.
Qed.

Lemma n_requests_log_sleep s w : n_requests (log (ESleep s) w) = n_requests w.
Proof.
  unfold n_requests. simpl. rewrite requests_app, length_app. simpl. lia.
Qed.

Lemma n_requests_log_run p w : n_requests (log (ERun p) w) = n_requests w.
Proof.
  unfold n_requests. simpl. rewrite requests_app, length_app. simpl. lia.
Qed.

Lemma n_runs_log_request r w : n_runs (log (ERequest r) w) = n_runs w.
Proof.
  unfold n_runs. simpl. rewrite List.filter_app, length_app. simpl. lia.
Qed.
End TraceFacts.

Import Net TraceFacts.

Lemma replicate_snoc {A} (n : nat) (x : A) :
  replicate n x ++ [x] = replicate (S n) x.
Proof. induction n as [|n IH]; [done|]. simpl. by rewrite IH. Qed.

Lemma subscript_raise j key e :
  subscript j key = Raise e → e ≠ InvalidCookiesException.
Proof.
  destruct j; simpl; try (intros [= <-]; done).
  destruct (assoc key d); intros [= <-]; done.
Qed.

Section FetchFacts.
Variable json_loads : string -> option json.

Lemma on_failure_sleep {A} pause e w :
  e ≠ InvalidCookiesException →
  on_failure (A:=A) json_loads pause e w = (Ok None, log (ESleep pause) w).
Proof. by destruct e. Qed.

Lemma fetch_page_attempt_transient i w :
  page_transient (answer w (page_request i w)) = true →
  fetch_page_attempt json_loads i w
  = (Ok None, failed_attempt (page_request i w) 5 w).
Proof.
  unfold answer, fetch_page_attempt, try_except, bind, requests_post, http.
  fold (page_request i w).
  destruct (remote w (n_requests w) (page_request i w)) as [|r]; simpl; [done|].
  intros [H401 Hbody]%andb_true_iff. apply negb_true_iff in H401.
  rewrite H401. unfold lift, response_json.
  destruct (json_body r) as [j|]; [|done].
  destruct (subscript j "modList") as [|e] eqn:Hsub; [done|].
  simpl. apply on_failure_sleep. by eapply subscript_raise.
Qed.

Lemma fetch_details_attempt_transient m w :
  details_transient (answer w (details_request m w)) = true →
  fetch_details_attempt json_loads m w
  = (Ok None, failed_attempt (details_request m w) 5 w).
Proof.
  unfold answer, fetch_details_attempt, try_except, bind, requests_get, http.
  fold (details_request m w).
  destruct (remote w (n_requests w) (details_request m w)) as [|r]; simpl; [done|].
  intros [H401 Hbody]%andb_true_iff. apply negb_true_iff in H401.
  rewrite H401. unfold lift, response_json.
  by destruct (json_body r) as [j|].
Qed.

Lemma answer_failed_attempt req pause w req' :
  answer (failed_attempt req pause w) req' = remote w (S (n_requests w)) req'.
Proof.
  unfold answer, failed_attempt.
  by rewrite n_requests_log_sleep, n_requests_log_request.
Qed.


Lemma trace_failed_attempt req pause w :
  trace (failed_attempt req pause w) = trace w ++ [ERequest req; ESleep pause].
Proof. unfold failed_attempt. simpl. by rewrite <- app_assoc. Qed.

Lemma n_requests_failed_attempt req pause w :
  n_requests (failed_attempt req pause w) = S (n_requests w).
Proof.
  unfold failed_attempt. by rewrite n_requests_log_sleep, n_requests_log_request.
Qed.

Lemma iter_failed_attempt_fields n req pause w :
  let w' := Nat.iter n (failed_attempt req pause) w in
  COOKIES w' = COOKIES w ∧ remote w' = remote w
  ∧ n_requests w' = (n + n_requests w)%nat
  ∧ calls w w' (replicate n req)
  ∧ sleeps (trace w') = sleeps (trace w) ++ replicate n pause
  ∧ files w' = files w ∧ db w' = db w.
Proof.
  induction n as [|n IH]; intros w'; subst w'.
  - unfold calls. simpl. by rewrite !app_nil_r.
  - destruct IH as (Hc & Hr & Hn & Hcalls & Hs & Hf & Hd).
    rewrite Nat.iter_succ.
    unfold calls in *.
    split_and!; [done|done| | | |done|done].
    + by rewrite n_requests_failed_attempt, Hn.
    + rewrite trace_failed_attempt, requests_app, Hcalls. cbn [requests].
      rewrite <- app_assoc. f_equal. apply replicate_snoc.
    + rewrite trace_failed_attempt, sleeps_app, Hs. cbn [sleeps].
      rewrite <- app_assoc. f_equal. apply replicate_snoc.
Qed.

Lemma fetch_page_loop_exhaust i attempts w :
  (∀ k, (k < length attempts)%nat →
        page_transient (remote w (n_requests w + k)%nat (page_request i w)) = true) →
  fetch_page_loop json_loads i attempts w
  = (Raise (Exception ("Max retries exceeded for page " +:+ str i)),
     Nat.iter (length attempts) (failed_attempt (page_request i w) 5) w).
Proof.
  revert w. induction attempts as [|a attempts IH]; intros w Hall; [done|].
  unfold fetch_page_loop in *. cbn [for_ length].
  rewrite fetch_page_attempt_transient.
  2: { unfold answer. rewrite <- (Nat.add_0_r (n_requests w)). apply Hall. simpl. lia. }
  rewrite Nat.iter_succ_r. rewrite IH; [done|].
  intros k Hk. rewrite n_requests_failed_attempt.
  change (remote (failed_attempt ?r 5 w)) with (remote w). simpl.
  replace (S (n_requests w + k)) with (n_requests w + S k)%nat by lia.
  apply Hall. simpl. lia.
Qed.

Lemma fetch_details_loop_exhaust m attempts w :
  (∀ k, (k < length attempts)%nat →
        details_transient (remote w (n_requests w + k)%nat (details_request m w)) = true) →
  fetch_details_loop json_loads m attempts w
  = (Raise (Exception ("Max retries exceeded for mod_id " +:+ str m)),
     Nat.iter (length attempts) (failed_attempt (details_request m w) 5) w).
Proof.
  revert w. induction attempts as [|a attempts IH]; intros w Hall; [done|].
  unfold fetch_details_loop in *. cbn [for_ length].
  rewrite fetch_details_attempt_transient.
  2: { unfold answer. rewrite <- (Nat.add_0_r (n_requests w)). apply Hall. simpl. lia. }
  rewrite Nat.iter_succ_r. rewrite IH; [done|].
  intros k Hk. rewrite n_requests_failed_attempt.
  change (remote (failed_attempt ?r 5 w)) with (remote w). simpl.
  replace (S (n_requests w + k)) with (n_requests w + S k)%nat by lia.
  apply Hall. simpl. lia.
Qed.

(** C7.  When the three attempts of [fetch_page] fail transiently (none
    with a 401), it raises an exception whose message names the page index,
    having made exactly three network calls and slept 5 seconds after
    each; the world the exception leaves is the one after the third failed
    attempt: nothing is called after that.  Likewise [fetch_details], when
    its own three attempts fail transiently, raises an exception whose
    message names the item id.  Either message determines the number it
    names: two indices (two ids) with the same message are equal. *)
Theorem retries_exhausted (w : World) (i mod_id : Z) :
  let wp := Nat.iter 3 (failed_attempt (page_request i w) 5) w in
  let wd := Nat.iter 3 (failed_attempt (details_request mod_id w) 5) w in
  ((∀ k, (k < 3)%nat →
         page_transient (remote w (n_requests w + k)%nat (page_request i w)) = true) →
   fetch_page json_loads i w
   = (Raise (Exception ("Max retries exceeded for page " +:+ str i)), wp)
   ∧ calls w wp (replicate 3 (page_request i w))
   ∧ sleeps (trace wp) = sleeps (trace w) ++ [5; 5; 5])
  ∧ ((∀ k, (k < 3)%nat →
           details_transient
             (remote w (n_requests w + k)%nat (details_request mod_id w)) = true) →
     fetch_details json_loads mod_id w
     = (Raise (Exception ("Max retries exceeded for mod_id " +:+ str mod_id)), wd)
     ∧ calls w wd (replicate 3 (details_request mod_id w))
     ∧ sleeps (trace wd) = sleeps (trace w) ++ [5; 5; 5])
  ∧ (∀ j, "Max retries exceeded for page " +:+ str i
          = "Max retries exceeded for page " +:+ str j → i = j)
  ∧ (∀ j, "Max retries exceeded for mod_id " +:+ str mod_id
          = "Max retries exceeded for mod_id " +:+ str j → mod_id = j).
Proof.
  intros wp wd.
  split; [|split; [|split]].
  - intros Hp. split_and!.
    + apply (fetch_page_loop_exhaust i (range 0 RETRIES) w Hp).
    + apply iter_failed_attempt_fields.
    + apply (iter_failed_attempt_fields 3).
  - intros Hd. split_and!.
    + apply (fetch_details_loop_exhaust mod_id (range 0 RETRIES) w Hd).
    + apply iter_failed_attempt_fields.
    + apply (iter_failed_attempt_fields 3).
  - intros j Heq. apply (inj (String.app "Max retries exceeded for page ")) in Heq.
    by apply (inj pretty) in Heq.
  - intros j Heq. apply (inj (String.app "Max retries exceeded for mod_id ")) in Heq.
    by apply (inj pretty) in Heq.
Qed.

(** *** Credential refresh *)

Lemma update_cookies_ok w fs s c :
  refresh_script w (n_runs w) (files w) = Exited 0 fs →
  fs !! COOKIE_PATH w = Some s →
  json_loads s = Some c →
  update_cookies json_loads w
  = (Ok tt, set_COOKIES c (log (ERun (COOKIE_REFRESH_SCRIPT w)) (set_files fs w))).
Proof.
  intros Hrun Hfile Hloads.
  unfold update_cookies, bind, subprocess_run_check. rewrite Hrun. simpl.
  unfold read_text. simpl. rewrite Hfile. unfold lift, loads. by rewrite Hloads.
Qed.

Lemma update_cookies_failed w status fs :
  refresh_script w (n_runs w) (files w) = Exited status fs →
  status ≠ 0 →
  update_cookies json_loads w
  = (Raise (CalledProcessError status),
     log (ERun (COOKIE_REFRESH_SCRIPT w)) (set_files fs w)).
Proof.
  intros Hrun Hst.
  unfold update_cookies, bind, subprocess_run_check. rewrite Hrun.
  by apply Z.eqb_neq in Hst as ->.
Qed.

Lemma update_cookies_after_request req w fs s c :
  refresh_script w (n_runs w) (files w) = Exited 0 fs →
  fs !! COOKIE_PATH w = Some s →
  json_loads s = Some c →
  update_cookies json_loads (log (ERequest req) w) = (Ok tt, refreshed req fs c w).
Proof.
  intros Hrun Hfile Hloads.
  unfold refreshed.
  apply (update_cookies_ok (log (ERequest req) w) fs s c); try done.
  by rewrite n_runs_log_request.
Qed.

Lemma fetch_page_attempt_unauthorized i w :
  unauthorized (answer w (page_request i w)) = true →
  fetch_page_attempt json_loads i w
  = (_ <- update_cookies json_loads ;; ret None) (log (ERequest (page_request i w)) w).
Proof.
  unfold answer, fetch_page_attempt, try_except, bind, requests_post, http.
  fold (page_request i w).
  destruct (remote w (n_requests w) (page_request i w)) as [|r]; simpl; [done|].
  by intros ->.
Qed.

Lemma fetch_total_count_attempt_unauthorized i w :
  unauthorized (answer w (count_request w)) = true →
  fetch_total_count_attempt json_loads i w
  = (_ <- update_cookies json_loads ;; ret None) (log (ERequest (count_request w)) w).
Proof.
  unfold answer, fetch_total_count_attempt, try_except, bind, requests_post, http.
  fold (count_request w).
  destruct (remote w (n_requests w) (count_request w)) as [|r]; simpl; [done|].
  by intros ->.
Qed.

Lemma fetch_details_attempt_unauthorized m w :
  unauthorized (answer w (details_request m w)) = true →
  fetch_details_attempt json_loads m w
  = (_ <- update_cookies json_loads ;; ret None)
      (log (ERequest (details_request m w)) w).
Proof.
  unfold answer, fetch_details_attempt, try_except, bind, requests_get, http.
  fold (details_request m w).
  destruct (remote w (n_requests w) (details_request m w)) as [|r]; simpl; [done|].
  by intros ->.
Qed.

(** C3, as amended.  When the remote answers a call with a 401 and the
    refresh goes through, both loops go on at once (the trace gets the
    request and the run of the script, no sleep) with the attempts that
    come after the one that got the 401: the 401 has used one of the three
    attempts of [fetch_page] (two are left) as it has used one of the 29
    of [fetch_total_count] (28 are left). *)
Theorem unauthorized_uses_an_attempt (w : World) (i a : Z) (rest : list Z)
    (fs : gmap string string) (s : string) (c : json) :
  (∀ req, unauthorized (answer w req) = true) →
  refresh_script w (n_runs w) (files w) = Exited 0 fs →
  fs !! COOKIE_PATH w = Some s →
  json_loads s = Some c →
  let wp := refreshed (page_request i w) fs c w in
  let wc := refreshed (count_request w) fs c w in
  fetch_page_loop json_loads i (a :: rest) w = fetch_page_loop json_loads i rest wp
  ∧ fetch_total_count_loop json_loads (a :: rest) w
    = fetch_total_count_loop json_loads rest wc
  ∧ fetch_page json_loads i w = fetch_page_loop json_loads i [1; 2] wp
  ∧ fetch_total_count json_loads w
    = fetch_total_count_loop json_loads (range 2 (RETRIES * 10)) wc
  ∧ length (range 2 (RETRIES * 10)) = 28%nat
  ∧ trace wp = trace w ++ [ERequest (page_request i w); ERun (COOKIE_REFRESH_SCRIPT w)]
  ∧ trace wc = trace w ++ [ERequest (count_request w); ERun (COOKIE_REFRESH_SCRIPT w)].
Proof.
  intros H401 Hrun Hfile Hloads wp wc.
  assert (Hpage : ∀ a rest, fetch_page_loop json_loads i (a :: rest) w
                            = fetch_page_loop json_loads i rest wp).
  { intros a' rest'. unfold fetch_page_loop. cbn [for_].
    rewrite fetch_page_attempt_unauthorized by apply H401.
    unfold bind. by rewrite (update_cookies_after_request _ _ fs s c). }
  assert (Hcount : ∀ a rest, fetch_total_count_loop json_loads (a :: rest) w
                             = fetch_total_count_loop json_loads rest wc).
  { intros a' rest'. unfold fetch_total_count_loop. cbn [for_].
    rewrite fetch_total_count_attempt_unauthorized by apply H401.
    unfold bind. by rewrite (update_cookies_after_request _ _ fs s c). }
  split_and!.
  - apply Hpage.
  - apply Hcount.
  - apply (Hpage 0 [1; 2]).
  - apply (Hcount 1 (range 2 (RETRIES * 10))).
  - reflexivity.
  - subst wp. unfold refreshed. simpl. by rewrite <- app_assoc.
  - subst wc. unfold refreshed. simpl. by rewrite <- app_assoc.
Qed.
End FetchFacts.

(** ** The total count *)


Lemma string_length_app (s t : string) :
  String.length (s +:+ t) = (String.length s + String.length t)%nat.
Proof. induction s as [|c s IH]; simpl; [done|]. by rewrite IH. Qed.

Lemma string_app_inj_r (s1 s2 t : string) : s1 +:+ t = s2 +:+ t → s1 = s2.
Proof.
  revert s2. induction s1 as [|c s1 IH]; intros [|c2 s2] Heq.
  - done.
  - apply (f_equal String.length) in Heq.
    rewrite !string_length_app in Heq. simpl in Heq. lia.
  - apply (f_equal String.length) in Heq.
    rewrite !string_length_app in Heq. simpl in Heq. lia.
  - simpl in Heq. injection Heq as -> Heq. f_equal. by apply IH.
Qed.

Lemma diagnostic_name_inj (i k : Z) :
  "response" +:+ str i +:+ "_tmp.json" = "response" +:+ str k +:+ "_tmp.json" → i = k.
Proof.
  intros Heq. apply (inj (String.app "response")) in Heq.
  apply string_app_inj_r in Heq. by apply (inj pretty) in Heq.
Qed.

Section CountFacts.
Variable json_loads : string -> option json.

Lemma fetch_total_count_attempt_null i w r :
  answer w (count_request w) = Replied r →
  null_count r = true →
  fetch_total_count_attempt json_loads i w = (Ok None, null_attempt i r w).
Proof.
  unfold answer, fetch_total_count_attempt, try_except, bind, requests_post, http.
  fold (count_request w). intros -> [H401 Hbody]%andb_true_iff.
  apply negb_true_iff in H401. rewrite H401. unfold lift, response_json.
  destruct (json_body r) as [j|]; [|done].
  destruct (subscript j "totalCount") as [[]|]; done.
Qed.

Lemma null_attempt_fields i r w :
  COOKIES (null_attempt i r w) = COOKIES w
  ∧ remote (null_attempt i r w) = remote w
  ∧ n_requests (null_attempt i r w) = S (n_requests w)
  ∧ count_request (null_attempt i r w) = count_request w.
Proof.
  split_and!; try done.
  unfold null_attempt. rewrite n_requests_log_sleep.
  apply (n_requests_log_request (count_request w) w).
Qed.

Lemma trace_null_attempt i r w :
  trace (null_attempt i r w)
  = trace w ++ [ERequest (count_request w); ESleep (5 * i)].
Proof. unfold null_attempt. simpl. by rewrite <- app_assoc. Qed.

Lemma loop_null_counts attempts rs w :
  length rs = length attempts →
  (∀ (k : nat) r, rs !! k = Some r →
     remote w (n_requests w + k)%nat (count_request w) = Replied r
     ∧ null_count r = true) →
  fetch_total_count_loop json_loads attempts w
  = (Raise (Exception "Max retries exceeded when fetching total count"),
     null_attempts attempts rs w).
Proof.
  revert rs w. induction attempts as [|i attempts IH]; intros rs w Hlen Hrs.
  - by destruct rs.
  - destruct rs as [|r rs]; [done|]. injection Hlen as Hlen.
    destruct (Hrs 0%nat r eq_refl) as [Hr Hnull]. rewrite Nat.add_0_r in Hr.
    unfold fetch_total_count_loop in *. cbn [for_ null_attempts].
    rewrite (fetch_total_count_attempt_null i w r Hr Hnull).
    apply IH; [done|]. intros k r' Hk.
    destruct (null_attempt_fields i r w) as (_ & _ & -> & ->).
    change (remote (null_attempt i r w)) with (remote w).
    replace (S (n_requests w) + k)%nat with (n_requests w + S k)%nat by lia.
    by apply Hrs.
Qed.

Lemma null_attempts_log attempts rs w :
  length rs = length attempts →
  let w' := null_attempts attempts rs w in
  calls w w' (replicate (length attempts) (count_request w))
  ∧ sleeps (trace w') = sleeps (trace w) ++ map (λ i, 5 * i) attempts.
Proof.
  revert rs w. induction attempts as [|i attempts IH]; intros rs w Hlen w'; subst w'.
  - destruct rs; [|done]. unfold calls. simpl. by rewrite !app_nil_r.
  - destruct rs as [|r rs]; [done|]. injection Hlen as Hlen.
    cbn [null_attempts]. destruct (IH rs (null_attempt i r w) Hlen) as [Hc Hs].
    unfold calls in *. rewrite Hc, Hs, trace_null_attempt, requests_app, sleeps_app.
    cbn [requests sleeps length replicate map].
    destruct (null_attempt_fields i r w) as (_ & _ & _ & ->).
    by rewrite <- !app_assoc.
Qed.

Lemma null_attempts_files_other attempts rs w name :
  (∀ i, i ∈ attempts → name ≠ "response" +:+ str i +:+ "_tmp.json") →
  files (null_attempts attempts rs w) !! name = files w !! name.
Proof.
  revert rs w. induction attempts as [|i attempts IH]; intros rs w Hname; [done|].
  destruct rs as [|r rs]; [done|]. cbn [null_attempts].
  rewrite IH.
  - unfold null_attempt. simpl. rewrite lookup_insert_ne; [done|].
    intros Heq. by eapply Hname; [apply list_elem_of_here|].
  - intros k Hk. apply Hname. by apply list_elem_of_further.
Qed.

Lemma null_attempts_files attempts rs w (k : nat) i r :
  NoDup attempts →
  attempts !! k = Some i → rs !! k = Some r →
  files (null_attempts attempts rs w) !! ("response" +:+ str i +:+ "_tmp.json")
  = Some (text r).
Proof.
  revert rs w k. induction attempts as [|a attempts IH]; intros rs w k Hnd Hi Hr.
  - done.
  - destruct rs as [|r0 rs]; [done|]. apply NoDup_cons in Hnd as [Ha Hnd].
    cbn [null_attempts]. destruct k as [|k]; simpl in Hi, Hr.
    + injection Hi as ->. injection Hr as ->.
      rewrite null_attempts_files_other.
      * unfold null_attempt. simpl. by rewrite lookup_insert_eq.
      * intros i' Hi' Heq. apply diagnostic_name_inj in Heq. by subst.
    + by eapply IH.
Qed.

Lemma update_cookies_requests w :
  requests (trace (update_cookies json_loads w).2) = requests (trace w).
Proof.
  unfold update_cookies, bind, subprocess_run_check, read_text, lift, loads.
  destruct (refresh_script w (n_runs w) (files w)) as [status fs|e].
  - destruct (status =? 0); simpl.
    + destruct (fs !! COOKIE_PATH w) as [s|]; simpl.
      * destruct (json_loads s); simpl; rewrite requests_app; simpl; apply app_nil_r.
      * rewrite requests_app. simpl. apply app_nil_r.
    + rewrite requests_app. simpl. apply app_nil_r.
  - simpl. rewrite requests_app. simpl. apply app_nil_r.
Qed.

Lemma on_failure_requests {A} pause e w :
  requests (trace (on_failure (A:=A) json_loads pause e w).2) = requests (trace w).
Proof.
  destruct e; simpl; try (rewrite requests_app; simpl; apply app_nil_r).
  unfold bind. pose proof (update_cookies_requests w) as H.
  destruct (update_cookies json_loads w) as [[[]|e] w']; simpl in *; done.
Qed.

Lemma fetch_total_count_attempt_calls i w :
  calls w (fetch_total_count_attempt json_loads i w).2 [count_request w].
Proof.
  unfold calls, fetch_total_count_attempt, try_except, bind, requests_post, http,
    raise, ret, lift, response_json.
  fold (count_request w).
  assert (Hlog : requests (trace (log (ERequest (count_request w)) w))
                 = requests (trace w) ++ [count_request w]).
  { simpl. by rewrite requests_app. }
  destruct (remote w (n_requests w) (count_request w)) as [|r]; cbv beta iota;
    [by rewrite on_failure_requests|].
  destruct (status_code r =? 401); cbv beta iota; [by rewrite on_failure_requests|].
  destruct (json_body r) as [j|]; cbv beta iota; [|by rewrite on_failure_requests].
  destruct (subscript j "totalCount") as [total|e]; cbv beta iota;
    [|by rewrite on_failure_requests].
  destruct total; try done.
  unfold write_text, sleep. cbv beta iota. simpl.
  rewrite requests_app. simpl. rewrite app_nil_r. by rewrite requests_app.
Qed.

Lemma fetch_total_count_loop_calls attempts w :
  ∃ extra, calls w (fetch_total_count_loop json_loads attempts w).2 extra
           ∧ (length extra ≤ length attempts)%nat.
Proof.
  revert w. induction attempts as [|i attempts IH]; intros w.
  - exists []. split; [|done]. unfold calls. simpl. by rewrite app_nil_r.
  - unfold fetch_total_count_loop in *. cbn [for_].
    pose proof (fetch_total_count_attempt_calls i w) as Hstep.
    destruct (fetch_total_count_attempt json_loads i w) as [[[total|]|e] w1];
      simpl in Hstep.
    + exists [count_request w]. split; [done|]. simpl. lia.
    + destruct (IH w1) as (extra & Hcalls & Hlen).
      exists (count_request w :: extra). split; [|simpl; lia].
      unfold calls in *. rewrite Hcalls, Hstep. by rewrite <- app_assoc.
    + exists [count_request w]. split; [done|]. simpl. lia.
Qed.

(** C6.  [fetch_total_count] never makes more than 29 network calls.  An
    attempt number [i] whose response carries a null [totalCount] writes
    the text of the response to [response<i>_tmp.json], sleeps [5 * i]
    seconds and goes on with the next attempt.  When all 29 attempts end
    this way, the function raises, after exactly 29 calls, sleeps of 5, 10,
    ..., 145 seconds, and the 29 files written, each with the text of its
    attempt. *)
Theorem total_count_retries (w : World) (rs : list Response) :
  length rs = 29%nat →
  (∀ (k : nat) r, rs !! k = Some r →
     remote w (n_requests w + k)%nat (count_request w) = Replied r
     ∧ null_count r = true) →
  let w' := null_attempts (range 1 (RETRIES * 10)) rs w in
  fetch_total_count json_loads w
  = (Raise (Exception "Max retries exceeded when fetching total count"), w')
  ∧ calls w w' (replicate 29 (count_request w))
  ∧ sleeps (trace w') = sleeps (trace w) ++ map (λ i, 5 * i) (range 1 30)
  ∧ (∀ (k : nat) r, rs !! k = Some r →
       files w' !! ("response" +:+ str (1 + Z.of_nat k) +:+ "_tmp.json")
       = Some (text r))
  ∧ (∀ w0, ∃ extra, calls w0 (fetch_total_count json_loads w0).2 extra
                    ∧ (length extra ≤ 29)%nat)
  ∧ (∀ w0 i rest r,
       answer w0 (count_request w0) = Replied r → null_count r = true →
       fetch_total_count_loop json_loads (i :: rest) w0
       = fetch_total_count_loop json_loads rest (null_attempt i r w0)).
Proof.
  intros Hlen Hrs w'.
  assert (Hlen' : length rs = length (range 1 (RETRIES * 10))) by by rewrite Hlen.
  split_and!.
  - by apply loop_null_counts.
  - apply (null_attempts_log (range 1 (RETRIES * 10)) rs w Hlen').
  - apply (null_attempts_log (range 1 (RETRIES * 10)) rs w Hlen').
  - intros k r Hk. apply null_attempts_files with (k := k); [| |done].
    + apply NoDup_seqZ.
    + unfold range. apply lookup_seqZ. split; [done|].
      apply lookup_lt_Some in Hk. rewrite Hlen in Hk.
      change (RETRIES * 10 - 1) with 29. lia.
  - intros w0. apply (fetch_total_count_loop_calls (range 1 (RETRIES * 10)) w0).
  - intros w0 i rest r Hr Hnull. unfold fetch_total_count_loop. cbn [for_].
    by rewrite (fetch_total_count_attempt_null i w0 r Hr Hnull).
Qed.
End CountFacts.

(** ** Who calls what *)


Lemma calls_refl w : calls w w [].
Proof. unfold calls. by rewrite app_nil_r. Qed.

Lemma calls_trans w1 w2 w3 e1 e2 :
  calls w1 w2 e1 → calls w2 w3 e2 → calls w1 w3 (e1 ++ e2).
Proof. unfold calls. intros H1 H2. by rewrite H2, H1, app_assoc. Qed.

(** A retry loop whose every iteration makes one call makes at most as
    many calls as it has iterations, the first with the request of the
    world it starts in, all with the request of some world. *)
Lemma for_calls {X A} (body : X → M World (option A)) (orelse : M World A)
    (req_of : World → Request) (xs : list X) (w : World) :
  (∀ x w, calls w (body x w).2 [req_of w]) →
  (∀ w, calls w (orelse w).2 []) →
  ∃ extra,
    calls w (for_ xs body orelse w).2 extra
    ∧ (length extra ≤ length xs)%nat
    ∧ Forall (λ r, ∃ w', r = req_of w') extra
    ∧ (xs ≠ [] → ∃ rest, extra = req_of w :: rest).
Proof.
  intros Hbody Horelse. revert w. induction xs as [|x xs IH]; intros w.
  - exists []. simpl. split_and!; [apply Horelse|done|done|done].
  - cbn [for_]. pose proof (Hbody x w) as Hstep.
    destruct (body x w) as [[[a|]|e] w1]; simpl in Hstep.
    + exists [req_of w]. split_and!; [done|simpl; lia| |by eexists].
      apply Forall_singleton. by eexists.
    + destruct (IH w1) as (extra & Hcalls & Hlen & Hall & _).
      exists (req_of w :: extra). split_and!; [|simpl; lia| |by eexists].
      * apply (calls_trans _ _ _ [req_of w] extra Hstep Hcalls).
      * apply Forall_cons. split; [by eexists|done].
    + exists [req_of w]. split_and!; [done|simpl; lia| |by eexists].
      apply Forall_singleton. by eexists.
Qed.

Section CallFacts.
Variable json_loads : string -> option json.

Lemma fetch_page_attempt_calls i w :
  calls w (fetch_page_attempt json_loads i w).2 [page_request i w].
Proof.
  unfold calls, fetch_page_attempt, try_except, bind, requests_post, http,
    raise, ret, lift, response_json.
  fold (page_request i w).
  assert (Hlog : requests (trace (log (ERequest (page_request i w)) w))
                 = requests (trace w) ++ [page_request i w]).
  { simpl. by rewrite requests_app. }
  destruct (remote w (n_requests w) (page_request i w)) as [|r]; cbv beta iota;
    [by rewrite on_failure_requests|].
  destruct (status_code r =? 401); cbv beta iota; [by rewrite on_failure_requests|].
  destruct (json_body r) as [j|]; cbv beta iota; [|by rewrite on_failure_requests].
  destruct (subscript j "modList") as [page|e]; cbv beta iota;
    [done|by rewrite on_failure_requests].
Qed.

Lemma fetch_details_attempt_calls m w :
  calls w (fetch_details_attempt json_loads m w).2 [details_request m w].
Proof.
  unfold calls, fetch_details_attempt, try_except, bind, requests_get, http,
    raise, ret, lift, response_json.
  fold (details_request m w).
  assert (Hlog : requests (trace (log (ERequest (details_request m w)) w))
                 = requests (trace w) ++ [details_request m w]).
  { simpl. by rewrite requests_app. }
  destruct (remote w (n_requests w) (details_request m w)) as [|r]; cbv beta iota;
    [by rewrite on_failure_requests|].
  destruct (status_code r =? 401); cbv beta iota; [by rewrite on_failure_requests|].
  destruct (json_body r) as [j|]; cbv beta iota; [done|by rewrite on_failure_requests].
Qed.

Lemma fetch_page_calls i w :
  ∃ rest, calls w (fetch_page json_loads i w).2 (page_request i w :: rest).
Proof.
  destruct (for_calls (λ _ : Z, fetch_page_attempt json_loads i)
              (raise (Exception ("Max retries exceeded for page " +:+ str i)))
              (page_request i) (range 0 RETRIES) w)
    as (extra & Hcalls & _ & _ & Hfirst).
  - intros _ w0. apply fetch_page_attempt_calls.
  - intros w0. apply calls_refl.
  - destruct Hfirst as [rest ->]; [done|]. by exists rest.
Qed.

Lemma fetch_page_batch i w :
  ∃ batch, calls w (fetch_page json_loads i w).2 batch
           ∧ batch ≠ [] ∧ (length batch ≤ 3)%nat
           ∧ Forall (λ r, ∃ w', r = page_request i w') batch.
Proof.
  destruct (for_calls (λ _ : Z, fetch_page_attempt json_loads i)
              (raise (Exception ("Max retries exceeded for page " +:+ str i)))
              (page_request i) (range 0 RETRIES) w)
    as (extra & Hcalls & Hlen & Hall & Hfirst).
  - intros _ w0. apply fetch_page_attempt_calls.
  - intros w0. apply calls_refl.
  - exists extra. split_and!; [done| |done|done].
    destruct Hfirst as [rest ->]; done.
Qed.

Lemma fetch_total_count_calls w :
  ∃ rest, calls w (fetch_total_count json_loads w).2 (count_request w :: rest).
Proof.
  destruct (for_calls (fetch_total_count_attempt json_loads)
              (raise (Exception "Max retries exceeded when fetching total count"))
              count_request (range 1 (RETRIES * 10)) w)
    as (extra & Hcalls & _ & _ & Hfirst).
  - intros i w0. apply fetch_total_count_attempt_calls.
  - intros w0. apply calls_refl.
  - destruct Hfirst as [rest ->]; [done|]. by exists rest.
Qed.

Lemma fetch_details_calls m w :
  ∃ extra, calls w (fetch_details json_loads m w).2 extra
           ∧ Forall is_details_request extra
           ∧ ∃ rest, extra = details_request m w :: rest.
Proof.
  destruct (for_calls (λ _ : Z, fetch_details_attempt json_loads m)
              (raise (Exception ("Max retries exceeded for mod_id " +:+ str m)))
              (details_request m) (range 0 RETRIES) w)
    as (extra & Hcalls & _ & Hall & Hfirst).
  - intros _ w0. apply fetch_details_attempt_calls.
  - intros w0. apply calls_refl.
  - exists extra. split_and!; [done| |by apply Hfirst].
    eapply Forall_impl; [exact Hall|]. intros r [w' ->].
    split_and!; [done|done|by exists m].
Qed.

(** C8.  [update_cookies] runs the refresh script once: its trace gets
    the one run and nothing else.  If the script exits with a status other
    than 0, it raises [CalledProcessError] with that status and the cookies
    stay as they were.  If the script exits with 0, the cookies are read
    again from the cookie file the script left: the world [update_cookies]
    leaves holds them, and the first call of each of the three fetch
    functions from this world, as from any world that holds them, sends
    them. *)
Theorem refresh_fails_or_reloads (w : World) (status : Z)
    (fs : gmap string string) :
  refresh_script w (n_runs w) (files w) = Exited status fs →
  let w1 := log (ERun (COOKIE_REFRESH_SCRIPT w)) (set_files fs w) in
  let w' := (update_cookies json_loads w).2 in
  n_runs w' = S (n_runs w)
  ∧ trace w' = trace w ++ [ERun (COOKIE_REFRESH_SCRIPT w)]
  ∧ (status ≠ 0 →
     update_cookies json_loads w = (Raise (CalledProcessError status), w1)
     ∧ n_runs w1 = S (n_runs w) ∧ COOKIES w1 = COOKIES w
     ∧ COOKIES w' = COOKIES w)
  ∧ (status = 0 → ∀ s c,
       fs !! COOKIE_PATH w = Some s → json_loads s = Some c →
       update_cookies json_loads w = (Ok tt, set_COOKIES c w1)
       ∧ n_runs (set_COOKIES c w1) = S (n_runs w)
       ∧ COOKIES w' = c
       ∧ files w' = fs
       ∧ (∀ i m,
            (∃ rest, calls w' (fetch_page json_loads i w').2
                       (mkRequest POST FIND_URL (Some (find_query i PAGE_SIZE)) c
                          :: rest))
            ∧ (∃ rest, calls w' (fetch_total_count json_loads w').2
                         (mkRequest POST FIND_URL (Some (find_query 1 1)) c :: rest))
            ∧ (∃ rest, calls w' (fetch_details json_loads m w').2
                         (mkRequest GET (DETAILS_URL m) None c :: rest)))
       ∧ ∀ w2 i m, COOKIES w2 = c →
           (∃ rest, calls w2 (fetch_page json_loads i w2).2
                      (mkRequest POST FIND_URL (Some (find_query i PAGE_SIZE)) c
                         :: rest))
           ∧ (∃ rest, calls w2 (fetch_total_count json_loads w2).2
                        (mkRequest POST FIND_URL (Some (find_query 1 1)) c :: rest))
           ∧ (∃ rest, calls w2 (fetch_details json_loads m w2).2
                        (mkRequest GET (DETAILS_URL m) None c :: rest))).
Proof.
  intros Hrun w1 w'.
  assert (Hruns : n_runs w1 = S (n_runs w)).
  { unfold n_runs. simpl. rewrite List.filter_app, length_app. simpl. lia. }
  assert (Hsends : ∀ w2 i m,
            (∃ rest, calls w2 (fetch_page json_loads i w2).2
                       (mkRequest POST FIND_URL (Some (find_query i PAGE_SIZE))
                          (COOKIES w2) :: rest))
            ∧ (∃ rest, calls w2 (fetch_total_count json_loads w2).2
                         (mkRequest POST FIND_URL (Some (find_query 1 1)) (COOKIES w2)
                            :: rest))
            ∧ (∃ rest, calls w2 (fetch_details json_loads m w2).2
                         (mkRequest GET (DETAILS_URL m) None (COOKIES w2) :: rest))).
  { intros w2 i m. split_and!.
    - apply fetch_page_calls.
    - apply fetch_total_count_calls.
    - destruct (fetch_details_calls m w2) as (extra & Hcalls & _ & rest & ->).
      by exists rest. }
  assert (Hshape : (n_runs w' = S (n_runs w)
                    ∧ trace w' = trace w ++ [ERun (COOKIE_REFRESH_SCRIPT w)])).
  { subst w'. unfold update_cookies, bind, subprocess_run_check. rewrite Hrun.
    unfold read_text, lift, loads. cbv beta iota zeta.
    destruct (status =? 0); [|done]. cbn [fst snd COOKIE_PATH log set_files files].
    destruct (fs !! COOKIE_PATH w) as [s|]; [|done].
    by destruct (json_loads s). }
  destruct Hshape as [Hruns' Htrace].
  split_and!; [done|done| |].
  - intros Hst. subst w'.
    rewrite (update_cookies_failed json_loads w status fs Hrun Hst). by split_and!.
  - intros -> s c Hfile Hloads. subst w'.
    rewrite (update_cookies_ok json_loads w fs s c Hrun Hfile Hloads).
    split_and!; [done|done|done|done| |].
    + intros i m. apply (Hsends (set_COOKIES c w1) i m).
    + intros w2 i m <-. apply Hsends.
Qed.
End CallFacts.

(** ** The driver *)


Lemma should_update_stored d m l :
  Database.in_int64 m = true →
  (∃ r, r ∈ Database.mods_raw d ∧ Database.modId r = m ∧ Database.lastUpdate r = l) →
  Database.should_update d m l = Ok false.
Proof.
  intros H64 (r & Hr & Hm & Hl).
  unfold Database.should_update, Database.bind_int. rewrite H64.
  destruct (filter _ (Database.mods_raw d)) as [|r0 found] eqn:Hsel; [|done].
  assert (r ∈ filter (λ r, Database.matches m l r = true) (Database.mods_raw d)) as Hin.
  { apply list_elem_of_filter. split; [|done]. unfold Database.matches.
    rewrite Hm, Hl, Z.eqb_refl, String.eqb_refl. done. }
  rewrite Hsel in Hin. by apply not_elem_of_nil in Hin.
Qed.

Section DriverFacts.
Variable json_loads : string -> option json.
Variable json_dumps : json -> string.

Lemma fetch_details_served m w r j :
  answer w (details_request m w) = Replied r →
  status_code r ≠ 401 →
  json_body r = Some j →
  fetch_details json_loads m w = (Ok j, log (ERequest (details_request m w)) w).
Proof.
  intros Hr H401 Hj. apply Z.eqb_neq in H401.
  unfold fetch_details, fetch_details_loop. change (range 0 RETRIES) with [0; 1; 2].
  cbn [for_].
  unfold fetch_details_attempt, try_except, bind, requests_get, http.
  fold (details_request m w). unfold answer in Hr. rewrite Hr, H401.
  unfold lift, response_json. by rewrite Hj.
Qed.

Lemma process_entry_stored entry w :
  stored (db w) entry →
  process_entry json_loads json_dumps entry w = (Ok tt, w).
Proof.
  intros (m & l & Hm & Hl & H64 & Hrow).
  unfold process_entry, bind, lift. rewrite Hm, Hl. simpl.
  unfold should_update. by rewrite should_update_stored.
Qed.

(** C9.  When every entry of the index has its id and timestamp in the
    store, the loop over the index leaves the world as it is: no network
    call, no row added, nothing slept; and so does the processing of each
    single entry.  Running the loop again therefore changes nothing. *)
Theorem stored_entries_are_skipped (w : World) (entries : list json) :
  Forall (stored (db w)) entries →
  process_entries json_loads json_dumps (JList entries) w = (Ok tt, w)
  ∧ Forall (λ entry, process_entry json_loads json_dumps entry w = (Ok tt, w))
      entries.
Proof.
  intros Hall. split.
  - unfold process_entries, bind, lift. simpl.
    induction Hall as [|entry entries Hentry _ IH]; [done|].
    cbn [for_each]. unfold bind. by rewrite process_entry_stored.
  - eapply Forall_impl; [exact Hall|]. intros entry. apply process_entry_stored.
Qed.

(** C10.  Whatever the status of the response, if it is not 401 and the
    body parses as JSON, [fetch_details] returns the parsed body as it is,
    after one network call.  There is a world in which the remote answers
    with a 500 and the body so returned is added to the store as a row. *)
Theorem details_accepts_any_json (w : World) (mod_id : Z) (r : Response)
    (j : json) :
  answer w (details_request mod_id w) = Replied r →
  status_code r ≠ 401 →
  json_body r = Some j →
  fetch_details json_loads mod_id w
  = (Ok j, log (ERequest (details_request mod_id w)) w)
  ∧ ∃ (w0 : World) (r0 : Response) (j0 : json) (entry : json),
      answer w0 (details_request 42 w0) = Replied r0
      ∧ status_code r0 = 500
      ∧ json_body r0 = Some j0
      ∧ Database.mods_raw (db w0) = []
      ∧ (process_entry json_loads json_dumps entry w0).1 = Ok tt
      ∧ Database.mods_raw (db (process_entry json_loads json_dumps entry w0).2)
        = [Database.mkRow 1 42 "a mod" 1 "2023-01-01" "2024-01-01" (json_dumps j0)].
Proof.
  intros Hr H401 Hj. split; [by apply (fetch_details_served mod_id w r j)|].
  exists (Sample.world Sample.broken), (mkResponse 500 EmptyString (Some (Sample.detail 42 "2024-01-01"))),
    (Sample.detail 42 "2024-01-01"), (Sample.entry 42 "2024-01-01").
  split_and!; reflexivity.
Qed.

(** *** Computations whose only network calls ask for details *)

Lemma only_details_silent {A} (m : M World A) :
  (∀ w, trace (m w).2 = trace w) → only_details m.
Proof.
  intros Hm w. exists []. split; [|done]. unfold calls.
  by rewrite Hm, app_nil_r.
Qed.

Lemma only_details_bind {A B} (m : M World A) (k : A → M World B) :
  only_details m → (∀ a, only_details (k a)) → only_details (x <- m ;; k x).
Proof.
  intros Hm Hk w. unfold bind. destruct (Hm w) as (e1 & Hc1 & H1).
  destruct (m w) as [[a|e] w1]; simpl in Hc1.
  - destruct (Hk a w1) as (e2 & Hc2 & H2). exists (e1 ++ e2).
    split; [by eapply calls_trans|by apply Forall_app].
  - by exists e1.
Qed.

Lemma only_details_for_each {X} (xs : list X) (body : X → M World unit) :
  (∀ x, only_details (body x)) → only_details (for_each xs body).
Proof.
  intros Hbody. induction xs as [|x xs IH]; cbn [for_each].
  - by apply only_details_silent.
  - apply only_details_bind; [apply Hbody|]. by intros _.
Qed.

Lemma only_details_fetch_details m : only_details (fetch_details json_loads m).
Proof.
  intros w. destruct (fetch_details_calls json_loads m w) as (extra & ? & ? & _).
  by exists extra.
Qed.

Lemma only_details_process_entry entry :
  only_details (process_entry json_loads json_dumps entry).
Proof.
  unfold process_entry.
  do 5 (apply only_details_bind; [by apply only_details_silent|intros ?]).
  match goal with |- only_details (if ?b then _ else _) => destruct b end;
    [|by apply only_details_silent].
  apply only_details_bind; [apply only_details_fetch_details|intros details].
  apply only_details_silent. intros w. unfold on_db.
  by destruct (Database.add json_dumps details (db w)).
Qed.

Lemma only_details_process_entries mod_list :
  only_details (process_entries json_loads json_dumps mod_list).
Proof.
  unfold process_entries.
  apply only_details_bind; [by apply only_details_silent|intros entries].
  apply only_details_for_each. apply only_details_process_entry.
Qed.

Lemma only_details_rename src dst : only_details (rename src dst).
Proof.
  apply only_details_silent. intros w. unfold rename.
  by destruct (files w !! src).
Qed.

(** C5.  When the file of the partial index exists, the index is what
    [json.loads] makes of its text and loading it changes nothing; [main]
    goes straight to the loop over the entries, and every network call of
    the whole run asks for the details of an item: none is a POST, none
    goes to the search endpoint that [fetch_total_count] and [fetch_page]
    use. *)
Theorem saved_index_is_reused (w : World) (s : string) :
  files w !! TMP_FILE = Some s →
  load_or_build_index json_loads json_dumps w = (loads json_loads s, w)
  ∧ main json_loads json_dumps w
    = (mod_list <- lift (loads json_loads s) ;;
       _ <- process_entries json_loads json_dumps mod_list ;;
       rename TMP_FILE MOD_LIST_FILE) w
  ∧ ∃ extra, calls w (main json_loads json_dumps w).2 extra
             ∧ Forall is_details_request extra
             ∧ Forall (λ r, method r ≠ POST ∧ url r ≠ FIND_URL) extra.
Proof.
  intros Hfile.
  assert (Hload : load_or_build_index json_loads json_dumps w
                  = (loads json_loads s, w)).
  { unfold load_or_build_index, bind, is_file. rewrite Hfile.
    rewrite bool_decide_eq_true_2 by by eexists.
    unfold read_text. rewrite Hfile. by destruct (loads json_loads s). }
  assert (Hmain : main json_loads json_dumps w
    = (mod_list <- lift (loads json_loads s) ;;
       _ <- process_entries json_loads json_dumps mod_list ;;
       rename TMP_FILE MOD_LIST_FILE) w).
  { unfold main, bind at 1. unfold Database._init_db.
    replace (set_db (db w) w) with w by by destruct w.
    unfold bind at 1 3. rewrite Hload. unfold lift.
    by destruct (loads json_loads s). }
  split_and!; [done|done|]. rewrite Hmain.
  assert (Hdetails : only_details
    (mod_list <- lift (loads json_loads s) ;;
     _ <- process_entries json_loads json_dumps mod_list ;;
     rename TMP_FILE MOD_LIST_FILE)).
  { apply only_details_bind; [by apply only_details_silent|intros mod_list].
    apply only_details_bind; [apply only_details_process_entries|intros _].
    apply only_details_rename. }
  destruct (Hdetails w) as (extra & Hcalls & Hall). exists extra.
  split_and!; [done|done|].
  eapply Forall_impl; [exact Hall|]. intros r (Hget & _ & m & Hurl).
  split; [by rewrite Hget|]. rewrite Hurl. unfold DETAILS_URL, FIND_URL.
  intros Heq. simpl in Heq. discriminate Heq.
Qed.
End DriverFacts.

(** ** Building the index *)


Lemma pages_count_ceiling n :
  PAGE_SIZE * (pages_count n - 1) < n ≤ PAGE_SIZE * pages_count n.
Proof.
  unfold pages_count, PAGE_SIZE.
  pose proof (Z.div_mod (n - 1) 1000 ltac:(done)) as Hdiv.
  pose proof (Z.mod_pos_bound (n - 1) 1000 ltac:(done)) as Hmod. lia.
Qed.

Lemma paged_calls indices w :
  calls w (paged indices w) (map (λ i, page_request i w) indices)
  ∧ COOKIES (paged indices w) = COOKIES w
  ∧ files (paged indices w) = files w
  ∧ db (paged indices w) = db w
  ∧ sleeps (trace (paged indices w)) = sleeps (trace w).
Proof.
  revert w. induction indices as [|i indices IH]; intros w.
  - split_and!; try done. apply calls_refl.
  - cbn [paged foldl map]. fold (paged indices (log (ERequest (page_request i w)) w)).
    destruct (IH (log (ERequest (page_request i w)) w)) as (Hc & Hk & Hf & Hd & Hs).
    split_and!; try done.
    + unfold calls in *. rewrite Hc. simpl. rewrite requests_app. simpl.
      by rewrite <- app_assoc.
    + rewrite Hs. simpl. rewrite sleeps_app. simpl. apply app_nil_r.
Qed.

Section IndexFacts.
Variable json_loads : string -> option json.
Variable json_dumps : json -> string.

Lemma fetch_page_served i w entries :
  served_page (answer w (page_request i w)) = Some entries →
  ∃ page, fetch_page json_loads i w
          = (Ok page, log (ERequest (page_request i w)) w)
          ∧ py_iter page = Ok entries.
Proof.
  unfold served_page, answer, fetch_page, fetch_page_loop.
  change (range 0 RETRIES) with [0; 1; 2]. cbn [for_].
  unfold fetch_page_attempt, try_except, bind, requests_post, http.
  fold (page_request i w).
  destruct (remote w (n_requests w) (page_request i w)) as [|r]; [done|].
  destruct (status_code r =? 401); [done|]. unfold lift, response_json.
  destruct (json_body r) as [j|]; [|done].
  destruct (subscript j "modList") as [page|]; [|done].
  destruct (py_iter page) as [entries'|] eqn:Hiter; [|done].
  intros [= ->]. by exists page.
Qed.

Lemma fetch_total_count_served w total_count :
  served_count (answer w (count_request w)) = Some total_count →
  fetch_total_count json_loads w
  = (Ok total_count, log (ERequest (count_request w)) w).
Proof.
  unfold served_count, answer, fetch_total_count, fetch_total_count_loop.
  change (range 1 (RETRIES * 10)) with (1 :: range 2 (RETRIES * 10)). cbn [for_].
  unfold fetch_total_count_attempt, try_except, bind, requests_post, http.
  fold (count_request w).
  destruct (remote w (n_requests w) (count_request w)) as [|r]; [done|].
  destruct (status_code r =? 401); [done|]. unfold lift, response_json.
  destruct (json_body r) as [j|]; [|done].
  destruct (subscript j "totalCount") as [[]|]; try done; by intros [= <-].
Qed.

Lemma fetch_pages_served indices pages mod_list w :
  length pages = length indices →
  (∀ (k : nat) i entries,
     indices !! k = Some i → pages !! k = Some entries →
     served_page (remote w (n_requests w + k)%nat (page_request i w))
     = Some entries) →
  fetch_pages json_loads indices mod_list w
  = (Ok (mod_list ++ concat pages), paged indices w).
Proof.
  revert pages mod_list w.
  induction indices as [|i indices IH]; intros pages mod_list w Hlen Hserved.
  - destruct pages; [|done]. simpl. by rewrite app_nil_r.
  - destruct pages as [|entries pages]; [done|]. injection Hlen as Hlen.
    cbn [fetch_pages]. unfold bind at 1.
    destruct (fetch_page_served i w entries) as (page & -> & Hiter).
    { unfold answer. rewrite <- (Nat.add_0_r (n_requests w)). by apply Hserved. }
    unfold bind, lift. rewrite Hiter.
    rewrite (IH pages); [by rewrite <- app_assoc| done |].
    intros k i' entries' Hi' Hentries'. rewrite n_requests_log_request.
    replace (S (n_requests w) + k)%nat with (n_requests w + S k)%nat by lia.
    by apply (Hserved (S k)).
Qed.

Lemma fetch_pages_fetched indices mod_list w result wf :
  fetch_pages json_loads indices mod_list w = (Ok result, wf)
  ↔ ∃ pages, Paging.pages_fetched json_loads indices w pages wf
             ∧ result = mod_list ++ concat pages.
Proof.
  revert mod_list w. induction indices as [|i indices IH]; intros mod_list w.
  - simpl. unfold ret. split.
    + intros [= <- <-]. exists []. split; [constructor|by rewrite app_nil_r].
    + intros (pages & Hpf & ->). inversion Hpf; subst. simpl. by rewrite app_nil_r.
  - cbn [fetch_pages]. unfold bind at 1. split.
    + destruct (fetch_page json_loads i w) as [[page|e] w1] eqn:Hpage; [|done].
      unfold bind at 1, lift at 1.
      destruct (py_iter page) as [entries|e] eqn:Hiter; [|done].
      intros Hrest. apply IH in Hrest as (pages & Hpf & ->).
      exists (entries :: pages). split; [by econstructor|].
      simpl. by rewrite <- app_assoc.
    + intros (pages & Hpf & ->). inversion Hpf as [|? ? ? w1 ? page entries pages' Hpage Hiter Hrest]; subst.
      rewrite Hpage. unfold bind at 1, lift at 1. rewrite Hiter.
      apply IH. exists pages'. split; [done|]. simpl. by rewrite <- app_assoc.
Qed.

Lemma pages_fetched_batches indices w pages w2 :
  Paging.pages_fetched json_loads indices w pages w2 →
  length pages = length indices
  ∧ ∃ batches,
      calls w w2 (concat batches)
      ∧ Forall2 (λ i batch,
                   batch ≠ [] ∧ (length batch ≤ 3)%nat
                   ∧ Forall (λ r, ∃ w', r = page_request i w') batch)
          indices batches.
Proof.
  induction 1 as [w|i rest w w1 w2 page entries pages Hpage Hiter Hrest IH].
  - split; [done|]. exists []. split; [apply calls_refl|constructor].
  - destruct IH as (Hlen & batches & Hcalls & Hall).
    split; [simpl; by rewrite Hlen|].
    destruct (fetch_page_batch json_loads i w) as (batch & Hb & Hne & Hle & Hreq).
    rewrite Hpage in Hb. simpl in Hb.
    exists (batch :: batches). split.
    + simpl. by eapply calls_trans.
    + by constructor.
Qed.

(** C4.  When [fetch_total_count] returns a count [n >= 1], after however
    many attempts, the number of pages is the ceiling of [n / 1000] and
    the indices of the loop are 1, 2, ..., up to it (1, 2, 3 for 2500).
    [build_index] returns an index exactly when [fetch_page] returns a page
    for each of these indices, called in this order, each in the world the
    call before left; the index, also saved, is then the concatenation of
    the pages in this order.  The network calls made for the pages come in
    as many batches as there are pages, in the order of the indices: each
    batch has one to three POSTs to the search endpoint, all asking for the
    index of the batch with a count of 1000.  With no saved index, [main]
    builds the index this way. *)
Theorem index_is_built_page_by_page (w w1 : World) (total_count : json) (n : Z) :
  fetch_total_count json_loads w = (Ok total_count, w1) →
  as_number total_count = Ok n →
  1 ≤ n →
  let indices := range 1 (pages_count n + 1) in
  1000 * (pages_count n - 1) < n ≤ 1000 * pages_count n
  ∧ indices = seqZ 1 (pages_count n)
  ∧ (n = 2500 → indices = [1; 2; 3])
  ∧ (∀ index wf,
       build_index json_loads json_dumps w = (Ok index, wf)
       ↔ ∃ pages w2,
           Paging.pages_fetched json_loads indices w1 pages w2
           ∧ index = JList (concat pages)
           ∧ wf = set_files
                    (<[TMP_FILE := json_dumps (JList (concat pages))]> (files w2)) w2)
  ∧ (∀ pages w2,
       Paging.pages_fetched json_loads indices w1 pages w2 →
       length pages = Z.to_nat (pages_count n)
       ∧ ∃ batches,
           calls w1 w2 (concat batches)
           ∧ Forall2
               (λ i batch,
                  batch ≠ [] ∧ (length batch ≤ 3)%nat
                  ∧ Forall
                      (λ r, method r = POST
                            ∧ url r = "https://api.ageofempires.com/api/v4/mods/Find"
                            ∧ body r
                              = Some (JDict [("start", JInt i); ("count", JInt 1000);
                                             ("q", JStr EmptyString); ("game", JInt 2);
                                             ("modid", JInt 0);
                                             ("status", JStr EmptyString);
                                             ("sort", JStr "createDate");
                                             ("order", JStr "ASC")]))
                      batch)
               indices batches)
  ∧ (files w !! TMP_FILE = None →
     load_or_build_index json_loads json_dumps w
     = build_index json_loads json_dumps w).
Proof.
  intros Hcount Hnum Hn indices.
  assert (Hind : indices = seqZ 1 (pages_count n)).
  { unfold indices, range. f_equal. lia. }
  pose proof (pages_count_ceiling n) as Hceil. unfold PAGE_SIZE in Hceil.
  assert (Hpos : 0 ≤ pages_count n) by lia.
  split_and!; [lia|lia|done| | | |].
  - intros ->. reflexivity.
  - intros index wf. unfold build_index, bind at 1. rewrite Hcount.
    unfold bind at 1, lift at 1. rewrite Hnum. unfold bind at 1. fold indices.
    split.
    + destruct (fetch_pages json_loads indices [] w1) as [[mod_list|e] w2] eqn:Hpages;
        [|done].
      apply fetch_pages_fetched in Hpages as (pages & Hpf & ->).
      unfold bind, write_text, ret. cbv beta iota. rewrite app_nil_l.
      intros [= <- <-]. by exists pages, w2.
    + intros (pages & w2 & Hpf & -> & ->).
      assert (Hpages : fetch_pages json_loads indices [] w1 = (Ok (concat pages), w2)).
      { apply fetch_pages_fetched. by exists pages. }
      rewrite Hpages. reflexivity.
  - intros pages w2 Hpf.
    destruct (pages_fetched_batches indices w1 pages w2 Hpf)
      as (Hlen & batches & Hcalls & Hall).
    split; [by rewrite Hlen, Hind, length_seqZ|].
    exists batches. split; [done|].
    eapply Forall2_impl; [exact Hall|].
    intros i batch (Hne & Hle & Hreq). split_and!; [done|done|].
    eapply Forall_impl; [exact Hreq|]. intros r [w' ->]. by split_and!.
  - intros Hnone. unfold load_or_build_index, bind, is_file. rewrite Hnone.
    rewrite bool_decide_eq_false_2; [done|]. by intros [? ?].
Qed.
End IndexFacts.

(** * Instances *)

Lemma should_update_exact_witness :
  ∃ b : bool,
    Database.should_update (db (Sample.stocked Sample.offline)) 42 "2024-01-01"
    = Ok b
    ∧ (b = false ↔
       ∃ r, r ∈ Database.mods_raw (db (Sample.stocked Sample.offline))
            ∧ Database.modId r = 42 ∧ Database.lastUpdate r = "2024-01-01")
    ∧ ((∀ r, r ∈ Database.mods_raw (db (Sample.stocked Sample.offline))
             → Database.modId r ≠ 42) → b = true)
    ∧ ((∀ r, r ∈ Database.mods_raw (db (Sample.stocked Sample.offline))
             → Database.modId r = 42 → Database.lastUpdate r ≠ "2024-01-01")
       → b = true).
Proof.
  apply (should_update_exact (db (Sample.stocked Sample.offline)) 42 "2024-01-01").
  reflexivity.
Defined.

Lemma sample_detail_record (m : Z) (l : string) :
  Database.in_int64 m = true → Store.detail_record (Sample.detail m l) m l.
Proof.
  intros Hm. split.
  - split; [reflexivity|exact Hm].
  - eexists. reflexivity.
  - eexists. split; reflexivity.
  - eexists. reflexivity.
  - reflexivity.
  - exists [3; 5]. split; [reflexivity|]. repeat constructor.
Defined.

Lemma append_only_latest_view_witness :
  ∃ db',
    Store.add_all Sample.dumps
      [Sample.detail 42 "2024-01-01"; Sample.detail 42 "2024-02-01"] Database.empty
    = (Ok tt, db')
    ∧ Database.mods_raw Database.empty `prefix_of` Database.mods_raw db'
    ∧ length (Database.group (Database.mods_raw db') 42)
      = (length (Database.group (Database.mods_raw Database.empty) 42) + 2)%nat
    ∧ map Database.lastUpdate (Database.group (Database.mods_raw db') 42)
      = map Database.lastUpdate (Database.group (Database.mods_raw Database.empty) 42)
        ++ ["2024-01-01"; "2024-02-01"]
    ∧ ∀ k, k ∈ map Database.modId (Database.mods_raw db') →
           ∃ r, Database.group (Database.mods db') k = [r]
                ∧ r ∈ Database.mods_raw db' ∧ Database.modId r = k
                ∧ ∀ r', r' ∈ Database.mods_raw db' → Database.modId r' = k
                        → Database.rowid r' ≤ Database.rowid r.
Proof.
  apply (append_only_latest_view Sample.dumps Database.empty 42
           [Sample.detail 42 "2024-01-01"; Sample.detail 42 "2024-02-01"]
           ["2024-01-01"; "2024-02-01"]).
  - apply Store.reach_empty.
  - repeat constructor; apply sample_detail_record; reflexivity.
Defined.

(** C3, as stated, fails: with a remote that answers 401, then fails
    twice, then serves the page, [fetch_page] raises after the third call,
    where a loop that had kept its three attempts after the 401 would have
    returned the page at the fourth. *)
Lemma unauthorized_is_not_free : ¬ unauthorized_is_free.
Proof.
  intros Hfree.
  specialize (Hfree Sample.loads (Sample.world Sample.flaky) 1 0 [1; 2]
                (files (Sample.world Sample.flaky)) "{}" (JDict [])).
  assert (Heq : fetch_page_loop Sample.loads 1 [0; 1; 2] (Sample.world Sample.flaky)
                = fetch_page_loop Sample.loads 1 [0; 1; 2]
                    (refreshed (page_request 1 (Sample.world Sample.flaky))
                       (files (Sample.world Sample.flaky)) (JDict [])
                       (Sample.world Sample.flaky))).
  { apply Hfree; [intros req|..]; reflexivity. }
  apply (f_equal fst) in Heq. vm_compute in Heq. discriminate Heq.
Qed.

Lemma unauthorized_uses_an_attempt_witness :
  let w := Sample.world Sample.locked in
  let fs := files w in
  let wp := refreshed (page_request 1 w) fs (JDict []) w in
  let wc := refreshed (count_request w) fs (JDict []) w in
  fetch_page_loop Sample.loads 1 [0; 1; 2] w = fetch_page_loop Sample.loads 1 [1; 2] wp
  ∧ fetch_total_count_loop Sample.loads [0; 1; 2] w
    = fetch_total_count_loop Sample.loads [1; 2] wc
  ∧ fetch_page Sample.loads 1 w = fetch_page_loop Sample.loads 1 [1; 2] wp
  ∧ fetch_total_count Sample.loads w
    = fetch_total_count_loop Sample.loads (range 2 (RETRIES * 10)) wc
  ∧ length (range 2 (RETRIES * 10)) = 28%nat
  ∧ trace wp = trace w ++ [ERequest (page_request 1 w); ERun (COOKIE_REFRESH_SCRIPT w)]
  ∧ trace wc = trace w ++ [ERequest (count_request w); ERun (COOKIE_REFRESH_SCRIPT w)].
Proof.
  apply (unauthorized_uses_an_attempt Sample.loads (Sample.world Sample.locked)
           1 0 [1; 2] (files (Sample.world Sample.locked)) "{}" (JDict [])).
  - intros req. reflexivity.
  - reflexivity.
  - reflexivity.
  - reflexivity.
Defined.

Lemma retries_exhausted_witness :
  let w := Sample.world Sample.offline in
  let wp := Nat.iter 3 (failed_attempt (page_request 2 w) 5) w in
  let wd := Nat.iter 3 (failed_attempt (details_request 42 w) 5) w in
  (fetch_page Sample.loads 2 w
   = (Raise (Exception "Max retries exceeded for page 2"), wp)
   ∧ calls w wp (replicate 3 (page_request 2 w))
   ∧ sleeps (trace wp) = sleeps (trace w) ++ [5; 5; 5])
  ∧ (fetch_details Sample.loads 42 w
     = (Raise (Exception "Max retries exceeded for mod_id 42"), wd)
     ∧ calls w wd (replicate 3 (details_request 42 w))
     ∧ sleeps (trace wd) = sleeps (trace w) ++ [5; 5; 5])
  ∧ trace wp
    = [ERequest (page_request 2 w); ESleep 5; ERequest (page_request 2 w); ESleep 5;
       ERequest (page_request 2 w); ESleep 5]
  ∧ trace wd
    = [ERequest (details_request 42 w); ESleep 5;
       ERequest (details_request 42 w); ESleep 5;
       ERequest (details_request 42 w); ESleep 5]
  ∧ page_request 2 w
    = mkRequest POST "https://api.ageofempires.com/api/v4/mods/Find"
        (Some (JDict [("start", JInt 2); ("count", JInt 1000); ("q", JStr EmptyString);
                      ("game", JInt 2); ("modid", JInt 0);
                      ("status", JStr EmptyString); ("sort", JStr "createDate");
                      ("order", JStr "ASC")]))
        (JDict [])
  ∧ details_request 42 w
    = mkRequest GET "https://api.ageofempires.com/api/v4/mods/Detail/42" None
        (JDict []).
Proof.
  destruct (retries_exhausted Sample.loads (Sample.world Sample.offline) 2 42)
    as (Hp & Hd & _ & _).
  split; [|split; [|split; [|split; [|split]]]].
  - apply Hp. intros k Hk. reflexivity.
  - apply Hd. intros k Hk. reflexivity.
  - reflexivity.
  - reflexivity.
  - reflexivity.
  - reflexivity.
Defined.

Lemma total_count_retries_witness :
  let w := Sample.world Sample.undecided in
  let rs := replicate 29 Sample.null_reply in
  let w' := null_attempts (range 1 (RETRIES * 10)) rs w in
  fetch_total_count Sample.loads w
  = (Raise (Exception "Max retries exceeded when fetching total count"), w')
  ∧ calls w w' (replicate 29 (count_request w))
  ∧ sleeps (trace w') = sleeps (trace w) ++ map (λ i, 5 * i) (range 1 30)
  ∧ (∀ (k : nat) r, rs !! k = Some r →
       files w' !! ("response" +:+ str (1 + Z.of_nat k) +:+ "_tmp.json")
       = Some (text r))
  ∧ (∀ w0, ∃ extra, calls w0 (fetch_total_count Sample.loads w0).2 extra
                    ∧ (length extra ≤ 29)%nat)
  ∧ (∀ w0 i rest r,
       answer w0 (count_request w0) = Replied r → null_count r = true →
       fetch_total_count_loop Sample.loads (i :: rest) w0
       = fetch_total_count_loop Sample.loads rest (null_attempt i r w0)).
Proof.
  apply (total_count_retries Sample.loads (Sample.world Sample.undecided)
           (replicate 29 Sample.null_reply)).
  - reflexivity.
  - intros k r Hk. apply lookup_replicate in Hk as [-> _]. split; reflexivity.
Defined.

Lemma refresh_fails_or_reloads_witness :
  let wf := Cases.unrefreshable Sample.offline in
  let ws := Scenes.renewing Sample.offline in
  let ws' := (update_cookies Scenes.loads ws).2 in
  (update_cookies Scenes.loads wf
   = (Raise (CalledProcessError 1), log (ERun "refresh.sh") wf)
   ∧ trace (update_cookies Scenes.loads wf).2 = [ERun "refresh.sh"]
   ∧ COOKIES (update_cookies Scenes.loads wf).2 = COOKIES wf)
  ∧ (update_cookies Scenes.loads ws).1 = Ok tt
  ∧ trace ws' = [ERun "refresh.sh"]
  ∧ COOKIES ws = JDict []
  ∧ COOKIES ws' = JDict [("session", JStr "fresh")]
  ∧ files ws' !! "cookies.json" = Some "fresh"
  ∧ (∃ rest, calls ws' (fetch_page Scenes.loads 1 ws').2
               (mkRequest POST FIND_URL (Some (find_query 1 PAGE_SIZE))
                  (JDict [("session", JStr "fresh")]) :: rest))
  ∧ (∃ rest, calls ws' (fetch_total_count Scenes.loads ws').2
               (mkRequest POST FIND_URL (Some (find_query 1 1))
                  (JDict [("session", JStr "fresh")]) :: rest))
  ∧ (∃ rest, calls ws' (fetch_details Scenes.loads 42 ws').2
               (mkRequest GET (DETAILS_URL 42) None
                  (JDict [("session", JStr "fresh")]) :: rest))
  ∧ requests (trace (fetch_details Scenes.loads 42 ws').2)
    = replicate 3
        (mkRequest GET "https://api.ageofempires.com/api/v4/mods/Detail/42" None
           (JDict [("session", JStr "fresh")])).
Proof.
  destruct (refresh_fails_or_reloads Scenes.loads (Cases.unrefreshable Sample.offline)
              1 (files (Cases.unrefreshable Sample.offline)) eq_refl)
    as (_ & Hftrace & Hfail & _).
  destruct (refresh_fails_or_reloads Scenes.loads (Scenes.renewing Sample.offline)
              0 (<["cookies.json" := "fresh"]>
                   (files (Scenes.renewing Sample.offline))) eq_refl)
    as (_ & Hstrace & _ & Hok).
  destruct Hfail as (Hraise & _ & _ & Hkeep); [lia|].
  destruct (Hok eq_refl "fresh" Scenes.fresh_cookies) as (Heq & _ & Hc & Hfs & Hsends & _).
  { apply lookup_insert_eq. }
  { reflexivity. }
  destruct (Hsends 1 42) as (Hp & Hn & Hd).
  split; [split; [exact Hraise|split; [exact Hftrace|exact Hkeep]]|].
  split; [exact (f_equal fst Heq)|].
  split; [exact Hstrace|].
  split; [reflexivity|].
  split; [exact Hc|].
  split; [rewrite Hfs; apply lookup_insert_eq|].
  split; [exact Hp|].
  split; [exact Hn|].
  split; [exact Hd|].
  reflexivity.
Defined.

Lemma stored_entries_are_skipped_witness :
  let w := Sample.stocked Sample.offline in
  let entries := [Sample.entry 42 "2024-01-01"; Sample.entry 42 "2024-01-01"] in
  process_entries Sample.loads Sample.dumps (JList entries) w = (Ok tt, w)
  ∧ Forall (λ entry, process_entry Sample.loads Sample.dumps entry w = (Ok tt, w))
      entries.
Proof.
  apply (stored_entries_are_skipped Sample.loads Sample.dumps
           (Sample.stocked Sample.offline)
           [Sample.entry 42 "2024-01-01"; Sample.entry 42 "2024-01-01"]).
  repeat constructor;
    (exists 42, "2024-01-01"; split_and!; [reflexivity..|];
     eexists; split; [apply list_elem_of_here|split; reflexivity]).
Defined.

Lemma details_accepts_any_json_witness :
  let w := Sample.world Sample.broken in
  let j := Sample.detail 42 "2024-01-01" in
  fetch_details Sample.loads 42 w
  = (Ok j, log (ERequest (details_request 42 w)) w)
  ∧ ∃ (w0 : World) (r0 : Response) (j0 : json) (entry : json),
      answer w0 (details_request 42 w0) = Replied r0
      ∧ status_code r0 = 500
      ∧ json_body r0 = Some j0
      ∧ Database.mods_raw (db w0) = []
      ∧ (process_entry Sample.loads Sample.dumps entry w0).1 = Ok tt
      ∧ Database.mods_raw (db (process_entry Sample.loads Sample.dumps entry w0).2)
        = [Database.mkRow 1 42 "a mod" 1 "2023-01-01" "2024-01-01" (Sample.dumps j0)].
Proof.
  apply (details_accepts_any_json Sample.loads Sample.dumps
           (Sample.world Sample.broken) 42
           (mkResponse 500 EmptyString (Some (Sample.detail 42 "2024-01-01")))
           (Sample.detail 42 "2024-01-01")).
  - reflexivity.
  - simpl. lia.
  - reflexivity.
Defined.

Lemma saved_index_is_reused_witness :
  let w := Sample.resumed Sample.offline in
  load_or_build_index Sample.loads Sample.dumps w = (loads Sample.loads "[]", w)
  ∧ main Sample.loads Sample.dumps w
    = (mod_list <- lift (loads Sample.loads "[]") ;;
       _ <- process_entries Sample.loads Sample.dumps mod_list ;;
       rename TMP_FILE MOD_LIST_FILE) w
  ∧ ∃ extra, calls w (main Sample.loads Sample.dumps w).2 extra
             ∧ Forall is_details_request extra
             ∧ Forall (λ r, method r ≠ POST ∧ url r ≠ FIND_URL) extra.
Proof.
  apply (saved_index_is_reused Sample.loads Sample.dumps
           (Sample.resumed Sample.offline) "[]").
  reflexivity.
Defined.

Lemma index_is_built_page_by_page_witness :
  let w := Sample.world Scenes.stuttering in
  let w1 := (fetch_total_count Sample.loads w).2 in
  let w2 := (fetch_pages Sample.loads [1; 2; 3] [] w1).2 in
  let pages := replicate 3 [Sample.entry 7 "2024-03-01"] in
  let query (start count : Z) :=
    Some (JDict [("start", JInt start); ("count", JInt count); ("q", JStr EmptyString);
                 ("game", JInt 2); ("modid", JInt 0); ("status", JStr EmptyString);
                 ("sort", JStr "createDate"); ("order", JStr "ASC")]) in
  fetch_total_count Sample.loads w = (Ok (JInt 2500), w1)
  ∧ Paging.pages_fetched Sample.loads [1; 2; 3] w1 pages w2
  ∧ build_index Sample.loads Sample.dumps w
    = (Ok (JList (concat pages)),
       set_files (<[TMP_FILE := Sample.dumps (JList (concat pages))]> (files w2)) w2)
  ∧ map body (requests (trace w2))
    = [query 1 1; query 1 1; query 1 1000; query 1 1000; query 2 1000; query 3 1000]
  ∧ length pages = 3%nat
  ∧ ∃ batches,
      calls w1 w2 (concat batches)
      ∧ Forall2
          (λ i batch,
             batch ≠ [] ∧ (length batch ≤ 3)%nat
             ∧ Forall (λ r, method r = POST
                            ∧ url r = "https://api.ageofempires.com/api/v4/mods/Find"
                            ∧ body r = query i 1000)
                 batch)
          [1; 2; 3] batches.
Proof.
  intros w w1 w2 pages query.
  assert (Hcount : fetch_total_count Sample.loads w = (Ok (JInt 2500), w1))
    by reflexivity.
  assert (Hpf : Paging.pages_fetched Sample.loads [1; 2; 3] w1 pages w2).
  { eapply Paging.fetched_next; [reflexivity|reflexivity|].
    eapply Paging.fetched_next; [reflexivity|reflexivity|].
    eapply Paging.fetched_next; [reflexivity|reflexivity|].
    apply Paging.fetched_none. }
  destruct (index_is_built_page_by_page Sample.loads Sample.dumps w w1 (JInt 2500) 2500
              Hcount eq_refl ltac:(lia))
    as (_ & _ & _ & Hiff & Hbatches & _).
  split; [exact Hcount|].
  split; [exact Hpf|].
  split; [apply Hiff; exists pages, w2; split; [exact Hpf|split; reflexivity]|].
  split; [reflexivity|].
  exact (Hbatches pages w2 Hpf).
Defined.

(** * Further properties *)

Import Recovery.

(** ** The integrity of the store *)

Module IntegrityFacts.
Import Database Store StoreFacts Integrity.

Lemma numbered_max rows : numbered rows → max_rowid rows = Z.of_nat (length rows).
Proof.
  unfold numbered. induction rows as [|r rows IH] using rev_ind; [done|].
  rewrite map_app, length_app. simpl. intros Hnum.
  replace (Z.of_nat (length rows + 1)) with (Z.of_nat (length rows) + 1) in * by lia.
  rewrite seqZ_app in Hnum by lia. simpl in Hnum.
  apply app_inj_1 in Hnum as [Hrows Hr]; [|by rewrite length_map, length_seqZ, Nat2Z.id].
  specialize (IH Hrows). injection Hr as Hr.
  assert (Hmax : ∀ rs r0, max_rowid (rs ++ [r0]) = Z.max (max_rowid rs) (rowid r0)).
  { clear. induction rs as [|x rs IH]; intros r0; simpl.
    - lia.
    - unfold max_rowid in *. simpl. rewrite IH. lia. }
  rewrite Hmax, IH. simpl in Hr. rewrite Z.max_r; lia.
Qed.

Lemma numbered_snoc rows r :
  numbered rows → rowid r = next_rowid rows → numbered (rows ++ [r]).
Proof.
  intros Hnum Hr. pose proof (numbered_max rows Hnum) as Hmax.
  unfold numbered in *. rewrite map_app, length_app. simpl.
  replace (Z.of_nat (length rows + 1)) with (Z.of_nat (length rows) + 1) by lia.
  rewrite seqZ_app by lia. rewrite Hnum. f_equal.
  unfold next_rowid in Hr. rewrite Hr, Hmax.
  change (seqZ (1 + Z.of_nat (length rows)) 1) with [1 + Z.of_nat (length rows)].
  f_equal. lia.
Qed.

Section Add.
Variable json_dumps : json -> string.

Lemma insert_tags_effect params row_id db :
  ∃ new_tags,
    (for_each params (insert_tag row_id) db).2
    = mkDb (mods_raw db) (mod_tags db ++ new_tags)
    ∧ Forall (λ tg, modRowId tg = row_id) new_tags.
Proof.
  revert db. induction params as [|p params IH]; intros db.
  - exists []. rewrite app_nil_r. by destruct db.
  - simpl. unfold bind at 1. unfold insert_tag at 1, bind, lift.
    destruct (int_column p) as [v|e].
    + destruct (IH (mkDb (mods_raw db) (mod_tags db ++ [mkTag row_id v])))
        as (new_tags & -> & Hall).
      exists (mkTag row_id v :: new_tags). simpl. rewrite <- app_assoc.
      split; [done|]. by apply Forall_cons.
    + exists []. rewrite app_nil_r. by destruct db.
Qed.

(** What a call of [add] can do to the store: nothing, or one row with
    the next rowid and tag rows that point to it. *)
Lemma add_effect j db :
  (add json_dumps j db).2 = db
  ∨ ∃ r new_tags,
      (add json_dumps j db).2 = mkDb (mods_raw db ++ [r]) (mod_tags db ++ new_tags)
      ∧ rowid r = next_rowid (mods_raw db)
      ∧ Forall (λ tg, modRowId tg = rowid r) new_tags.
Proof.
  unfold add, bind, lift.
  destruct (subscript j "modId") as [p1|]; [|by left].
  destruct (subscript j "modName") as [p2|]; [|by left].
  destruct (subscript j "modTypeId") as [p3|]; [|by left].
  destruct (subscript j "createDate") as [p4|]; [|by left].
  destruct (subscript j "lastUpdate") as [p5|]; [|by left].
  destruct (int_column p1) as [c1|]; [|by left].
  destruct (text_column p2) as [c2|]; [|by left].
  destruct (int_column p3) as [c3|]; [|by left].
  destruct (text_column p4) as [c4|]; [|by left].
  destruct (text_column p5) as [c5|]; [|by left].
  unfold insert_mod. right.
  set (r := mkRow (next_rowid (mods_raw db)) c1 c2 c3 c4 c5 (json_dumps j)).
  destruct (subscript j "modTagIds") as [tags|].
  - destruct (py_iter tags) as [params|].
    + destruct (insert_tags_effect params (next_rowid (mods_raw db))
                  (mkDb (mods_raw db ++ [r]) (mod_tags db)))
        as (new_tags & Heq & Hall).
      exists r, new_tags. by rewrite Heq.
    + exists r, []. by rewrite app_nil_r.
  - exists r, []. by rewrite app_nil_r.
Qed.

Lemma reachable_numbered db : reachable json_dumps db → numbered (mods_raw db).
Proof.
  induction 1 as [|j db _ IH]; [done|].
  destruct (add_effect j db) as [->|(r & new_tags & -> & Hr & _)]; [done|].
  by apply numbered_snoc.
Qed.

Lemma reachable_tags_refer db : reachable json_dumps db → tags_refer db.
Proof.
  induction 1 as [|j db _ IH]; [by intros tg Htg; apply not_elem_of_nil in Htg|].
  destruct (add_effect j db) as [->|(r & new_tags & -> & Hr & Hall)]; [done|].
  intros tg Htg. simpl in *. apply elem_of_app in Htg as [Htg|Htg].
  - destruct (IH tg Htg) as (r0 & Hr0 & Heq). exists r0. split; [|done].
    apply elem_of_app. by left.
  - exists r. split; [apply elem_of_app; right; apply list_elem_of_here|].
    by eapply Forall_forall in Hall.
Qed.
End Add.
End IntegrityFacts.

Ltac in_columns :=
  unfold Integrity.columns;
  repeat first [apply list_elem_of_here | apply list_elem_of_further].

Section StoreExtras.
Import Database Store StoreFacts Integrity IntegrityFacts.
Variable json_dumps : json -> string.

(** X1.  When one of the five keys of the columns cannot be read from the
    record (the key is missing, or the record is no dict), [add] raises the
    exception of the subscript and leaves the store as it was: nothing is
    inserted. *)
Theorem add_without_column (mod_json : json) (db : Database.t) (key : string)
    (e : exn) :
  key ∈ columns →
  subscript mod_json key = Raise e →
  (add json_dumps mod_json db).2 = db
  ∧ ∃ k e', k ∈ columns ∧ subscript mod_json k = Raise e'
            ∧ (add json_dumps mod_json db).1 = Raise e'.
Proof.
  intros Hkey Hmissing. unfold add, bind, lift.
  destruct (subscript mod_json "modId") as [p1|e1] eqn:H1;
    [|split; [done|exists "modId", e1; split_and!; [in_columns|done|done]]].
  destruct (subscript mod_json "modName") as [p2|e2] eqn:H2;
    [|split; [done|exists "modName", e2; split_and!; [in_columns|done|done]]].
  destruct (subscript mod_json "modTypeId") as [p3|e3] eqn:H3;
    [|split; [done|exists "modTypeId", e3; split_and!; [in_columns|done|done]]].
  destruct (subscript mod_json "createDate") as [p4|e4] eqn:H4;
    [|split; [done|exists "createDate", e4; split_and!; [in_columns|done|done]]].
  destruct (subscript mod_json "lastUpdate") as [p5|e5] eqn:H5;
    [|split; [done|exists "lastUpdate", e5; split_and!; [in_columns|done|done]]].
  exfalso. unfold columns in Hkey.
  repeat (apply elem_of_cons in Hkey as [->|Hkey]; [congruence|]).
  by apply not_elem_of_nil in Hkey.
Qed.

(** X2.  When the five columns are there but [modTagIds] cannot be read,
    [add] raises: but only after the row has been inserted and committed,
    so the store keeps a new row of [mods_raw] with no row of [mod_tags]. *)
Theorem add_without_tags (mod_json : json) (db : Database.t) (m t : Z)
    (n c l : string) (e : exn) :
  has_int mod_json "modId" m →
  has_str mod_json "modName" n →
  has_int mod_json "modTypeId" t →
  has_str mod_json "createDate" c →
  has_str mod_json "lastUpdate" l →
  subscript mod_json "modTagIds" = Raise e →
  add json_dumps mod_json db
  = (Raise e,
     mkDb (mods_raw db
           ++ [mkRow (next_rowid (mods_raw db)) m n t c l (json_dumps mod_json)])
          (mod_tags db)).
Proof.
  unfold has_str. intros [Hm Hm64] Hn [Ht Ht64] Hc Hl Htags.
  unfold add, bind, lift. rewrite Hm, Hn, Ht, Hc, Hl. simpl.
  unfold bind_int. rewrite Hm64, Ht64. unfold insert_mod. by rewrite Htags.
Qed.

(** X3.  In every store that calls of [add] have built, the rowids of
    [mods_raw] are 1, 2, ... in the order of insertion, the next rowid is
    the number of rows plus one, and every row of [mod_tags] points to a
    row of [mods_raw]. *)
Theorem reachable_store_is_consistent (db : Database.t) :
  reachable json_dumps db →
  numbered (mods_raw db) ∧ tags_refer db
  ∧ next_rowid (mods_raw db) = Z.of_nat (length (mods_raw db)) + 1.
Proof.
  intros Hdb. pose proof (reachable_numbered json_dumps db Hdb) as Hnum.
  split_and!; [done|by eapply reachable_tags_refer|].
  unfold next_rowid. by rewrite numbered_max.
Qed.

Lemma should_update_snoc rows tags r m l :
  in_int64 m = true →
  should_update (mkDb (rows ++ [r]) tags) m l
  = if matches m l r then Ok false else should_update (mkDb rows tags) m l.
Proof.
  intros H64. unfold should_update, bind_int. rewrite H64. simpl.
  rewrite filter_app.
  destruct (filter (λ r0, matches m l r0 = true) rows) as [|r0 found] eqn:Hsel.
  - simpl. destruct (matches m l r) eqn:Hr.
    + by rewrite filter_cons_True.
    + rewrite filter_cons_False; [done|]. by rewrite Hr.
  - simpl. by destruct (matches m l r).
Qed.

(** X4.  After [add] has stored a record of item [m] with timestamp [l],
    [should_update m l] is false, and [should_update] answers as before for
    every other pair of id and timestamp. *)
Theorem added_version_is_known (mod_json : json) (m : Z) (l : string)
    (db : Database.t) :
  detail_record mod_json m l →
  ∃ db',
    add json_dumps mod_json db = (Ok tt, db')
    ∧ should_update db' m l = Ok false
    ∧ ∀ m' l', (m', l') ≠ (m, l) →
               should_update db' m' l' = should_update db m' l'.
Proof.
  intros Hrec. pose proof (dr_modId _ _ _ Hrec) as [_ H64].
  destruct (add_detail json_dumps mod_json m l db Hrec) as (n & t & c & ts & Hadd).
  eexists. split; [exact Hadd|]. split.
  - rewrite should_update_snoc by done. unfold matches. simpl.
    by rewrite Z.eqb_refl, String.eqb_refl.
  - intros m' l' Hne. destruct (in_int64 m') eqn:H64'.
    + rewrite should_update_snoc by done. unfold matches. simpl.
      destruct (m =? m') eqn:Hm; simpl.
      * destruct (String.eqb l l') eqn:Hl.
        -- apply Z.eqb_eq in Hm. apply String.eqb_eq in Hl. by subst.
        -- reflexivity.
      * reflexivity.
    + unfold should_update, bind_int. by rewrite H64'.
Qed.

Lemma group_snoc_same rows r :
  group (rows ++ [r]) (modId r) = group rows (modId r) ++ [r].
Proof. unfold group. rewrite filter_app. f_equal. by rewrite filter_cons_True. Qed.

Lemma group_snoc_other rows r k :
  k ≠ modId r → group (rows ++ [r]) k = group rows k.
Proof.
  intros Hk. unfold group. rewrite filter_app.
  rewrite (filter_cons_False _ r []) by (simpl; congruence).
  by rewrite filter_nil, app_nil_r.
Qed.

Lemma group_mods_absent db k :
  k ∉ map modId (mods_raw db) → group (mods db) k = [].
Proof.
  intros Hk. destruct (group (mods db) k) as [|r rest] eqn:Hg; [done|].
  exfalso. apply Hk.
  assert (r ∈ group (mods db) k) as Hr by (rewrite Hg; apply list_elem_of_here).
  apply group_spec in Hr as [<- Hr]. unfold mods in Hr.
  apply list_elem_of_filter in Hr as [_ Hr]. apply list_elem_of_fmap. by exists r.
Qed.

(** X5.  After [add] has stored a record of item [m], the row of the
    view [mods] for [m] is the new row (its timestamp, its JSON text, the
    rowid that was next), and the rows of the view for the other items are
    those of before. *)
Theorem view_shows_added_version (mod_json : json) (m : Z) (l : string)
    (db : Database.t) :
  reachable json_dumps db →
  detail_record mod_json m l →
  ∃ db' r,
    add json_dumps mod_json db = (Ok tt, db')
    ∧ group (mods db') m = [r]
    ∧ lastUpdate r = l
    ∧ rowid r = next_rowid (mods_raw db)
    ∧ json_text r = json_dumps mod_json
    ∧ ∀ k, k ≠ m → group (mods db') k = group (mods db) k.
Proof.
  intros Hdb Hrec.
  destruct (add_detail json_dumps mod_json m l db Hrec) as (n & t & c & ts & Hadd).
  set (new := mkRow (next_rowid (mods_raw db)) m n t c l (json_dumps mod_json)) in *.
  set (db' := mkDb (mods_raw db ++ [new])
                (mod_tags db ++ map (mkTag (next_rowid (mods_raw db))) ts)) in *.
  pose proof (reachable_keyed json_dumps db Hdb) as Hk.
  assert (Hk' : keyed (mods_raw db')) by by apply keyed_snoc.
  assert (Hnew : new ∈ mods_raw db').
  { apply elem_of_app. right. apply list_elem_of_here. }
  exists db', new. split_and!; try done.
  - destruct (mods_latest db' m Hk') as (r & Hview & Hr & Hrm & Hmax).
    { apply list_elem_of_fmap. by exists new. }
    rewrite Hview. f_equal. eapply keyed_inj; [exact Hk'|done|done|].
    rewrite Hmax. change (mods_raw db') with (mods_raw db ++ [new]).
    change m with (modId new). rewrite group_snoc_same.
    apply Z.le_antisymm.
    + assert (Hle : ∀ rs x, 0 ≤ rowid x → (∀ y, y ∈ rs → rowid y ≤ rowid x) →
                            max_rowid (rs ++ [x]) ≤ rowid x).
      { clear. induction rs as [|y rs IH]; intros x Hpos Hall; simpl.
        - unfold max_rowid. simpl. lia.
        - unfold max_rowid in *. simpl.
          assert (rowid y ≤ rowid x) by (apply Hall, list_elem_of_here).
          assert (foldr (λ r acc, rowid r `max` acc) 0 (rs ++ [x]) ≤ rowid x).
          { apply IH; [done|]. intros z Hz. apply Hall.
            by apply list_elem_of_further. }
          lia. }
      pose proof (max_rowid_nonneg (mods_raw db)) as Hnonneg.
      apply Hle; [change (rowid new) with (max_rowid (mods_raw db) + 1); lia|].
      intros y [_ Hy]%group_spec.
      apply max_rowid_ge in Hy.
      change (rowid new) with (max_rowid (mods_raw db) + 1). lia.
    + apply max_rowid_ge. apply elem_of_app. right. apply list_elem_of_here.
  - intros k Hkm.
    assert (Hgroup : group (mods_raw db') k = group (mods_raw db) k).
    { apply group_snoc_other. simpl. done. }
    destruct (decide (k ∈ map modId (mods_raw db))) as [Hin|Hnotin].
    + destruct (mods_latest db k Hk Hin) as (r1 & -> & Hr1 & Hr1k & Hmax1).
      destruct (mods_latest db' k Hk') as (r2 & -> & Hr2 & Hr2k & Hmax2).
      { change (mods_raw db') with (mods_raw db ++ [new]). rewrite map_app.
        apply elem_of_app. by left. }
      f_equal. eapply keyed_inj; [exact Hk'|done| |].
      * apply elem_of_app. by left.
      * by rewrite Hmax1, Hmax2, Hgroup.
    + rewrite (group_mods_absent db k Hnotin). apply group_mods_absent.
      change (mods_raw db') with (mods_raw db ++ [new]). rewrite map_app.
      intros [Hin|Hin]%elem_of_app; [done|].
      apply list_elem_of_singleton in Hin. simpl in Hin. done.
Qed.

Lemma add_record (mod_json : json) (db : Database.t) (m t : Z) (n c l : string)
    (ts : list Z) :
  has_int mod_json "modId" m →
  has_str mod_json "modName" n →
  has_int mod_json "modTypeId" t →
  has_str mod_json "createDate" c →
  has_str mod_json "lastUpdate" l →
  subscript mod_json "modTagIds" = Ok (JList (map JInt ts)) →
  Forall (λ z, in_int64 z = true) ts →
  add json_dumps mod_json db
  = (Ok tt,
     mkDb (mods_raw db
           ++ [mkRow (next_rowid (mods_raw db)) m n t c l (json_dumps mod_json)])
          (mod_tags db ++ map (mkTag (next_rowid (mods_raw db))) ts)).
Proof.
  unfold has_str. intros [Hm Hm64] Hn [Ht Ht64] Hc Hl Htags Hts.
  unfold add, bind, lift. rewrite Hm, Hn, Ht, Hc, Hl. simpl.
  unfold bind_int. rewrite Hm64, Ht64. unfold insert_mod.
  rewrite Htags. simpl. by rewrite insert_tags_ok.
Qed.

(** X6.  After [add] has stored a record, the tags of [mod_tags] that
    point to the new row are the tags of the record, in their order, and
    the tags of every other row are those of before. *)
Theorem tags_of_added_version (mod_json : json) (db : Database.t) (m t : Z)
    (n c l : string) (ts : list Z) :
  reachable json_dumps db →
  has_int mod_json "modId" m →
  has_str mod_json "modName" n →
  has_int mod_json "modTypeId" t →
  has_str mod_json "createDate" c →
  has_str mod_json "lastUpdate" l →
  subscript mod_json "modTagIds" = Ok (JList (map JInt ts)) →
  Forall (λ z, in_int64 z = true) ts →
  ∃ db',
    add json_dumps mod_json db = (Ok tt, db')
    ∧ tags_of db' (next_rowid (mods_raw db)) = ts
    ∧ ∀ row_id, row_id ≠ next_rowid (mods_raw db) →
                tags_of db' row_id = tags_of db row_id.
Proof.
  intros Hdb Hm Hn Ht Hc Hl Htags Hts.
  eexists. split; [by apply (add_record mod_json db m t n c l ts)|].
  pose proof (reachable_tags_refer json_dumps db Hdb) as Hrefer.
  assert (Hold : filter (λ tg, modRowId tg = next_rowid (mods_raw db)) (mod_tags db)
                 = []).
  { destruct (filter _ (mod_tags db)) as [|tg rest] eqn:Hsel; [done|]. exfalso.
    assert (Htg : tg ∈ filter (λ tg, modRowId tg = next_rowid (mods_raw db))
                         (mod_tags db)) by (rewrite Hsel; apply list_elem_of_here).
    apply list_elem_of_filter in Htg as [Hid Htg].
    destruct (Hrefer tg Htg) as (r & Hr & Heq). apply max_rowid_ge in Hr.
    unfold next_rowid in Hid. lia. }
  assert (Hmap : ∀ (row_id : Z) (zs : list Z),
            filter (λ tg, modRowId tg = row_id)
              (map (mkTag (next_rowid (mods_raw db))) zs)
            = if decide (next_rowid (mods_raw db) = row_id)
              then map (mkTag (next_rowid (mods_raw db))) zs else []).
  { intros row_id zs. induction zs as [|z zs IH]; simpl.
    - by destruct (decide _).
    - destruct (decide (next_rowid (mods_raw db) = row_id)) as [Heq|Hne].
      + rewrite filter_cons_True by done. by rewrite IH.
      + rewrite filter_cons_False by done. by rewrite IH. }
  split.
  - unfold tags_of. simpl. rewrite filter_app, Hold, Hmap. simpl.
    rewrite decide_True by done. rewrite map_map. simpl. apply map_id.
  - intros row_id Hne. unfold tags_of. simpl. rewrite filter_app, Hmap.
    rewrite decide_False by done. by rewrite app_nil_r.
Qed.
End StoreExtras.

(** ** Recovery of the fetch functions *)

Section RecoveryFacts.
Variable json_loads : string -> option json.

Lemma fetch_page_attempt_served i w page :
  page_of (answer w (page_request i w)) = Some page →
  fetch_page_attempt json_loads i w
  = (Ok (Some page), log (ERequest (page_request i w)) w).
Proof.
  unfold page_of, answer, fetch_page_attempt, try_except, bind, requests_post, http.
  fold (page_request i w).
  destruct (remote w (n_requests w) (page_request i w)) as [|r]; [done|].
  destruct (status_code r =? 401); [done|]. unfold lift, response_json.
  destruct (json_body r) as [j|]; [|done].
  destruct (subscript j "modList") as [p|]; [|done]. by intros [= ->].
Qed.

Lemma fetch_details_attempt_served m w details :
  details_of (answer w (details_request m w)) = Some details →
  fetch_details_attempt json_loads m w
  = (Ok (Some details), log (ERequest (details_request m w)) w).
Proof.
  unfold details_of, answer, fetch_details_attempt, try_except, bind, requests_get, http.
  fold (details_request m w).
  destruct (remote w (n_requests w) (details_request m w)) as [|r]; [done|].
  destruct (status_code r =? 401); [done|]. unfold lift, response_json.
  by intros ->.
Qed.

Lemma fetch_page_loop_recovers i (k : nat) attempts w page :
  (k < length attempts)%nat →
  (∀ q, (q < k)%nat →
        page_transient (remote w (n_requests w + q)%nat (page_request i w)) = true) →
  page_of (remote w (n_requests w + k)%nat (page_request i w)) = Some page →
  fetch_page_loop json_loads i attempts w
  = (Ok page,
     log (ERequest (page_request i w))
       (Nat.iter k (failed_attempt (page_request i w) 5) w)).
Proof.
  revert attempts w. induction k as [|k IH]; intros attempts w Hlen Hfail Hpage.
  - destruct attempts as [|a attempts]; [simpl in Hlen; lia|].
    unfold fetch_page_loop. cbn [for_]. rewrite Nat.add_0_r in Hpage.
    by rewrite (fetch_page_attempt_served i w page).
  - destruct attempts as [|a attempts]; [simpl in Hlen; lia|].
    unfold fetch_page_loop in *. cbn [for_].
    rewrite fetch_page_attempt_transient.
    2: { unfold answer. rewrite <- (Nat.add_0_r (n_requests w)). apply Hfail. lia. }
    rewrite Nat.iter_succ_r.
    rewrite (IH attempts (failed_attempt (page_request i w) 5 w)); [done| | |].
    + simpl in Hlen. lia.
    + intros q Hq. rewrite n_requests_failed_attempt.
      change (remote (failed_attempt ?r 5 w)) with (remote w).
      replace (S (n_requests w) + q)%nat with (n_requests w + S q)%nat by lia.
      apply Hfail. lia.
    + rewrite n_requests_failed_attempt.
      change (remote (failed_attempt ?r 5 w)) with (remote w).
      by replace (S (n_requests w) + k)%nat with (n_requests w + S k)%nat by lia.
Qed.

Lemma fetch_details_loop_recovers m (k : nat) attempts w details :
  (k < length attempts)%nat →
  (∀ q, (q < k)%nat →
        details_transient
          (remote w (n_requests w + q)%nat (details_request m w)) = true) →
  details_of (remote w (n_requests w + k)%nat (details_request m w)) = Some details →
  fetch_details_loop json_loads m attempts w
  = (Ok details,
     log (ERequest (details_request m w))
       (Nat.iter k (failed_attempt (details_request m w) 5) w)).
Proof.
  revert attempts w. induction k as [|k IH]; intros attempts w Hlen Hfail Hd.
  - destruct attempts as [|a attempts]; [simpl in Hlen; lia|].
    unfold fetch_details_loop. cbn [for_]. rewrite Nat.add_0_r in Hd.
    by rewrite (fetch_details_attempt_served m w details).
  - destruct attempts as [|a attempts]; [simpl in Hlen; lia|].
    unfold fetch_details_loop in *. cbn [for_].
    rewrite fetch_details_attempt_transient.
    2: { unfold answer. rewrite <- (Nat.add_0_r (n_requests w)). apply Hfail. lia. }
    rewrite Nat.iter_succ_r.
    rewrite (IH attempts (failed_attempt (details_request m w) 5 w)); [done| | |].
    + simpl in Hlen. lia.
    + intros q Hq. rewrite n_requests_failed_attempt.
      change (remote (failed_attempt ?r 5 w)) with (remote w).
      replace (S (n_requests w) + q)%nat with (n_requests w + S q)%nat by lia.
      apply Hfail. lia.
    + rewrite n_requests_failed_attempt.
      change (remote (failed_attempt ?r 5 w)) with (remote w).
      by replace (S (n_requests w) + k)%nat with (n_requests w + S k)%nat by lia.
Qed.

Lemma recovered_log (k : nat) req w :
  let w' := log (ERequest req) (Nat.iter k (failed_attempt req 5) w) in
  calls w w' (replicate (S k) req)
  ∧ sleeps (trace w') = sleeps (trace w) ++ replicate k 5
  ∧ db w' = db w ∧ files w' = files w ∧ COOKIES w' = COOKIES w.
Proof.
  intros w'. subst w'.
  destruct (iter_failed_attempt_fields k req 5 w) as (Hc & _ & _ & Hcalls & Hs & Hf & Hd).
  split_and!; try done.
  - unfold calls in *. cbn [trace log]. rewrite requests_app, Hcalls. cbn [requests].
    rewrite <- app_assoc. f_equal. apply replicate_snoc.
  - cbn [trace log]. rewrite sleeps_app, Hs. cbn [sleeps]. apply app_nil_r.
Qed.

(** X7.  When [k < 3] attempts of [fetch_page] fail transiently and the
    next one is answered, [fetch_page] returns the [modList] of that answer
    after [k + 1] network calls and [k] sleeps of 5 seconds, with files and
    cookies untouched. *)
Theorem fetch_page_recovers (w : World) (i : Z) (k : nat) (page : json) :
  (k < 3)%nat →
  (∀ q, (q < k)%nat →
        page_transient (remote w (n_requests w + q)%nat (page_request i w)) = true) →
  page_of (remote w (n_requests w + k)%nat (page_request i w)) = Some page →
  let w' := log (ERequest (page_request i w))
              (Nat.iter k (failed_attempt (page_request i w) 5) w) in
  fetch_page json_loads i w = (Ok page, w')
  ∧ calls w w' (replicate (S k) (page_request i w))
  ∧ sleeps (trace w') = sleeps (trace w) ++ replicate k 5
  ∧ files w' = files w ∧ COOKIES w' = COOKIES w.
Proof.
  intros Hk Hfail Hpage w'.
  destruct (recovered_log k (page_request i w) w) as (Hc & Hs & _ & Hf & Hck).
  split_and!; try done.
  by apply (fetch_page_loop_recovers i k (range 0 RETRIES) w page).
Qed.

(** X8.  When [k < 3] attempts of [fetch_details] fail transiently and
    the next one is answered, [fetch_details] returns the body of that
    answer after [k + 1] network calls and [k] sleeps of 5 seconds. *)
Theorem fetch_details_recovers (w : World) (mod_id : Z) (k : nat) (details : json) :
  (k < 3)%nat →
  (∀ q, (q < k)%nat →
        details_transient
          (remote w (n_requests w + q)%nat (details_request mod_id w)) = true) →
  details_of (remote w (n_requests w + k)%nat (details_request mod_id w))
  = Some details →
  let w' := log (ERequest (details_request mod_id w))
              (Nat.iter k (failed_attempt (details_request mod_id w) 5) w) in
  fetch_details json_loads mod_id w = (Ok details, w')
  ∧ calls w w' (replicate (S k) (details_request mod_id w))
  ∧ sleeps (trace w') = sleeps (trace w) ++ replicate k 5
  ∧ files w' = files w ∧ COOKIES w' = COOKIES w.
Proof.
  intros Hk Hfail Hd w'.
  destruct (recovered_log k (details_request mod_id w) w) as (Hc & Hs & _ & Hf & Hck).
  split_and!; try done.
  by apply (fetch_details_loop_recovers mod_id k (range 0 RETRIES) w details).
Qed.

Lemma fetch_total_count_attempt_served i w total_count :
  served_count (answer w (count_request w)) = Some total_count →
  fetch_total_count_attempt json_loads i w
  = (Ok (Some total_count), log (ERequest (count_request w)) w).
Proof.
  unfold served_count, answer, fetch_total_count_attempt, try_except, bind,
    requests_post, http.
  fold (count_request w).
  destruct (remote w (n_requests w) (count_request w)) as [|r]; [done|].
  destruct (status_code r =? 401); [done|]. unfold lift, response_json.
  destruct (json_body r) as [j|]; [|done].
  destruct (subscript j "totalCount") as [[]|]; try done; by intros [= <-].
Qed.

Lemma null_attempts_fields attempts rs w :
  length rs = length attempts →
  COOKIES (null_attempts attempts rs w) = COOKIES w
  ∧ remote (null_attempts attempts rs w) = remote w
  ∧ n_requests (null_attempts attempts rs w) = (n_requests w + length attempts)%nat
  ∧ db (null_attempts attempts rs w) = db w.
Proof.
  revert rs w. induction attempts as [|i attempts IH]; intros rs w Hlen.
  - destruct rs; [|done]. simpl. split_and!; try done; lia.
  - destruct rs as [|r rs]; [done|]. injection Hlen as Hlen. cbn [null_attempts].
    destruct (IH rs (null_attempt i r w) Hlen) as (-> & -> & -> & ->).
    destruct (null_attempt_fields i r w) as (_ & _ & -> & _).
    split_and!; try done; simpl; lia.
Qed.

Lemma loop_null_then pre rest rs w :
  length rs = length pre →
  (∀ (k : nat) r, rs !! k = Some r →
     remote w (n_requests w + k)%nat (count_request w) = Replied r
     ∧ null_count r = true) →
  fetch_total_count_loop json_loads (pre ++ rest) w
  = fetch_total_count_loop json_loads rest (null_attempts pre rs w).
Proof.
  revert rs w. induction pre as [|i pre IH]; intros rs w Hlen Hrs.
  - by destruct rs.
  - destruct rs as [|r rs]; [done|]. injection Hlen as Hlen.
    destruct (Hrs 0%nat r eq_refl) as [Hr Hnull]. rewrite Nat.add_0_r in Hr.
    unfold fetch_total_count_loop in *. cbn [for_ app null_attempts].
    rewrite (fetch_total_count_attempt_null json_loads i w r Hr Hnull).
    apply IH; [done|]. intros k r' Hk.
    destruct (null_attempt_fields i r w) as (_ & _ & -> & ->).
    change (remote (null_attempt i r w)) with (remote w).
    replace (S (n_requests w) + k)%nat with (n_requests w + S k)%nat by lia.
    by apply Hrs.
Qed.

(** X9.  When fewer than 29 attempts of [fetch_total_count] get a null
    count and the next one gets a count, the function returns that count
    (never [None]) after one call more than there were nulls, having slept
    5, 10, 15, ... seconds, one sleep for each null. *)
Theorem fetch_total_count_recovers (w : World) (rs : list Response)
    (total_count : json) :
  (length rs < 29)%nat →
  (∀ (k : nat) r, rs !! k = Some r →
     remote w (n_requests w + k)%nat (count_request w) = Replied r
     ∧ null_count r = true) →
  served_count (remote w (n_requests w + length rs)%nat (count_request w))
  = Some total_count →
  let nulls := seqZ 1 (Z.of_nat (length rs)) in
  let w' := log (ERequest (count_request w)) (null_attempts nulls rs w) in
  fetch_total_count json_loads w = (Ok total_count, w')
  ∧ total_count ≠ JNull
  ∧ calls w w' (replicate (S (length rs)) (count_request w))
  ∧ sleeps (trace w') = sleeps (trace w) ++ map (λ i, 5 * i) nulls.
Proof.
  intros Hlen Hrs Hserved nulls w'.
  assert (Hnulls : length rs = length nulls).
  { unfold nulls. by rewrite length_seqZ, Nat2Z.id. }
  assert (Hrange : range 1 (RETRIES * 10)
                   = nulls ++ seqZ (1 + Z.of_nat (length rs)) (29 - Z.of_nat (length rs))).
  { unfold range, nulls. change (RETRIES * 10 - 1) with 29.
    rewrite <- seqZ_app by lia. f_equal. lia. }
  destruct (null_attempts_fields nulls rs w Hnulls) as (Hck & Hrem & Hn & _).
  destruct (null_attempts_log nulls rs w Hnulls) as [Hcalls Hsleeps].
  split_and!.
  - unfold fetch_total_count. rewrite Hrange.
    rewrite (loop_null_then nulls _ rs w Hnulls Hrs).
    destruct (seqZ (1 + Z.of_nat (length rs)) (29 - Z.of_nat (length rs)))
      as [|i rest] eqn:Hrest.
    { apply (f_equal length) in Hrest. rewrite length_seqZ in Hrest. simpl in Hrest. lia. }
    unfold fetch_total_count_loop. cbn [for_].
    rewrite (fetch_total_count_attempt_served i _ total_count).
    + unfold w', count_request. by rewrite Hck.
    + unfold answer, count_request. rewrite Hck, Hrem, Hn, <- Hnulls. exact Hserved.
  - intros ->. unfold served_count in Hserved.
    destruct (remote w _ _) as [|r]; [done|].
    destruct (status_code r =? 401); [done|].
    destruct (json_body r) as [j|]; [|done].
    destruct (subscript j "totalCount") as [[]|]; done.
  - unfold calls in *. subst w'. cbn [trace log]. rewrite requests_app, Hcalls.
    cbn [requests]. rewrite <- app_assoc, <- Hnulls. f_equal. apply replicate_snoc.
  - subst w'. cbn [trace log]. rewrite sleeps_app, Hsleeps. cbn [sleeps].
    apply app_nil_r.
Qed.

(** *** A refresh that fails *)

Lemma update_cookies_refused req w status fs :
  refresh_script w (n_runs w) (files w) = Exited status fs →
  status ≠ 0 →
  update_cookies json_loads (log (ERequest req) w)
  = (Raise (CalledProcessError status), refused req fs w).
Proof.
  intros Hrun Hst. unfold refused.
  apply (update_cookies_failed json_loads (log (ERequest req) w) status fs); [|done].
  by rewrite n_runs_log_request.
Qed.

(** X10.  A 401 whose refresh fails ends the fetch at once: whatever
    attempts are left, each of the three fetch functions raises the
    [CalledProcessError] of the script after its one network call and the
    one run of the script; the [except Exception] clause next to the one
    that called the refresh does not catch it. *)
Theorem failed_refresh_aborts (w : World) (i mod_id : Z) (attempts : list Z)
    (a : Z) (status : Z) (fs : gmap string string) :
  (∀ req, unauthorized (answer w req) = true) →
  refresh_script w (n_runs w) (files w) = Exited status fs →
  status ≠ 0 →
  fetch_page_loop json_loads i (a :: attempts) w
  = (Raise (CalledProcessError status), refused (page_request i w) fs w)
  ∧ fetch_total_count_loop json_loads (a :: attempts) w
    = (Raise (CalledProcessError status), refused (count_request w) fs w)
  ∧ fetch_details_loop json_loads mod_id (a :: attempts) w
    = (Raise (CalledProcessError status), refused (details_request mod_id w) fs w)
  ∧ fetch_page json_loads i w
    = (Raise (CalledProcessError status), refused (page_request i w) fs w)
  ∧ fetch_total_count json_loads w
    = (Raise (CalledProcessError status), refused (count_request w) fs w)
  ∧ fetch_details json_loads mod_id w
    = (Raise (CalledProcessError status), refused (details_request mod_id w) fs w).
Proof.
  intros H401 Hrun Hst.
  assert (Hpage : ∀ a attempts, fetch_page_loop json_loads i (a :: attempts) w
    = (Raise (CalledProcessError status), refused (page_request i w) fs w)).
  { intros a' attempts'. unfold fetch_page_loop. cbn [for_].
    rewrite fetch_page_attempt_unauthorized by apply H401.
    unfold bind. by rewrite (update_cookies_refused _ _ status fs). }
  assert (Hcount : ∀ a attempts, fetch_total_count_loop json_loads (a :: attempts) w
    = (Raise (CalledProcessError status), refused (count_request w) fs w)).
  { intros a' attempts'. unfold fetch_total_count_loop. cbn [for_].
    rewrite fetch_total_count_attempt_unauthorized by apply H401.
    unfold bind. by rewrite (update_cookies_refused _ _ status fs). }
  assert (Hdetails : ∀ a attempts,
    fetch_details_loop json_loads mod_id (a :: attempts) w
    = (Raise (CalledProcessError status), refused (details_request mod_id w) fs w)).
  { intros a' attempts'. unfold fetch_details_loop. cbn [for_].
    rewrite fetch_details_attempt_unauthorized by apply H401.
    unfold bind. by rewrite (update_cookies_refused _ _ status fs). }
  split_and!; [apply Hpage|apply Hcount|apply Hdetails| | |].
  - apply (Hpage 0 [1; 2]).
  - apply (Hcount 1 (range 2 (RETRIES * 10))).
  - apply (Hdetails 0 [1; 2]).
Qed.

(** X11.  Whenever [update_cookies] raises, for whatever reason (the
    script cannot be started, it exits with a code other than 0, the cookie
    file cannot be read or parsed), [subprocess.run] has been called
    exactly once, the cookies in use are the old ones, the store is
    untouched, and no network call or sleep has been made.  When the
    script could not be started, the exception is the one of
    [subprocess.run], nothing has run and the world has only recorded the
    failed start; when it did start, it has run once and the files are
    those it left. *)
Theorem update_cookies_keeps_cookies_on_error (w : World) (e : exn) (w' : World) :
  update_cookies json_loads w = (Raise e, w') →
  COOKIES w' = COOKIES w
  ∧ n_runs w' = S (n_runs w)
  ∧ db w' = db w
  ∧ requests (trace w') = requests (trace w)
  ∧ sleeps (trace w') = sleeps (trace w)
  ∧ (∀ e0, refresh_script w (n_runs w) (files w) = NotStarted e0 →
       e = e0 ∧ w' = log (ENotStarted (COOKIE_REFRESH_SCRIPT w)) w)
  ∧ (∀ status fs, refresh_script w (n_runs w) (files w) = Exited status fs →
       trace w' = trace w ++ [ERun (COOKIE_REFRESH_SCRIPT w)] ∧ files w' = fs).
Proof.
  unfold update_cookies, bind, subprocess_run_check, read_text, lift, loads.
  assert (Hruns : ∀ fs, n_runs (log (ERun (COOKIE_REFRESH_SCRIPT w)) (set_files fs w))
                        = S (n_runs w)).
  { intros fs. unfold n_runs. simpl. rewrite List.filter_app, length_app. simpl. lia. }
  assert (Hruns' : n_runs (log (ENotStarted (COOKIE_REFRESH_SCRIPT w)) w)
                   = S (n_runs w)).
  { unfold n_runs. simpl. rewrite List.filter_app, length_app. simpl. lia. }
  assert (Hlog : ∀ ev w0, is_run ev = true →
            requests (trace (log ev w0)) = requests (trace w0)
            ∧ sleeps (trace (log ev w0)) = sleeps (trace w0)).
  { intros ev w0 Hev. simpl. rewrite requests_app, sleeps_app.
    destruct ev; try discriminate Hev; simpl; by rewrite !app_nil_r. }
  destruct (refresh_script w (n_runs w) (files w)) as [status fs|e0].
  - destruct (Hlog (ERun (COOKIE_REFRESH_SCRIPT w)) (set_files fs w) eq_refl)
      as [Hreq Hsl].
    assert (Hran : ∀ e1 w1,
              (Raise e1 : result unit, log (ERun (COOKIE_REFRESH_SCRIPT w)) (set_files fs w))
              = (Raise e, w1) →
              COOKIES w1 = COOKIES w ∧ n_runs w1 = S (n_runs w) ∧ db w1 = db w
              ∧ requests (trace w1) = requests (trace w)
              ∧ sleeps (trace w1) = sleeps (trace w)
              ∧ (∀ e0, Exited status fs = NotStarted e0 →
                   e = e0 ∧ w1 = log (ENotStarted (COOKIE_REFRESH_SCRIPT w)) w)
              ∧ (∀ status0 fs0, Exited status fs = Exited status0 fs0 →
                   trace w1 = trace w ++ [ERun (COOKIE_REFRESH_SCRIPT w)]
                   ∧ files w1 = fs0)).
    { intros e1 w1 [= <- <-]. split_and!; auto; [intros e0 [=]|].
      intros status0 fs0 [= <- <-]. done. }
    destruct (status =? 0).
    + simpl. destruct (fs !! COOKIE_PATH w) as [s|].
      * destruct (json_loads s); [done|]. apply Hran.
      * apply Hran.
    + apply Hran.
  - destruct (Hlog (ENotStarted (COOKIE_REFRESH_SCRIPT w)) w eq_refl) as [Hreq Hsl].
    intros [= <- <-]. split_and!; auto; [|intros status fs [=]].
    intros e1 [= <-]. done.
Qed.
End RecoveryFacts.

(** *** Computations that leave the store alone *)

Lemma keeps_store_silent {A} (m : M World A) :
  (∀ w, db (m w).2 = db w) → keeps_store m.
Proof. done. Qed.

Lemma keeps_store_bind {A B} (m : M World A) (k : A → M World B) :
  keeps_store m → (∀ a, keeps_store (k a)) → keeps_store (x <- m ;; k x).
Proof.
  intros Hm Hk w. unfold bind. specialize (Hm w).
  destruct (m w) as [[a|e] w1]; simpl in Hm; [|done].
  by rewrite (Hk a w1).
Qed.

Lemma keeps_store_try {A} (body : M World A) (handler : exn → M World A) :
  keeps_store body → (∀ e, keeps_store (handler e)) →
  keeps_store (try_except body handler).
Proof.
  intros Hb Hh w. unfold try_except. specialize (Hb w).
  destruct (body w) as [[a|e] w1]; simpl in Hb; [done|].
  by rewrite (Hh e w1).
Qed.

Lemma keeps_store_for {X A} (xs : list X) (body : X → M World (option A))
    (orelse : M World A) :
  (∀ x, keeps_store (body x)) → keeps_store orelse →
  keeps_store (for_ xs body orelse).
Proof.
  intros Hb Ho. induction xs as [|x xs IH]; intros w; cbn [for_]; [apply Ho|].
  specialize (Hb x w). destruct (body x w) as [[[a|]|e] w1]; simpl in Hb; try done.
  by rewrite (IH w1).
Qed.

Lemma keeps_store_http m u b : keeps_store (http m u b).
Proof. intros w. unfold http. by destruct (remote w _ _). Qed.

Section StoreFrame.
Variable json_loads : string -> option json.
Variable json_dumps : json -> string.

Lemma keeps_store_update_cookies : keeps_store (update_cookies json_loads).
Proof.
  intros w. unfold update_cookies, bind, subprocess_run_check, read_text, lift, loads.
  destruct (refresh_script w (n_runs w) (files w)) as [status fs|e]; [|done].
  destruct (status =? 0); [|done]. simpl.
  destruct (fs !! COOKIE_PATH w) as [s|]; [|done]. by destruct (json_loads s).
Qed.

Lemma keeps_store_on_failure {A} pause e :
  keeps_store (on_failure (A:=A) json_loads pause e).
Proof.
  destruct e; try done.
  apply keeps_store_bind; [apply keeps_store_update_cookies|done].
Qed.

Lemma keeps_store_fetch_page i : keeps_store (fetch_page json_loads i).
Proof.
  apply keeps_store_for; [intros _|done].
  apply keeps_store_try; [|intros e; apply keeps_store_on_failure].
  apply keeps_store_bind; [apply keeps_store_http|intros r].
  destruct (status_code r =? 401); [done|].
  apply keeps_store_bind; [done|intros rj]. by apply keeps_store_bind.
Qed.

Lemma keeps_store_fetch_total_count : keeps_store (fetch_total_count json_loads).
Proof.
  apply keeps_store_for; [intros i|done].
  apply keeps_store_try; [|intros e; apply keeps_store_on_failure].
  apply keeps_store_bind; [apply keeps_store_http|intros r].
  destruct (status_code r =? 401); [done|].
  apply keeps_store_bind; [done|intros rj].
  apply keeps_store_bind; [done|intros total]. by destruct total.
Qed.

Lemma keeps_store_fetch_details m : keeps_store (fetch_details json_loads m).
Proof.
  apply keeps_store_for; [intros _|done].
  apply keeps_store_try; [|intros e; apply keeps_store_on_failure].
  apply keeps_store_bind; [apply keeps_store_http|intros r].
  destruct (status_code r =? 401); [done|]. by apply keeps_store_bind.
Qed.

Lemma keeps_store_fetch_pages indices mod_list :
  keeps_store (fetch_pages json_loads indices mod_list).
Proof.
  revert mod_list. induction indices as [|i indices IH]; intros mod_list; [done|].
  cbn [fetch_pages].
  apply keeps_store_bind; [apply keeps_store_fetch_page|intros page].
  apply keeps_store_bind; [done|intros entries]. apply IH.
Qed.

(** X12.  None of [fetch_page], [fetch_total_count], [fetch_details],
    [update_cookies] and the loading or building of the index writes to
    the store, whatever the remote and the refresh script do. *)
Theorem fetching_keeps_the_store (w : World) (i mod_id : Z) :
  db (fetch_page json_loads i w).2 = db w
  ∧ db (fetch_total_count json_loads w).2 = db w
  ∧ db (fetch_details json_loads mod_id w).2 = db w
  ∧ db (update_cookies json_loads w).2 = db w
  ∧ db (load_or_build_index json_loads json_dumps w).2 = db w.
Proof.
  split_and!.
  - apply keeps_store_fetch_page.
  - apply keeps_store_fetch_total_count.
  - apply keeps_store_fetch_details.
  - apply keeps_store_update_cookies.
  - revert w. change (keeps_store (load_or_build_index json_loads json_dumps)).
    unfold load_or_build_index.
    apply keeps_store_bind; [done|intros saved]. destruct saved.
    + apply keeps_store_bind; [|done]. intros w. unfold read_text.
      by destruct (files w !! TMP_FILE).
    + unfold build_index.
      apply keeps_store_bind; [apply keeps_store_fetch_total_count|intros total].
      apply keeps_store_bind; [done|intros n].
      apply keeps_store_bind; [apply keeps_store_fetch_pages|intros mod_list].
      by apply keeps_store_bind.
Qed.
End StoreFrame.

(** ** The body of the loop *)

Lemma should_update_fresh d m l :
  Database.in_int64 m = true →
  (∀ r, r ∈ Database.mods_raw d →
        ¬ (Database.modId r = m ∧ Database.lastUpdate r = l)) →
  Database.should_update d m l = Ok true.
Proof.
  intros H64 Hnew. unfold Database.should_update, Database.bind_int. rewrite H64.
  destruct (filter _ (Database.mods_raw d)) as [|r0 found] eqn:Hsel; [done|].
  assert (r0 ∈ filter (λ r, Database.matches m l r = true) (Database.mods_raw d)) as Hin
    by (rewrite Hsel; apply list_elem_of_here).
  apply list_elem_of_filter in Hin as [Hr0 Hin]. exfalso. apply (Hnew r0 Hin).
  unfold Database.matches in Hr0. apply andb_true_iff in Hr0 as [Hm Hl].
  by apply Z.eqb_eq in Hm; apply String.eqb_eq in Hl.
Qed.

Section DriverExtras.
Variable json_loads : string -> option json.
Variable json_dumps : json -> string.

Lemma fetch_details_first_attempt m w details :
  details_of (answer w (details_request m w)) = Some details →
  fetch_details json_loads m w
  = (Ok details, log (ERequest (details_request m w)) w).
Proof.
  intros Hd. unfold fetch_details, fetch_details_loop.
  change (range 0 RETRIES) with [0; 1; 2]. cbn [for_].
  by rewrite (fetch_details_attempt_served json_loads m w details).
Qed.

(** The entry is new and its details arrive at the first attempt: the
    body of the loop fetches them and hands them to [add]. *)
Lemma process_entry_fresh entry w m l details :
  subscript entry "modId" = Ok (JInt m) →
  subscript entry "lastUpdate" = Ok (JStr l) →
  Database.in_int64 m = true →
  (∀ r, r ∈ Database.mods_raw (db w) →
        ¬ (Database.modId r = m ∧ Database.lastUpdate r = l)) →
  details_of (answer w (details_request m w)) = Some details →
  process_entry json_loads json_dumps entry w
  = on_db (Database.add json_dumps details) (log (ERequest (details_request m w)) w).
Proof.
  intros Hm Hl H64 Hnew Hd.
  unfold process_entry, bind, lift. rewrite Hm, Hl. simpl.
  unfold should_update. rewrite should_update_fresh by done.
  by rewrite (fetch_details_first_attempt m w details Hd).
Qed.

(** X13.  For an entry whose id and timestamp are not in the store, and
    whose details are answered at the first attempt with a record of this
    id and timestamp, the body of the loop makes one network call, adds one
    row with [add], and leaves the entry stored: processing the same entry
    again does nothing. *)
Theorem fresh_entry_is_fetched_and_stored (w : World) (entry : json) (m : Z)
    (l : string) (details : json) :
  subscript entry "modId" = Ok (JInt m) →
  subscript entry "lastUpdate" = Ok (JStr l) →
  Database.in_int64 m = true →
  (∀ r, r ∈ Database.mods_raw (db w) →
        ¬ (Database.modId r = m ∧ Database.lastUpdate r = l)) →
  details_of (answer w (details_request m w)) = Some details →
  Store.detail_record details m l →
  ∃ w',
    process_entry json_loads json_dumps entry w = (Ok tt, w')
    ∧ calls w w' [details_request m w]
    ∧ Database.add json_dumps details (db w) = (Ok tt, db w')
    ∧ length (Database.mods_raw (db w')) = S (length (Database.mods_raw (db w)))
    ∧ stored (db w') entry
    ∧ process_entry json_loads json_dumps entry w' = (Ok tt, w').
Proof.
  intros Hm Hl H64 Hnew Hd Hrec.
  destruct (StoreFacts.add_detail json_dumps details m l (db w) Hrec)
    as (n & t & c & ts & Hadd).
  rewrite (process_entry_fresh entry w m l details Hm Hl H64 Hnew Hd).
  unfold on_db. cbn [db log]. rewrite Hadd.
  eexists. split; [reflexivity|].
  assert (Hstored : stored (Database.mkDb
                 (Database.mods_raw (db w)
                  ++ [Database.mkRow (Database.next_rowid (Database.mods_raw (db w)))
                        m n t c l (json_dumps details)])
                 (Database.mod_tags (db w)
                  ++ map (Database.mkTag
                            (Database.next_rowid (Database.mods_raw (db w)))) ts))
             entry).
  { exists m, l. split_and!; try done. eexists. split.
    - apply elem_of_app. right. apply list_elem_of_here.
    - done. }
  split_and!.
  - unfold calls. simpl. by rewrite requests_app.
  - done.
  - simpl. rewrite length_app. simpl. lia.
  - exact Hstored.
  - by apply process_entry_stored.
Qed.

(** X14.  What is stored is the id and the timestamp of the details, not
    those of the index entry: when they differ, the row is added under the
    pair of the details and [should_update] stays true for the pair of the
    entry, which will be fetched again. *)
Theorem disagreeing_details_leave_entry_new (w : World) (entry : json) (m : Z)
    (l : string) (details : json) (m' : Z) (l' : string) :
  subscript entry "modId" = Ok (JInt m) →
  subscript entry "lastUpdate" = Ok (JStr l) →
  Database.in_int64 m = true →
  (∀ r, r ∈ Database.mods_raw (db w) →
        ¬ (Database.modId r = m ∧ Database.lastUpdate r = l)) →
  details_of (answer w (details_request m w)) = Some details →
  Store.detail_record details m' l' →
  (m', l') ≠ (m, l) →
  ∃ w',
    process_entry json_loads json_dumps entry w = (Ok tt, w')
    ∧ length (Database.mods_raw (db w')) = S (length (Database.mods_raw (db w)))
    ∧ Database.should_update (db w') m l = Ok true
    ∧ Database.should_update (db w') m' l' = Ok false.
Proof.
  intros Hm Hl H64 Hnew Hd Hrec Hne.
  destruct (StoreFacts.add_detail json_dumps details m' l' (db w) Hrec)
    as (n & t & c & ts & Hadd).
  pose proof (Store.dr_modId _ _ _ Hrec) as [_ H64'].
  rewrite (process_entry_fresh entry w m l details Hm Hl H64 Hnew Hd).
  unfold on_db. cbn [db log]. rewrite Hadd.
  eexists. split; [reflexivity|]. simpl. split_and!.
  - rewrite length_app. simpl. lia.
  - rewrite should_update_snoc by done. unfold Database.matches. simpl.
    destruct (m' =? m) eqn:Hmm; simpl.
    + destruct (String.eqb l' l) eqn:Hll.
      * apply Z.eqb_eq in Hmm. apply String.eqb_eq in Hll. by subst.
      * by apply should_update_fresh.
    + by apply should_update_fresh.
  - rewrite should_update_snoc by done. unfold Database.matches. simpl.
    by rewrite Z.eqb_refl, String.eqb_refl.
Qed.
End DriverExtras.

(** ** Whole runs *)

Section RunExtras.
Variable json_loads : string -> option json.
Variable json_dumps : json -> string.

(** X15.  A total count of zero or less fetches no page: the index is
    built with the one call for the count, and an empty index is saved. *)
Theorem empty_catalog_saves_empty_index (w : World) (n : Z) :
  n ≤ 0 →
  served_count (answer w (count_request w)) = Some (JInt n) →
  build_index json_loads json_dumps w
  = (Ok (JList []),
     set_files (<[TMP_FILE := json_dumps (JList [])]> (files w))
       (log (ERequest (count_request w)) w)).
Proof.
  intros Hn Hcount. unfold build_index, bind at 1.
  rewrite (fetch_total_count_served json_loads w (JInt n) Hcount).
  unfold bind at 1, lift at 1. cbn [as_number]. unfold bind at 1.
  assert (Hrange : range 1 (pages_count n + 1) = []).
  { unfold range. destruct (pages_count_ceiling n) as [Hlo Hhi].
    unfold PAGE_SIZE in *. apply seqZ_nil. lia. }
  rewrite Hrange. reflexivity.
Qed.

(** The pages of [pre] are served, each at the first attempt: the loop
    goes on with the rest. *)
Lemma fetch_pages_app pre rest pages mod_list w :
  length pages = length pre →
  (∀ (k : nat) i entries,
     pre !! k = Some i → pages !! k = Some entries →
     served_page (remote w (n_requests w + k)%nat (page_request i w))
     = Some entries) →
  fetch_pages json_loads (pre ++ rest) mod_list w
  = fetch_pages json_loads rest (mod_list ++ concat pages) (paged pre w).
Proof.
  revert pages mod_list w.
  induction pre as [|i pre IH]; intros pages mod_list w Hlen Hserved.
  - destruct pages; [|done]. simpl. by rewrite app_nil_r.
  - destruct pages as [|entries pages]; [done|]. injection Hlen as Hlen.
    cbn [fetch_pages app]. unfold bind at 1.
    destruct (fetch_page_served json_loads i w entries) as (page & -> & Hiter).
    { unfold answer. rewrite <- (Nat.add_0_r (n_requests w)). by apply Hserved. }
    unfold bind at 1, lift at 1. rewrite Hiter.
    rewrite (IH pages); [by rewrite <- app_assoc|done|].
    intros k i' entries' Hi' Hentries'. rewrite n_requests_log_request.
    replace (S (n_requests w) + k)%nat with (n_requests w + S k)%nat by lia.
    by apply (Hserved (S k)).
Qed.

Lemma paged_fields indices w :
  COOKIES (paged indices w) = COOKIES w
  ∧ remote (paged indices w) = remote w
  ∧ n_requests (paged indices w) = (n_requests w + length indices)%nat
  ∧ files (paged indices w) = files w ∧ db (paged indices w) = db w.
Proof.
  revert w. induction indices as [|i indices IH]; intros w.
  - simpl. split_and!; try done; lia.
  - cbn [paged foldl]. fold (paged indices (log (ERequest (page_request i w)) w)).
    destruct (IH (log (ERequest (page_request i w)) w)) as (-> & -> & -> & -> & ->).
    rewrite n_requests_log_request. split_and!; try done; simpl; lia.
Qed.

(** X16.  When the pages before page [j] are served and page [j] fails
    three times, the building of the index raises the exception that names
    page [j] and nothing is saved: the files are those of before, the pages
    already fetched are lost. *)
Theorem failed_page_saves_no_index (w : World) (n : Z) (pages : list (list json)) :
  served_count (answer w (count_request w)) = Some (JInt n) →
  Z.of_nat (length pages) < pages_count n →
  (∀ (k : nat) entries,
     pages !! k = Some entries →
     served_page (remote w (n_requests w + 1 + k)%nat
                    (page_request (1 + Z.of_nat k) w)) = Some entries) →
  (∀ q, (q < 3)%nat →
     page_transient
       (remote w (n_requests w + 1 + length pages + q)%nat
          (page_request (1 + Z.of_nat (length pages)) w)) = true) →
  let j := 1 + Z.of_nat (length pages) in
  let w' := Nat.iter 3 (failed_attempt (page_request j w) 5)
              (paged (seqZ 1 (Z.of_nat (length pages)))
                 (log (ERequest (count_request w)) w)) in
  build_index json_loads json_dumps w
  = (Raise (Exception ("Max retries exceeded for page " +:+ str j)), w')
  ∧ files w' = files w
  ∧ db w' = db w.
Proof.
  intros Hcount Hlen Hpages Hfail j w'.
  set (w0 := log (ERequest (count_request w)) w).
  set (pre := seqZ 1 (Z.of_nat (length pages))).
  assert (Hpre : length pages = length pre).
  { unfold pre. by rewrite length_seqZ, Nat2Z.id. }
  assert (Hrange : ∃ rest, range 1 (pages_count n + 1) = pre ++ j :: rest).
  { unfold range, pre, j.
    replace (pages_count n + 1 - 1)
      with (Z.of_nat (length pages) + (1 + (pages_count n - 1 - Z.of_nat (length pages))))
      by lia.
    rewrite seqZ_app by lia.
    rewrite (seqZ_cons (1 + Z.of_nat (length pages))) by lia. by eexists. }
  destruct Hrange as [rest Hrange].
  destruct (paged_fields pre w0) as (Hck & Hrem & Hnreq & Hfiles & Hdb).
  destruct (iter_failed_attempt_fields 3 (page_request j w) 5 (paged pre w0))
    as (_ & _ & _ & _ & _ & Hf3 & Hd3).
  split_and!.
  - unfold build_index, bind at 1.
    rewrite (fetch_total_count_served json_loads w (JInt n) Hcount). fold w0.
    unfold bind at 1, lift at 1. cbn [as_number]. unfold bind at 1.
    rewrite Hrange.
    rewrite (fetch_pages_app pre (j :: rest) pages [] w0 Hpre).
    + cbn [fetch_pages]. unfold bind at 1. unfold fetch_page.
      rewrite fetch_page_loop_exhaust.
      * unfold page_request. rewrite Hck. reflexivity.
      * intros q Hq. change (length (range 0 RETRIES)) with 3%nat in Hq.
        rewrite Hrem, Hnreq. unfold page_request. rewrite Hck.
        unfold w0. rewrite n_requests_log_request. cbn [remote log COOKIES].
        rewrite <- Hpre.
        replace (S (n_requests w) + length pages + q)%nat
          with (n_requests w + 1 + length pages + q)%nat by lia.
        by apply Hfail.
    + intros k i entries Hi Hentries. unfold w0. rewrite n_requests_log_request.
      unfold pre in Hi. apply lookup_seqZ in Hi as [-> _].
      replace (S (n_requests w) + k)%nat with (n_requests w + 1 + k)%nat by lia.
      by apply Hpages.
  - subst w' pre w0 j. by rewrite Hf3, Hfiles.
  - subst w' pre w0 j. by rewrite Hd3, Hdb.
Qed.

(** *** Runs over a saved index *)

Lemma main_resumed w s mod_list :
  files w !! TMP_FILE = Some s →
  json_loads s = Some mod_list →
  main json_loads json_dumps w
  = (_ <- process_entries json_loads json_dumps mod_list ;;
     rename TMP_FILE MOD_LIST_FILE) w.
Proof.
  intros Hfile Hloads. unfold main, bind at 1. unfold Database._init_db.
  replace (set_db (db w) w) with w by by destruct w.
  unfold bind at 1. unfold load_or_build_index, bind at 1, is_file. rewrite Hfile.
  rewrite bool_decide_eq_true_2 by by eexists.
  unfold bind at 1, read_text. rewrite Hfile. unfold lift, loads. by rewrite Hloads.
Qed.

Lemma entries_stop_at_failure prefix entry rest w e w2 :
  Forall (stored (db w)) prefix →
  process_entry json_loads json_dumps entry w = (Raise e, w2) →
  process_entries json_loads json_dumps (JList (prefix ++ entry :: rest)) w
  = (Raise e, w2).
Proof.
  intros Hprefix Hentry. unfold process_entries, bind at 1, lift. simpl.
  induction Hprefix as [|x prefix Hx _ IH]; cbn [for_each app]; unfold bind at 1.
  - by rewrite Hentry.
  - by rewrite process_entry_stored.
Qed.

Lemma process_entries_stored w entries :
  Forall (stored (db w)) entries →
  process_entries json_loads json_dumps (JList entries) w = (Ok tt, w).
Proof.
  intros Hstored. unfold process_entries, bind at 1, lift. simpl.
  induction Hstored as [|entry entries Hentry _ IH]; [done|].
  cbn [for_each]. unfold bind at 1. by rewrite process_entry_stored.
Qed.

(** X17.  A run that finds a saved index all of whose entries are in the
    store makes no network call and adds no row: it only renames the saved
    index to the final file. *)
Theorem rerun_over_stored_index_only_renames (w : World) (s : string)
    (entries : list json) :
  files w !! TMP_FILE = Some s →
  json_loads s = Some (JList entries) →
  Forall (stored (db w)) entries →
  main json_loads json_dumps w
  = (Ok tt, set_files (<[MOD_LIST_FILE := s]> (delete TMP_FILE (files w))) w).
Proof.
  intros Hfile Hloads Hstored.
  rewrite (main_resumed w s (JList entries) Hfile Hloads). unfold bind.
  rewrite (process_entries_stored w entries Hstored).
  unfold rename. by rewrite Hfile.
Qed.

(** X18.  The loop over the index does not skip an entry that fails: when
    the entries before it are in the store and its processing raises,
    [main] raises the same exception in the same world, the entries after
    it are not looked at and the saved index is not renamed. *)
Theorem main_stops_at_failing_entry (w : World) (s : string)
    (prefix : list json) (entry : json) (rest : list json) (e : exn) (w2 : World) :
  files w !! TMP_FILE = Some s →
  json_loads s = Some (JList (prefix ++ entry :: rest)) →
  Forall (stored (db w)) prefix →
  process_entry json_loads json_dumps entry w = (Raise e, w2) →
  main json_loads json_dumps w = (Raise e, w2)
  ∧ process_entries json_loads json_dumps (JList (prefix ++ entry :: rest)) w
    = (Raise e, w2).
Proof.
  intros Hfile Hloads Hprefix Hentry.
  pose proof (entries_stop_at_failure prefix entry rest w e w2 Hprefix Hentry) as Hloop.
  split; [|done].
  rewrite (main_resumed w s _ Hfile Hloads). unfold bind. by rewrite Hloop.
Qed.

(** X19.  When the details of the first new entry of a saved index cannot
    be fetched in three attempts, the run ends with the exception that
    names the item; the store is as before and the saved index is still
    there for the next run. *)
Theorem unreachable_details_abort_the_run (w : World) (s : string)
    (prefix : list json) (entry : json) (rest : list json) (m : Z) (l : string) :
  files w !! TMP_FILE = Some s →
  json_loads s = Some (JList (prefix ++ entry :: rest)) →
  Forall (stored (db w)) prefix →
  subscript entry "modId" = Ok (JInt m) →
  subscript entry "lastUpdate" = Ok (JStr l) →
  Database.in_int64 m = true →
  (∀ r, r ∈ Database.mods_raw (db w) →
        ¬ (Database.modId r = m ∧ Database.lastUpdate r = l)) →
  (∀ k, (k < 3)%nat →
        details_transient
          (remote w (n_requests w + k)%nat (details_request m w)) = true) →
  let w' := Nat.iter 3 (failed_attempt (details_request m w) 5) w in
  main json_loads json_dumps w
  = (Raise (Exception ("Max retries exceeded for mod_id " +:+ str m)), w')
  ∧ files w' !! TMP_FILE = Some s
  ∧ files w' !! MOD_LIST_FILE = files w !! MOD_LIST_FILE
  ∧ db w' = db w.
Proof.
  intros Hfile Hloads Hprefix Hm Hl H64 Hnew Hfail w'.
  destruct (iter_failed_attempt_fields 3 (details_request m w) 5 w)
    as (_ & _ & _ & _ & _ & Hf & Hd).
  fold w' in Hf, Hd. split_and!; [|by rewrite Hf|by rewrite Hf|done].
  rewrite (main_resumed w s _ Hfile Hloads). unfold bind at 1.
  rewrite (entries_stop_at_failure prefix entry rest w
             (Exception ("Max retries exceeded for mod_id " +:+ str m)) w'); [done..|].
  unfold process_entry, bind, lift. rewrite Hm, Hl. simpl.
  unfold should_update. rewrite should_update_fresh by done.
  unfold fetch_details.
  by rewrite (fetch_details_loop_exhaust json_loads m (range 0 RETRIES) w Hfail).
Qed.
End RunExtras.

(** ** Credentials that stay invalid *)

Section LockedOut.
Variable json_loads : string -> option json.

Lemma refreshed_times_refl w : refreshed_times 0 w w.
Proof. by split_and!. Qed.

Lemma refreshed_times_trans (a b : nat) w w1 w2 :
  refreshed_times a w w1 → refreshed_times b w1 w2 → refreshed_times (a + b) w w2.
Proof.
  intros (Hs1 & Hq1 & Hr1 & Hd1) (Hs2 & Hq2 & Hr2 & Hd2).
  split_and!; [congruence|lia|lia|congruence].
Qed.

(** After a 401, the refresh of a locked-out world goes through and
    leaves a locked-out world. *)
Lemma locked_out_refresh req w :
  locked_out json_loads w →
  ∃ w1, update_cookies json_loads (log (ERequest req) w) = (Ok tt, w1)
        ∧ locked_out json_loads w1 ∧ refreshed_times 1 w w1.
Proof.
  intros [H401 Hscript].
  destruct (Hscript (n_runs (log (ERequest req) w)) (files (log (ERequest req) w)))
    as (fs' & s & c & Hrun & Hfile & Hloads).
  eexists. split; [|split].
  - by apply (update_cookies_ok json_loads (log (ERequest req) w) fs' s c).
  - by split.
  - split_and!.
    + simpl. rewrite !sleeps_app. simpl. by rewrite !app_nil_r.
    + unfold n_requests. simpl. rewrite !requests_app, !length_app. simpl. lia.
    + unfold n_runs. simpl. rewrite !List.filter_app, !length_app. simpl. lia.
    + done.
Qed.

Lemma locked_out_loop {X A} (body : X → M World (option A)) (e : exn)
    (req_of : World → Request) (xs : list X) (w : World) :
  (∀ x w, unauthorized (answer w (req_of w)) = true →
          body x w = (_ <- update_cookies json_loads ;; ret None)
                       (log (ERequest (req_of w)) w)) →
  locked_out json_loads w →
  (for_ xs body (raise e) w).1 = Raise e
  ∧ locked_out json_loads (for_ xs body (raise e) w).2
  ∧ refreshed_times (length xs) w (for_ xs body (raise e) w).2.
Proof.
  intros Hbody. revert w. induction xs as [|x xs IH]; intros w Hw.
  - simpl. split_and!; [done|done|apply refreshed_times_refl].
  - cbn [for_ length]. rewrite Hbody by apply Hw.
    destruct (locked_out_refresh (req_of w) w Hw) as (w1 & Hup & Hw1 & Hstep).
    unfold bind. rewrite Hup. cbn [ret].
    destruct (IH w1 Hw1) as (Hres & Hlock & Htimes). split_and!; [done|done|].
    apply (refreshed_times_trans 1 (length xs) w w1 _ Hstep Htimes).
Qed.

(** X20.  With a remote that answers every call with a 401 while every
    refresh goes through (whatever the script writes), each fetch function
    refreshes after every attempt and gives up with its own exception:
    after 3 network calls and 3 calls of the script for [fetch_page] and
    [fetch_details], 29 and 29 for [fetch_total_count], without a single
    sleep and with the store untouched. *)
Theorem locked_out_fetch_gives_up (w : World) (i mod_id : Z) :
  locked_out json_loads w →
  (fetch_page json_loads i w).1
  = Raise (Exception ("Max retries exceeded for page " +:+ str i))
  ∧ refreshed_times 3 w (fetch_page json_loads i w).2
  ∧ (fetch_details json_loads mod_id w).1
    = Raise (Exception ("Max retries exceeded for mod_id " +:+ str mod_id))
  ∧ refreshed_times 3 w (fetch_details json_loads mod_id w).2
  ∧ (fetch_total_count json_loads w).1
    = Raise (Exception "Max retries exceeded when fetching total count")
  ∧ refreshed_times 29 w (fetch_total_count json_loads w).2.
Proof.
  intros Hw.
  destruct (locked_out_loop (λ _ : Z, fetch_page_attempt json_loads i)
              (Exception ("Max retries exceeded for page " +:+ str i))
              (page_request i) (range 0 RETRIES) w) as (Hp & _ & Hpt); [|done|].
  { intros _ w0. apply fetch_page_attempt_unauthorized. }
  destruct (locked_out_loop (λ _ : Z, fetch_details_attempt json_loads mod_id)
              (Exception ("Max retries exceeded for mod_id " +:+ str mod_id))
              (details_request mod_id) (range 0 RETRIES) w) as (Hd & _ & Hdt); [|done|].
  { intros _ w0. apply fetch_details_attempt_unauthorized. }
  destruct (locked_out_loop (fetch_total_count_attempt json_loads)
              (Exception "Max retries exceeded when fetching total count")
              count_request (range 1 (RETRIES * 10)) w) as (Hc & _ & Hct); [|done|].
  { intros x w0. apply fetch_total_count_attempt_unauthorized. }
  by split_and!.
Qed.
End LockedOut.

(** ** A complete run *)

Section CompleteRun.
Variable json_loads : string -> option json.
Variable json_dumps : json -> string.

Lemma build_index_served w n pages :
  served_count (answer w (count_request w)) = Some (JInt n) →
  length pages = Z.to_nat (pages_count n) →
  (∀ (k : nat) entries,
     pages !! k = Some entries →
     served_page (remote w (n_requests w + 1 + k)%nat
                    (page_request (1 + Z.of_nat k) w)) = Some entries) →
  build_index json_loads json_dumps w
  = (Ok (JList (concat pages)),
     set_files (<[TMP_FILE := json_dumps (JList (concat pages))]> (files w))
       (paged (range 1 (pages_count n + 1)) (log (ERequest (count_request w)) w))).
Proof.
  intros Hcount Hlen Hpages.
  assert (Hind : range 1 (pages_count n + 1) = seqZ 1 (pages_count n)).
  { unfold range. f_equal. lia. }
  unfold build_index, bind at 1.
  rewrite (fetch_total_count_served json_loads w (JInt n) Hcount).
  unfold bind at 1, lift at 1. cbn [as_number]. unfold bind at 1.
  rewrite (fetch_pages_served json_loads (range 1 (pages_count n + 1)) pages []).
  - unfold bind, write_text, ret. cbv beta iota. rewrite app_nil_l.
    destruct (paged_fields (range 1 (pages_count n + 1))
                (log (ERequest (count_request w)) w)) as (_ & _ & _ & Hfiles & _).
    by rewrite Hfiles.
  - by rewrite Hlen, Hind, length_seqZ.
  - intros k i entries Hi Hentries. rewrite n_requests_log_request.
    rewrite Hind in Hi. apply lookup_seqZ in Hi as [-> _].
    replace (S (n_requests w) + k)%nat with (n_requests w + 1 + k)%nat by lia.
    by apply Hpages.
Qed.

(** X21.  A run without a saved index over a catalog whose entries are
    all in the store: the index is built with the call for the count and
    the calls for the pages, the store is untouched, and at the end the
    index is in the final file and the partial file is gone. *)
Theorem complete_run_over_known_catalog (w : World) (n : Z)
    (pages : list (list json)) :
  files w !! TMP_FILE = None →
  served_count (answer w (count_request w)) = Some (JInt n) →
  length pages = Z.to_nat (pages_count n) →
  (∀ (k : nat) entries,
     pages !! k = Some entries →
     served_page (remote w (n_requests w + 1 + k)%nat
                    (page_request (1 + Z.of_nat k) w)) = Some entries) →
  Forall (stored (db w)) (concat pages) →
  let index := json_dumps (JList (concat pages)) in
  let w1 := paged (range 1 (pages_count n + 1)) (log (ERequest (count_request w)) w) in
  main json_loads json_dumps w
  = (Ok tt, set_files (<[MOD_LIST_FILE := index]> (delete TMP_FILE (files w))) w1)
  ∧ db w1 = db w
  ∧ calls w w1 (count_request w
                  :: map (λ i, page_request i w) (range 1 (pages_count n + 1))).
Proof.
  intros Hnone Hcount Hlen Hpages Hstored index w1.
  destruct (paged_fields (range 1 (pages_count n + 1))
              (log (ERequest (count_request w)) w)) as (_ & _ & _ & Hfiles & Hdb).
  fold w1 in Hfiles, Hdb. simpl in Hfiles, Hdb.
  split_and!; [|done|].
  - unfold main, bind at 1. unfold Database._init_db.
    replace (set_db (db w) w) with w by by destruct w.
    unfold bind at 1. unfold load_or_build_index, bind at 1, is_file. rewrite Hnone.
    rewrite bool_decide_eq_false_2 by by intros [? ?].
    rewrite (build_index_served w n pages Hcount Hlen Hpages). fold w1 index.
    unfold bind at 1.
    rewrite process_entries_stored by (simpl; by rewrite Hdb).
    unfold rename. cbn [files set_files]. rewrite lookup_insert_eq. simpl.
    by rewrite delete_insert_eq.
  - destruct (paged_calls (range 1 (pages_count n + 1))
                (log (ERequest (count_request w)) w)) as (Hc & _).
    unfold calls in *. fold w1 in Hc. rewrite Hc. simpl.
    rewrite requests_app. simpl. by rewrite <- app_assoc.
Qed.
End CompleteRun.

(** * Further instances *)

Lemma add_without_column_witness :
  (Database.add Sample.dumps Cases.nameless Cases.one_version).2 = Cases.one_version
  ∧ ∃ k e', k ∈ Integrity.columns ∧ subscript Cases.nameless k = Raise e'
            ∧ (Database.add Sample.dumps Cases.nameless Cases.one_version).1 = Raise e'.
Proof.
  apply (add_without_column Sample.dumps Cases.nameless Cases.one_version
           "modName" (KeyError "modName")).
  - in_columns.
  - reflexivity.
Defined.

Lemma add_without_tags_witness :
  Database.add Sample.dumps Cases.untagged Database.empty
  = (Raise (KeyError "modTagIds"),
     Database.mkDb
       [Database.mkRow 1 42 "a mod" 1 "2023-01-01" "2024-01-01" EmptyString] []).
Proof.
  apply (add_without_tags Sample.dumps Cases.untagged Database.empty 42 1
           "a mod" "2023-01-01" "2024-01-01" (KeyError "modTagIds")).
  - split; reflexivity.
  - reflexivity.
  - split; reflexivity.
  - reflexivity.
  - reflexivity.
  - reflexivity.
Defined.

Lemma one_version_reachable : Store.reachable Sample.dumps Cases.one_version.
Proof. apply Store.reach_add, Store.reach_empty. Defined.

Lemma reachable_store_is_consistent_witness :
  Integrity.numbered (Database.mods_raw Cases.one_version)
  ∧ Integrity.tags_refer Cases.one_version
  ∧ Database.next_rowid (Database.mods_raw Cases.one_version)
    = Z.of_nat (length (Database.mods_raw Cases.one_version)) + 1.
Proof.
  apply (reachable_store_is_consistent Sample.dumps Cases.one_version).
  apply one_version_reachable.
Defined.

Lemma added_version_is_known_witness :
  ∃ db',
    Database.add Sample.dumps (Sample.detail 42 "2024-02-01") Cases.one_version
    = (Ok tt, db')
    ∧ Database.should_update db' 42 "2024-02-01" = Ok false
    ∧ ∀ m' l', (m', l') ≠ (42, "2024-02-01") →
               Database.should_update db' m' l'
               = Database.should_update Cases.one_version m' l'.
Proof.
  apply (added_version_is_known Sample.dumps (Sample.detail 42 "2024-02-01")
           42 "2024-02-01" Cases.one_version).
  apply sample_detail_record. reflexivity.
Defined.

Lemma view_shows_added_version_witness :
  ∃ db' r,
    Database.add Sample.dumps (Sample.detail 42 "2024-02-01") Cases.one_version
    = (Ok tt, db')
    ∧ Database.group (Database.mods db') 42 = [r]
    ∧ Database.lastUpdate r = "2024-02-01"
    ∧ Database.rowid r = Database.next_rowid (Database.mods_raw Cases.one_version)
    ∧ Database.json_text r = Sample.dumps (Sample.detail 42 "2024-02-01")
    ∧ ∀ k, k ≠ 42 → Database.group (Database.mods db') k
                    = Database.group (Database.mods Cases.one_version) k.
Proof.
  apply (view_shows_added_version Sample.dumps (Sample.detail 42 "2024-02-01")
           42 "2024-02-01" Cases.one_version).
  - apply one_version_reachable.
  - apply sample_detail_record. reflexivity.
Defined.

Lemma tags_of_added_version_witness :
  ∃ db',
    Database.add Sample.dumps (Sample.detail 42 "2024-02-01") Cases.one_version
    = (Ok tt, db')
    ∧ Integrity.tags_of db' (Database.next_rowid (Database.mods_raw Cases.one_version))
      = [3; 5]
    ∧ ∀ row_id, row_id ≠ Database.next_rowid (Database.mods_raw Cases.one_version) →
                Integrity.tags_of db' row_id = Integrity.tags_of Cases.one_version row_id.
Proof.
  apply (tags_of_added_version Sample.dumps (Sample.detail 42 "2024-02-01")
           Cases.one_version 42 1 "a mod" "2023-01-01" "2024-02-01" [3; 5]).
  - apply one_version_reachable.
  - split; reflexivity.
  - reflexivity.
  - split; reflexivity.
  - reflexivity.
  - reflexivity.
  - reflexivity.
  - repeat constructor.
Defined.

Lemma fetch_page_recovers_witness :
  let w := Sample.world Cases.recovering in
  let w' := log (ERequest (page_request 1 w))
              (Nat.iter 2 (failed_attempt (page_request 1 w) 5) w) in
  fetch_page Sample.loads 1 w = (Ok (JList [Sample.entry 7 "2024-03-01"]), w')
  ∧ calls w w' (replicate 3 (page_request 1 w))
  ∧ sleeps (trace w') = sleeps (trace w) ++ replicate 2 5
  ∧ files w' = files w ∧ COOKIES w' = COOKIES w.
Proof.
  apply (fetch_page_recovers Sample.loads (Sample.world Cases.recovering) 1 2
           (JList [Sample.entry 7 "2024-03-01"])).
  - lia.
  - intros [|[|q]] Hq; [reflexivity|reflexivity|lia].
  - reflexivity.
Defined.

Lemma fetch_details_recovers_witness :
  let w := Sample.world Cases.recovering in
  let w' := log (ERequest (details_request 42 w))
              (Nat.iter 2 (failed_attempt (details_request 42 w) 5) w) in
  fetch_details Sample.loads 42 w = (Ok Cases.full_body, w')
  ∧ calls w w' (replicate 3 (details_request 42 w))
  ∧ sleeps (trace w') = sleeps (trace w) ++ replicate 2 5
  ∧ files w' = files w ∧ COOKIES w' = COOKIES w.
Proof.
  apply (fetch_details_recovers Sample.loads (Sample.world Cases.recovering) 42 2
           Cases.full_body).
  - lia.
  - intros [|[|q]] Hq; [reflexivity|reflexivity|lia].
  - reflexivity.
Defined.

Lemma fetch_total_count_recovers_witness :
  let w := Sample.world Cases.hesitant in
  let rs := [Sample.null_reply; Sample.null_reply] in
  let w' := log (ERequest (count_request w)) (null_attempts [1; 2] rs w) in
  fetch_total_count Sample.loads w = (Ok (JInt 2500), w')
  ∧ JInt 2500 ≠ JNull
  ∧ calls w w' (replicate 3 (count_request w))
  ∧ sleeps (trace w') = sleeps (trace w) ++ [5; 10].
Proof.
  apply (fetch_total_count_recovers Sample.loads (Sample.world Cases.hesitant)
           [Sample.null_reply; Sample.null_reply] (JInt 2500)).
  - simpl. lia.
  - intros [|[|k]] r Hk; simpl in Hk; try discriminate Hk;
      injection Hk as <-; split; reflexivity.
  - reflexivity.
Defined.

Lemma failed_refresh_aborts_witness :
  let w := Cases.unrefreshable Sample.locked in
  fetch_page Sample.loads 1 w
  = (Raise (CalledProcessError 1), refused (page_request 1 w) (files w) w)
  ∧ fetch_total_count Sample.loads w
    = (Raise (CalledProcessError 1), refused (count_request w) (files w) w)
  ∧ fetch_details Sample.loads 42 w
    = (Raise (CalledProcessError 1), refused (details_request 42 w) (files w) w).
Proof.
  pose proof (failed_refresh_aborts Sample.loads (Cases.unrefreshable Sample.locked)
                1 42 [1; 2] 0 1 (files (Cases.unrefreshable Sample.locked))) as H.
  destruct H as (_ & _ & _ & Hp & Hc & Hd).
  - intros req. reflexivity.
  - reflexivity.
  - lia.
  - split_and!; [exact Hp|exact Hc|exact Hd].
Defined.

Lemma update_cookies_keeps_cookies_on_error_witness :
  let w := Scenes.unstartable Sample.offline in
  let w' := (update_cookies Sample.loads w).2 in
  update_cookies Sample.loads w = (Raise (PermissionError "refresh.sh"), w')
  ∧ COOKIES w' = COOKIES w
  ∧ n_runs w' = S (n_runs w)
  ∧ db w' = db w
  ∧ requests (trace w') = requests (trace w)
  ∧ sleeps (trace w') = sleeps (trace w)
  ∧ trace w' = [ENotStarted "refresh.sh"]
  ∧ files w' = files w.
Proof.
  split; [reflexivity|].
  destruct (update_cookies_keeps_cookies_on_error Sample.loads
              (Scenes.unstartable Sample.offline) (PermissionError "refresh.sh")
              (update_cookies Sample.loads (Scenes.unstartable Sample.offline)).2
              eq_refl)
    as (Hc & Hr & Hd & Hq & Hs & _ & _).
  split; [exact Hc|]. split; [exact Hr|]. split; [exact Hd|].
  split; [exact Hq|]. split; [exact Hs|]. split; reflexivity.
Defined.

Lemma fresh_entry_is_fetched_and_stored_witness :
  let w := Sample.world Cases.detailed in
  let entry := Sample.entry 42 "2024-01-01" in
  let details := Sample.detail 42 "2024-01-01" in
  ∃ w',
    process_entry Sample.loads Sample.dumps entry w = (Ok tt, w')
    ∧ calls w w' [details_request 42 w]
    ∧ Database.add Sample.dumps details (db w) = (Ok tt, db w')
    ∧ length (Database.mods_raw (db w')) = S (length (Database.mods_raw (db w)))
    ∧ stored (db w') entry
    ∧ process_entry Sample.loads Sample.dumps entry w' = (Ok tt, w').
Proof.
  apply (fresh_entry_is_fetched_and_stored Sample.loads Sample.dumps
           (Sample.world Cases.detailed) (Sample.entry 42 "2024-01-01")
           42 "2024-01-01" (Sample.detail 42 "2024-01-01")).
  - reflexivity.
  - reflexivity.
  - reflexivity.
  - intros r Hr. simpl in Hr. by apply not_elem_of_nil in Hr.
  - reflexivity.
  - apply sample_detail_record. reflexivity.
Defined.

Lemma disagreeing_details_leave_entry_new_witness :
  let w := Sample.world Cases.detailed in
  let entry := Sample.entry 42 "2024-02-02" in
  ∃ w',
    process_entry Sample.loads Sample.dumps entry w = (Ok tt, w')
    ∧ length (Database.mods_raw (db w')) = S (length (Database.mods_raw (db w)))
    ∧ Database.should_update (db w') 42 "2024-02-02" = Ok true
    ∧ Database.should_update (db w') 42 "2024-01-01" = Ok false.
Proof.
  apply (disagreeing_details_leave_entry_new Sample.loads Sample.dumps
           (Sample.world Cases.detailed) (Sample.entry 42 "2024-02-02")
           42 "2024-02-02" (Sample.detail 42 "2024-01-01") 42 "2024-01-01").
  - reflexivity.
  - reflexivity.
  - reflexivity.
  - intros r Hr. simpl in Hr. by apply not_elem_of_nil in Hr.
  - reflexivity.
  - apply sample_detail_record. reflexivity.
  - intros Heq. discriminate Heq.
Defined.

Lemma empty_catalog_saves_empty_index_witness :
  let w := Sample.world Cases.bare in
  build_index Sample.loads Sample.dumps w
  = (Ok (JList []),
     set_files (<[TMP_FILE := Sample.dumps (JList [])]> (files w))
       (log (ERequest (count_request w)) w)).
Proof.
  apply (empty_catalog_saves_empty_index Sample.loads Sample.dumps
           (Sample.world Cases.bare) 0).
  - lia.
  - reflexivity.
Defined.

Lemma failed_page_saves_no_index_witness :
  let w := Sample.world Cases.fading in
  let w' := Nat.iter 3 (failed_attempt (page_request 2 w) 5)
              (paged [1] (log (ERequest (count_request w)) w)) in
  build_index Sample.loads Sample.dumps w
  = (Raise (Exception ("Max retries exceeded for page " +:+ str 2)), w')
  ∧ files w' = files w
  ∧ db w' = db w.
Proof.
  apply (failed_page_saves_no_index Sample.loads Sample.dumps
           (Sample.world Cases.fading) 2500 [[Sample.entry 7 "2024-03-01"]]).
  - reflexivity.
  - reflexivity.
  - intros [|k] entries Hk; simpl in Hk; [|discriminate Hk].
    injection Hk as <-. reflexivity.
  - intros q Hq. reflexivity.
Defined.

Lemma stocked_has_42 (remote : nat → Request → Outcome) (s : string) :
  stored (db (Cases.interrupted s remote)) (Sample.entry 42 "2024-01-01").
Proof.
  exists 42, "2024-01-01". split_and!; [reflexivity..|].
  eexists. split; [apply list_elem_of_here|split; reflexivity].
Defined.

Lemma rerun_over_stored_index_only_renames_witness :
  let w := Cases.interrupted "index" Sample.offline in
  let w0 := set_db (Database.mkDb (Database.mods_raw (db w)
                      ++ [Database.mkRow 2 43 "a mod" 1 "2023-01-01" "2024-05-05"
                            EmptyString]) [])
              w in
  main Cases.loads Sample.dumps w0
  = (Ok tt, set_files (<[MOD_LIST_FILE := "index"]> (delete TMP_FILE (files w0))) w0).
Proof.
  apply (rerun_over_stored_index_only_renames Cases.loads Sample.dumps _ "index"
           [Sample.entry 42 "2024-01-01"; Sample.entry 43 "2024-05-05"]).
  - reflexivity.
  - reflexivity.
  - repeat constructor.
    + exists 42, "2024-01-01". split_and!; [reflexivity..|].
      eexists. split; [apply list_elem_of_here|split; reflexivity].
    + exists 43, "2024-05-05". split_and!; [reflexivity..|].
      eexists. split; [apply list_elem_of_further, list_elem_of_here|split; reflexivity].
Defined.

Lemma main_stops_at_failing_entry_witness :
  let w := Cases.interrupted "damaged index" Sample.offline in
  main Cases.loads Sample.dumps w = (Raise (KeyError "modId"), w)
  ∧ process_entries Cases.loads Sample.dumps Cases.damaged_index w
    = (Raise (KeyError "modId"), w).
Proof.
  apply (main_stops_at_failing_entry Cases.loads Sample.dumps
           (Cases.interrupted "damaged index" Sample.offline) "damaged index"
           [Sample.entry 42 "2024-01-01"] (JDict []) [Sample.entry 43 "2024-05-05"]
           (KeyError "modId")).
  - reflexivity.
  - reflexivity.
  - constructor; [apply stocked_has_42|constructor].
  - reflexivity.
Defined.

Lemma unreachable_details_abort_the_run_witness :
  let w := Cases.interrupted "index" Sample.offline in
  let w' := Nat.iter 3 (failed_attempt (details_request 43 w) 5) w in
  main Cases.loads Sample.dumps w
  = (Raise (Exception ("Max retries exceeded for mod_id " +:+ str 43)), w')
  ∧ files w' !! TMP_FILE = Some "index"
  ∧ files w' !! MOD_LIST_FILE = files w !! MOD_LIST_FILE
  ∧ db w' = db w.
Proof.
  apply (unreachable_details_abort_the_run Cases.loads Sample.dumps
           (Cases.interrupted "index" Sample.offline) "index"
           [Sample.entry 42 "2024-01-01"] (Sample.entry 43 "2024-05-05") []
           43 "2024-05-05").
  - reflexivity.
  - reflexivity.
  - constructor; [apply stocked_has_42|constructor].
  - reflexivity.
  - reflexivity.
  - reflexivity.
  - intros r Hr [Hm _]. simpl in Hr. apply list_elem_of_singleton in Hr.
    subst r. discriminate Hm.
  - intros k Hk. reflexivity.
Defined.

Lemma renewing_locked_out :
  locked_out Scenes.loads (Scenes.renewing Sample.locked).
Proof.
  split.
  - intros n req. reflexivity.
  - intros n fs. exists (<["cookies.json" := "fresh"]> fs), "fresh", Scenes.fresh_cookies.
    split_and!; [reflexivity|apply lookup_insert_eq|reflexivity].
Defined.

Lemma locked_out_fetch_gives_up_witness :
  let w := Scenes.renewing Sample.locked in
  (fetch_page Scenes.loads 1 w).1
  = Raise (Exception "Max retries exceeded for page 1")
  ∧ refreshed_times 3 w (fetch_page Scenes.loads 1 w).2
  ∧ (fetch_details Scenes.loads 42 w).1
    = Raise (Exception "Max retries exceeded for mod_id 42")
  ∧ refreshed_times 3 w (fetch_details Scenes.loads 42 w).2
  ∧ (fetch_total_count Scenes.loads w).1
    = Raise (Exception "Max retries exceeded when fetching total count")
  ∧ refreshed_times 29 w (fetch_total_count Scenes.loads w).2.
Proof.
  apply (locked_out_fetch_gives_up Scenes.loads (Scenes.renewing Sample.locked) 1 42).
  apply renewing_locked_out.
Defined.

Lemma complete_run_over_known_catalog_witness :
  let w := Cases.mirrored Sample.catalog in
  let pages := replicate 3 [Sample.entry 7 "2024-03-01"] in
  let index := Sample.dumps (JList (concat pages)) in
  let w1 := paged (range 1 (pages_count 2500 + 1))
              (log (ERequest (count_request w)) w) in
  main Sample.loads Sample.dumps w
  = (Ok tt, set_files (<[MOD_LIST_FILE := index]> (delete TMP_FILE (files w))) w1)
  ∧ db w1 = db w
  ∧ calls w w1 (count_request w
                  :: map (λ i, page_request i w) (range 1 (pages_count 2500 + 1))).
Proof.
  apply (complete_run_over_known_catalog Sample.loads Sample.dumps
           (Cases.mirrored Sample.catalog) 2500
           (replicate 3 [Sample.entry 7 "2024-03-01"])).
  - reflexivity.
  - reflexivity.
  - reflexivity.
  - intros k entries Hk. apply lookup_replicate in Hk as [-> _]. reflexivity.
  - repeat constructor;
      (exists 7, "2024-03-01"; split_and!; [reflexivity..|];
       eexists; split; [apply list_elem_of_here|split; reflexivity]).
Defined.
